(** * Calculator: the expression evaluator, its result cache and the
      numeric formatter

    A shallow embedding of [safeEvaluate], [mathContext] and [formatNumber]
    of the calculator's utility module, together with the part of the
    ECMAScript host they call into.  ([src/App.tsx] carries a copy of the
    three; its [catch] clause throws [Error('Math Error')] where the module
    throws [Error(CalculationError.INVALID)].)

    - A JavaScript [number] is an IEEE 754 binary64 value: [spec_float] with
      a 53 bit significand, and the arithmetic of [SpecFloat] (round to
      nearest, ties to even).
    - A JavaScript string is a [string]; a character stands for one code unit
      (code units above 255 are outside the model).
    - [resultCache], a [Map], is an association list in insertion order.
    - [throw] is an explicit [completion]; [safeEvaluate] returns its result
      or the [CalculationError] carried by the [Error] it throws.
    - The text that [safeEvaluate] hands to [new Function] is evaluated in
      the realm of the host, which it can read and change; the state of the
      realm is passed along with the cache from call to call. *)

From Stdlib Require Import ZArith List String Ascii Bool Lia.
From Stdlib Require Import Floats.SpecFloat.
Import ListNotations.

Local Open Scope Z_scope.

(** ** Numbers *)

Module Num.

Definition prec : Z := 53.
Definition emax : Z := 1024.

Definition number : Type := spec_float.

Definition NaN : number := S754_nan.
Definition Infinity : number := S754_infinity false.

Definition add : number -> number -> number := SFadd prec emax.
Definition sub : number -> number -> number := SFsub prec emax.
Definition mul : number -> number -> number := SFmul prec emax.
Definition div : number -> number -> number := SFdiv prec emax.
Definition sqrt : number -> number := SFsqrt prec emax.
Definition abs : number -> number := SFabs.
Definition neg : number -> number := SFopp.

(** [<], [<=], [>] and [===] on numbers; each is false on NaN. *)
Definition ltb : number -> number -> bool := SFltb.
Definition leb : number -> number -> bool := SFleb.
Definition gtb (x y : number) : bool := SFltb y x.
Definition eqb : number -> number -> bool := SFeqb.

(** The global [isFinite] on a number. *)
Definition isFinite (x : number) : bool :=
  match x with
  | S754_zero _ | S754_finite _ _ _ => true
  | S754_infinity _ | S754_nan => false
  end.

(** [Number.isInteger]. *)
Definition isInteger (x : number) : bool :=
  match x with
  | S754_zero _ => true
  | S754_finite _ m e =>
      if 0 <=? e then true else Zpos m mod 2 ^ (- e) =? 0
  | S754_infinity _ | S754_nan => false
  end.

(** The number nearest to the integer [z]. *)
Definition of_Z (z : Z) : number := binary_normalize prec emax z 0 false.

(** The number nearest to [p / q], for [q] positive: the value of a decimal
    literal.  The division of [SpecFloat] rounds the exact quotient of the
    two integers, whatever their size. *)
Definition of_ratio (p : Z) (q : positive) : number :=
  match p with
  | Z0 => S754_zero false
  | Zpos m => div (S754_finite false m 0) (S754_finite false q 0)
  | Zneg m => div (S754_finite true m 0) (S754_finite false q 0)
  end.

(** The number nearest to [n * 10 ^ e]. *)
Definition of_decimal (n e : Z) : number :=
  if 0 <=? e then of_Z (n * 10 ^ e)
  else of_ratio n (Z.to_pos (10 ^ (- e))).

(** The [%] operator: the remainder of the truncating division, exact, with
    the sign of the dividend. *)
Definition rem (n d : number) : number :=
  match n, d with
  | S754_nan, _ | _, S754_nan => S754_nan
  | S754_infinity _, _ => S754_nan
  | _, S754_zero _ => S754_nan
  | S754_zero _, _ => n
  | S754_finite _ _ _, S754_infinity _ => n
  | S754_finite sn mn en, S754_finite _ md ed =>
      let e0 := Z.min en ed in
      let a := Zpos mn * 2 ^ (en - e0) in
      let b := Zpos md * 2 ^ (ed - e0) in
      match a mod b with
      | Z0 => S754_zero sn
      | r => binary_normalize prec emax (cond_Zopp sn r) e0 sn
      end
  end.

(** [Math.PI] and [Math.E], the numbers nearest to the two constants. *)
Definition PI : number := S754_finite false 7074237752028440 (-51).
Definition E : number := S754_finite false 6121026514868073 (-51).

End Num.

Definition number : Type := Num.number.

(** ** Decimal text *)

Local Open Scope string_scope.

Module Text.

Definition digit_char (d : Z) : ascii :=
  ascii_of_nat (48 + Z.to_nat (d mod 10)).

(** The [width] low decimal digits of [n], most significant first. *)
Fixpoint digits_onto (width : nat) (n : Z) (tail : string) : string :=
  match width with
  | O => tail
  | S w => digits_onto w (n / 10) (String (digit_char n) tail)
  end.

Definition digits_fixed (width : nat) (n : Z) : string :=
  digits_onto width n "".

Fixpoint count_digits (fuel : nat) (n : Z) : nat :=
  match fuel with
  | O => O
  | S f => if (n <=? 0)%Z then O else S (count_digits f (n / 10))
  end.

(** The number of decimal digits of a positive integer (0 for 0). *)
Definition num_digits (n : Z) : nat :=
  count_digits (S (Z.to_nat (Z.log2 n))) n.

(** A natural number in decimal, without leading zeros. *)
Definition decimal (n : Z) : string :=
  if (n <=? 0)%Z then "0" else digits_fixed (num_digits n) n.

Fixpoint zeros (n : nat) : string :=
  match n with
  | O => ""
  | S k => String "0"%char (zeros k)
  end.

Definition sign_text (s : bool) : string := if s then "-" else "".

(** [take n s] and [drop n s]: the two parts of [s] around index [n]. *)
Fixpoint take (n : nat) (s : string) : string :=
  match n, s with
  | S k, String c r => String c (take k r)
  | _, _ => ""
  end.

Fixpoint drop (n : nat) (s : string) : string :=
  match n, s with
  | S k, String _ r => drop k r
  | _, _ => s
  end.

(** [String.prototype.includes]. *)
Fixpoint includes (s sub : string) : bool :=
  if String.prefix sub s then true
  else match s with
       | EmptyString => false
       | String _ r => includes r sub
       end.

Fixpoint count_char (c : ascii) (s : string) : nat :=
  match s with
  | EmptyString => O
  | String d r => ((if Ascii.eqb c d then 1 else 0) + count_char c r)%nat
  end.

End Text.

(** ** The host's conversions between numbers and decimal text

    [Number.prototype.toExponential], [Number.prototype.toPrecision],
    [Number.prototype.toString] and [Number(string)], as ECMAScript defines
    them on the exact value of a binary64 number. *)

Module HostNumber.
Import Text.

(** The exact value [m * 2 ^ e] as a fraction of two positive integers. *)
Definition ratio (m : positive) (e : Z) : Z * Z :=
  if (0 <=? e)%Z then (Zpos m * 2 ^ e, 1)%Z else (Zpos m, 2 ^ (- e))%Z.

(** The largest [e] with [10 ^ e <= p / q], for positive [p] and [q]. *)
Definition floor_log10 (p q : Z) : Z :=
  if (q <=? p)%Z then (Z.of_nat (num_digits (p / q)) - 1)%Z
  else (- Z.of_nat (num_digits ((q - 1) / p)))%Z.

(** [p / q] scaled by [10 ^ k], as a fraction. *)
Definition scale10 (k : Z) (p q : Z) : Z * Z :=
  if (0 <=? k)%Z then (p * 10 ^ k, q)%Z else (p, q * 10 ^ (- k))%Z.

(** The integers [n] and [e] with [10 ^ (d - 1) <= n < 10 ^ d] for which
    [n * 10 ^ (e - d + 1)] is nearest to [p / q]; of two nearest, the
    larger. *)
Definition round_digits (d : Z) (p q : Z) : Z * Z :=
  let e := floor_log10 p q in
  let (a, b) := scale10 (d - 1 - e) p q in
  let n := ((2 * a + b) / (2 * b))%Z in
  if (10 ^ d <=? n)%Z then (10 ^ (d - 1), e + 1)%Z else (n, e).

Definition exponent_part (e : Z) : string :=
  "e" ++ (if (0 <=? e)%Z then "+" else "-") ++ decimal (Z.abs e).

(** [d.ddd]: a decimal point after the first digit, when more follow. *)
Definition point_after_first (ds : string) : string :=
  match ds with
  | String d EmptyString => ds
  | String d rest => String d ("." ++ rest)
  | EmptyString => ""
  end.

(** [x.toExponential(f)]. *)
Definition toExponential (f : nat) (x : number) : string :=
  match x with
  | S754_nan => "NaN"
  | S754_infinity s => sign_text s ++ "Infinity"
  | S754_zero _ => point_after_first (zeros (S f)) ++ "e+0"
  | S754_finite s m e =>
      let (p, q) := ratio m e in
      let (n, e10) := round_digits (Z.of_nat (S f)) p q in
      sign_text s ++ point_after_first (digits_fixed (S f) n)
        ++ exponent_part e10
  end.

(** [x.toPrecision(p)], for [p] at least 1. *)
Definition toPrecision (p : nat) (x : number) : string :=
  match x with
  | S754_nan => "NaN"
  | S754_infinity s => sign_text s ++ "Infinity"
  | S754_zero _ => point_after_first (zeros p)
  | S754_finite s m e =>
      let (a, b) := ratio m e in
      let (n, e10) := round_digits (Z.of_nat p) a b in
      let ds := digits_fixed p n in
      sign_text s ++
      (if ((e10 <? -6) || (Z.of_nat p <=? e10))%Z
       then point_after_first ds ++ exponent_part e10
       else if (e10 =? Z.of_nat p - 1)%Z then ds
       else if (0 <=? e10)%Z
       then take (Z.to_nat (e10 + 1)) ds ++ "." ++ drop (Z.to_nat (e10 + 1)) ds
       else "0." ++ zeros (Z.to_nat (- (e10 + 1))) ++ ds)
  end.

(** Whether the decimal [s * 10 ^ q] is read back as [x]. *)
Definition reads_back (x : number) (s q : Z) : bool :=
  Num.eqb (Num.of_decimal s q) x.

(** The shortest decimal that is read back as the positive number [p / q]:
    its digits [s] and the exponent of its last digit.  With [k] digits the
    two candidates are the decimals around [p / q]; of two that are read
    back the nearer is taken, and the even one when they are as near. *)
Fixpoint shortest (fuel : nat) (k : Z) (x : number) (p q : Z) : Z * Z :=
  match fuel with
  | O => (0, 0)%Z
  | S fuel' =>
      let last := (floor_log10 p q - k + 1)%Z in
      let (a, b) := scale10 (- last) p q in
      let lo := (a / b)%Z in
      let hi := (lo + 1)%Z in
      match reads_back x lo last, reads_back x hi last with
      | true, true =>
          match (2 * a ?= (2 * lo + 1) * b)%Z with
          | Lt => (lo, last)
          | Gt => (hi, last)
          | Eq => if Z.even lo then (lo, last) else (hi, last)
          end
      | true, false => (lo, last)
      | false, true => (hi, last)
      | false, false => shortest fuel' (k + 1)%Z x p q
      end
  end.

(** Trailing zeros of the digits move into the exponent. *)
Fixpoint trim_zeros (fuel : nat) (s q : Z) : Z * Z :=
  match fuel with
  | O => (s, q)
  | S fuel' =>
      if ((0 <? s) && (s mod 10 =? 0))%Z
      then trim_zeros fuel' (s / 10)%Z (q + 1)%Z
      else (s, q)
  end.

(** [x.toString()]. *)
Definition toString (x : number) : string :=
  match x with
  | S754_nan => "NaN"
  | S754_infinity s => sign_text s ++ "Infinity"
  | S754_zero _ => "0"
  | S754_finite sg m e =>
      let (p, q) := ratio m e in
      let (s0, q0) := shortest 17 1 (S754_finite false m e) p q in
      let (s, last) := trim_zeros 17 s0 q0 in
      let k := num_digits s in
      let n := (last + Z.of_nat k)%Z in
      let ds := digits_fixed k s in
      sign_text sg ++
      (if ((Z.of_nat k <=? n) && (n <=? 21))%Z
       then ds ++ zeros (Z.to_nat (n - Z.of_nat k))
       else if ((0 <? n) && (n <=? 21))%Z
       then take (Z.to_nat n) ds ++ "." ++ drop (Z.to_nat n) ds
       else if ((-6 <? n) && (n <=? 0))%Z
       then "0." ++ zeros (Z.to_nat (- n)) ++ ds
       else point_after_first ds ++ exponent_part (n - 1))
  end.

(** Reading decimal text. *)
Definition is_digit (c : ascii) : bool :=
  let n := nat_of_ascii c in ((48 <=? n) && (n <=? 57))%nat.

Definition digit_value (c : ascii) : Z := Z.of_nat (nat_of_ascii c - 48).

(** The leading digits of [s]: their value after [acc], how many they are,
    and the rest of [s]. *)
Fixpoint read_digits (s : string) (acc : Z) (count : Z) : Z * Z * string :=
  match s with
  | String c r =>
      if is_digit c
      then read_digits r (acc * 10 + digit_value c)%Z (count + 1)%Z
      else (acc, count, s)
  | EmptyString => (acc, count, s)
  end.

Definition read_sign (s : string) : bool * string :=
  match s with
  | String "-" r => (true, r)
  | String "+" r => (false, r)
  | _ => (false, s)
  end.

(** An unsigned decimal literal, [digits[.digits][e[+-]digits]] or
    [.digits[e[+-]digits]], at the start of [s]: mantissa, power of ten and
    the rest of [s]. *)
Definition read_decimal (s : string) : option (Z * Z * string) :=
  let '(i, ni, r1) := read_digits s 0%Z 0%Z in
  let '(m, nf, r2) :=
    match r1 with
    | String "." r => read_digits r i 0%Z
    | _ => (i, 0%Z, r1)
    end in
  if (ni + nf =? 0)%Z then None
  else
    match r2 with
    | String c r =>
        if (Ascii.eqb c "e" || Ascii.eqb c "E")%bool
        then
          let (sg, r3) := read_sign r in
          let '(x, nx, r4) := read_digits r3 0%Z 0%Z in
          if (nx =? 0)%Z then None
          else Some (m, ((if sg then - x else x) - nf)%Z, r4)
        else Some (m, (- nf)%Z, r2)
    | EmptyString => Some (m, (- nf)%Z, r2)
    end.

(** [Number(s)] on decimal text (no white space, no hexadecimal, octal or
    binary literal): anything else is [NaN]; the empty string is [0]. *)
Definition Number (s : string) : number :=
  let (sg, r) := read_sign s in
  let signed (x : number) := if sg then Num.neg x else x in
  match s with
  | EmptyString => S754_zero false
  | _ =>
    if String.eqb r "Infinity" then signed Num.Infinity
    else
      match read_decimal r with
      | Some (m, e, EmptyString) => signed (Num.of_decimal m e)
      | _ => Num.NaN
      end
  end.

End HostNumber.

(** ** Errors, values and completions *)

(** [enum CalculationError] of [src/types/calculator.ts]. *)
Inductive CalculationError : Set :=
| DOMAIN | UNDEFINED | SYNTAX | OVERFLOW | INVALID | UNKNOWN.

(** The string value of each member of the enum. *)
Definition message (k : CalculationError) : string :=
  match k with
  | DOMAIN => "Domain error"
  | UNDEFINED => "Undefined"
  | SYNTAX => "Syntax error"
  | OVERFLOW => "Overflow"
  | INVALID => "Invalid expression"
  | UNKNOWN => "Unknown error"
  end.

(** What a [throw] carries: an instance of [Error] (or of a subclass such as
    [ReferenceError]) with its [message], or any other value. *)
Inductive thrown : Type :=
| ErrorObject (msg : string)
| NotAnError.

Inductive completion (A : Type) : Type :=
| Normal (a : A)
| Throw (t : thrown).
Arguments Normal {A} a.
Arguments Throw {A} t.

(** [throw new Error(CalculationError.K)]. *)
Definition throw_error {A : Type} (k : CalculationError) : completion A :=
  Throw (ErrorObject (message k)).

(** The functions of [mathContext]. *)
Inductive builtin : Set :=
| F_sin | F_cos | F_tan | F_asin | F_acos | F_atan
| F_log | F_ln | F_sqrt | F_pow.

(** The values an expression can have: a number, [undefined], the object
    bound to [Math], one of its functions, or something else that is not a
    number. *)
Inductive value : Type :=
| VNumber (x : number)
| VUndefined
| VContext
| VFunction (f : builtin)
| VOther.

(** ** The math context *)

(** The functions of the host's [Math] that the context calls; ECMAScript
    leaves their values to the implementation. *)
Record HostMath : Type := {
  Math_sin : number -> number;
  Math_cos : number -> number;
  Math_tan : number -> number;
  Math_asin : number -> number;
  Math_acos : number -> number;
  Math_atan : number -> number;
  Math_log10 : number -> number;
  Math_log : number -> number;
  Math_sqrt : number -> number;
  Math_pow : number -> number -> number
}.

Module mathContext.
Section Functions.
Variable M : HostMath.

Definition lit (z : Z) : number := Num.of_Z z.

(** [((x % 360) + 360) % 360]. *)
Definition normalize (x : number) : number :=
  Num.rem (Num.add (Num.rem x (lit 360)) (lit 360)) (lit 360).

(** [(normalized * Math.PI) / 180]. *)
Definition radians (normalized : number) : number :=
  Num.div (Num.mul normalized Num.PI) (lit 180).

(** [y * 180 / Math.PI]. *)
Definition degrees (y : number) : number :=
  Num.div (Num.mul y (lit 180)) Num.PI.

Definition at_angle (normalized : number) (z : Z) : bool :=
  Num.eqb normalized (lit z).

(** [Math.abs(normalized - z) < 1e-10]. *)
Definition near (normalized : number) (z : Z) : bool :=
  Num.ltb (Num.abs (Num.sub normalized (lit z))) (Num.of_decimal 1 (-10)).

Definition sin (x : number) : completion number :=
  let normalized := normalize x in
  Normal (Math_sin M (radians normalized)).

Definition cos (x : number) : completion number :=
  let normalized := normalize x in
  if at_angle normalized 0 || at_angle normalized 360 then Normal (lit 1)
  else if at_angle normalized 90 || at_angle normalized 270 then Normal (lit 0)
  else if at_angle normalized 180 then Normal (lit (-1))
  else if at_angle normalized 60 || at_angle normalized 300
  then Normal (Num.of_decimal 5 (-1))
  else if at_angle normalized 120 || at_angle normalized 240
  then Normal (Num.of_decimal (-5) (-1))
  else Normal (Math_cos M (radians normalized)).

Definition tan (x : number) : completion number :=
  let normalized := normalize x in
  if near normalized 90 || near normalized 270 then throw_error UNDEFINED
  else if at_angle normalized 0 || at_angle normalized 180
          || at_angle normalized 360
  then Normal (lit 0)
  else if at_angle normalized 45 || at_angle normalized 225 then Normal (lit 1)
  else if at_angle normalized 135 || at_angle normalized 315
  then Normal (lit (-1))
  else if at_angle normalized 60 then Normal (Math_sqrt M (lit 3))
  else if at_angle normalized 240 then Normal (Math_sqrt M (lit 3))
  else if at_angle normalized 120 || at_angle normalized 300
  then Normal (Num.neg (Math_sqrt M (lit 3)))
  else Normal (Math_tan M (radians normalized)).

Definition asin (x : number) : completion number :=
  if Num.gtb (Num.abs x) (lit 1) then throw_error DOMAIN
  else Normal (degrees (Math_asin M x)).

Definition acos (x : number) : completion number :=
  if Num.gtb (Num.abs x) (lit 1) then throw_error DOMAIN
  else Normal (degrees (Math_acos M x)).

Definition atan (x : number) : completion number :=
  Normal (degrees (Math_atan M x)).

Definition log (x : number) : completion number :=
  if Num.leb x (lit 0) then throw_error DOMAIN
  else Normal (Math_log10 M x).

Definition ln (x : number) : completion number :=
  if Num.leb x (lit 0) then throw_error DOMAIN
  else Normal (Math_log M x).

Definition sqrt (x : number) : completion number :=
  if Num.ltb x (lit 0) then throw_error DOMAIN
  else Normal (Math_sqrt M x).

Definition pow (base exp : number) : completion number :=
  let result := Math_pow M base exp in
  if negb (Num.isFinite result) then throw_error OVERFLOW
  else Normal result.

Definition pi : number := Num.PI.
Definition e : number := Num.E.

(** A property that the object literal defines.  ([...Math] copies the
    enumerable properties of [Math]; what the object answers for another
    name is left to the host.) *)
Definition property (name : string) : option value :=
  if String.eqb name "sin" then Some (VFunction F_sin)
  else if String.eqb name "cos" then Some (VFunction F_cos)
  else if String.eqb name "tan" then Some (VFunction F_tan)
  else if String.eqb name "asin" then Some (VFunction F_asin)
  else if String.eqb name "acos" then Some (VFunction F_acos)
  else if String.eqb name "atan" then Some (VFunction F_atan)
  else if String.eqb name "log" then Some (VFunction F_log)
  else if String.eqb name "ln" then Some (VFunction F_ln)
  else if String.eqb name "sqrt" then Some (VFunction F_sqrt)
  else if String.eqb name "pow" then Some (VFunction F_pow)
  else if String.eqb name "pi" then Some (VNumber pi)
  else if String.eqb name "e" then Some (VNumber e)
  else None.

(** A call with exactly the declared number of arguments. *)
Definition call (f : builtin) (args : list number)
  : option (completion number) :=
  match f, args with
  | F_sin, [x] => Some (sin x)
  | F_cos, [x] => Some (cos x)
  | F_tan, [x] => Some (tan x)
  | F_asin, [x] => Some (asin x)
  | F_acos, [x] => Some (acos x)
  | F_atan, [x] => Some (atan x)
  | F_log, [x] => Some (log x)
  | F_ln, [x] => Some (ln x)
  | F_sqrt, [x] => Some (sqrt x)
  | F_pow, [b; x] => Some (pow b x)
  | _, _ => None
  end.

End Functions.
End mathContext.

(** ** The host's evaluation of a function body

    [new Function('Math', `return ${sanitized}`)(mathContext)] hands the text
    to the JavaScript engine, which evaluates it in the realm as it is at
    that moment: the body reads the object [mathContext], which lives on from
    call to call and which the body can write to ([Math.pi++] passes both
    checks of [safeEvaluate]), and it reads the rest of the realm (the global
    object, the clock).  [Engine.run] models the engine on a fragment of the
    expression language: decimal literals, the four operators, unary signs,
    parentheses, names, properties of the context, calls of its functions on
    numbers, and [++] and [--] after a property of the context that holds a
    number or a function.  Text outside the fragment (another syntax, a
    reserved word, an operand that is not a number, a property the context
    does not have) is left to the host: [beyond]. *)

Module Engine.
Import HostNumber.

Inductive token : Type :=
| TNum (x : number)
| TIdent (name : string)
| TPlus | TMinus | TStar | TSlash
| TIncr | TDecr
| TLParen | TRParen | TDot | TComma.

Definition is_ident_start (c : ascii) : bool :=
  let n := nat_of_ascii c in
  (((65 <=? n) && (n <=? 90)) || ((97 <=? n) && (n <=? 122))
   || (n =? 95))%nat.

Definition is_ident_part (c : ascii) : bool :=
  is_ident_start c || is_digit c.

Fixpoint read_ident (s : string) : string * string :=
  match s with
  | String c r =>
      if is_ident_part c
      then let (name, rest) := read_ident r in (String c name, rest)
      else ("", s)
  | EmptyString => ("", s)
  end.

(** Names that are not plain variable references in a function body. *)
Definition reserved : list string :=
  [ "arguments"; "async"; "await"; "break"; "case"; "catch"; "class";
    "const"; "continue"; "debugger"; "default"; "delete"; "do"; "else";
    "enum"; "eval"; "export"; "extends"; "false"; "finally"; "for";
    "function"; "if"; "implements"; "import"; "in"; "instanceof";
    "interface"; "let"; "new"; "null"; "of"; "package"; "private";
    "protected"; "public"; "return"; "static"; "super"; "switch"; "this";
    "throw"; "true"; "try"; "typeof"; "var"; "void"; "while"; "with";
    "yield" ].

Definition is_reserved (name : string) : bool :=
  existsb (String.eqb name) reserved.

Definition next_is (p : ascii -> bool) (s : string) : bool :=
  match s with
  | String c _ => p c
  | EmptyString => false
  end.

Definition push (t : token) (ts : option (list token))
  : option (list token) :=
  option_map (cons t) ts.

(** The tokens of [s], the longest first ([++] before [+]); [None] outside
    the fragment ([**], comments, brackets, a literal with a leading zero, a
    name right after a literal). *)
Fixpoint lex (fuel : nat) (s : string) : option (list token) :=
  match s with
  | EmptyString => Some []
  | String c r =>
      match fuel with
      | O => None
      | S f =>
          if is_digit c || (Ascii.eqb c "." && next_is is_digit r)
          then
            if Ascii.eqb c "0" && next_is is_digit r then None
            else
              match read_decimal s with
              | Some (m, e, rest) =>
                  if next_is is_ident_part rest then None
                  else push (TNum (Num.of_decimal m e)) (lex f rest)
              | None => None
              end
          else if is_ident_start c
          then
            let (name, rest) := read_ident s in
            if is_reserved name then None
            else push (TIdent name) (lex f rest)
          else if Ascii.eqb c "+"
          then
            match r with
            | String d r' =>
                if Ascii.eqb d "+" then push TIncr (lex f r')
                else push TPlus (lex f r)
            | EmptyString => push TPlus (lex f r)
            end
          else if Ascii.eqb c "-"
          then
            match r with
            | String d r' =>
                if Ascii.eqb d "-" then push TDecr (lex f r')
                else push TMinus (lex f r)
            | EmptyString => push TMinus (lex f r)
            end
          else if Ascii.eqb c "*"
          then if next_is (Ascii.eqb "*") r then None
               else push TStar (lex f r)
          else if Ascii.eqb c "/"
          then if next_is (Ascii.eqb "/") r || next_is (Ascii.eqb "*") r
               then None
               else push TSlash (lex f r)
          else if Ascii.eqb c "(" then push TLParen (lex f r)
          else if Ascii.eqb c ")" then push TRParen (lex f r)
          else if Ascii.eqb c "." then push TDot (lex f r)
          else if Ascii.eqb c "," then push TComma (lex f r)
          else None
      end
  end.

Inductive binop : Set := Add | Sub | Mul | Div.

Local Unset Elimination Schemes.
Inductive expr : Type :=
| ELit (x : number)
| EVar (name : string)
| EMember (object : expr) (prop : string)
| EStep (up : bool) (object : expr) (prop : string)
| ECall (callee : expr) (args : list expr)
| ENeg (e : expr)
| EPos (e : expr)
| EBin (op : binop) (a b : expr).
Local Set Elimination Schemes.

Definition parser (A : Type) : Type :=
  list token -> option (A * list token).

Section Grammar.
(** The parser of a nested expression. *)
Variable nested : parser expr.

(** The arguments of a call after the first one is due, up to [)]. *)
Fixpoint parse_args (fuel : nat) : parser (list expr) :=
  fun ts =>
    match fuel with
    | O => None
    | S f =>
        match nested ts with
        | Some (a, TRParen :: r) => Some ([a], r)
        | Some (a, TComma :: r) =>
            match parse_args f r with
            | Some (l, r') => Some (a :: l, r')
            | None => None
            end
        | _ => None
        end
    end.

Definition parse_primary : parser expr :=
  fun ts =>
    match ts with
    | TNum x :: r => Some (ELit x, r)
    | TIdent name :: r => Some (EVar name, r)
    | TLParen :: r =>
        match nested r with
        | Some (e, TRParen :: r') => Some (e, r')
        | _ => None
        end
    | _ => None
    end.

(** Property accesses and calls after [e]. *)
Fixpoint parse_postfix (fuel : nat) (e : expr) : parser expr :=
  fun ts =>
    match fuel with
    | O => None
    | S f =>
        match ts with
        | TDot :: TIdent p :: r => parse_postfix f (EMember e p) r
        | TLParen :: TRParen :: r => parse_postfix f (ECall e []) r
        | TLParen :: r =>
            match parse_args (List.length r) r with
            | Some (args, r') => parse_postfix f (ECall e args) r'
            | None => None
            end
        | _ => Some (e, ts)
        end
    end.

Fixpoint parse_unary (fuel : nat) : parser expr :=
  fun ts =>
    match fuel with
    | O => None
    | S f =>
        match ts with
        | TMinus :: r =>
            match parse_unary f r with
            | Some (e, r') => Some (ENeg e, r')
            | None => None
            end
        | TPlus :: r =>
            match parse_unary f r with
            | Some (e, r') => Some (EPos e, r')
            | None => None
            end
        | _ =>
            match parse_primary ts with
            | Some (e, r) =>
                match parse_postfix (S (List.length r)) e r with
                | Some (EMember o p, TIncr :: r') => Some (EStep true o p, r')
                | Some (EMember o p, TDecr :: r') => Some (EStep false o p, r')
                | Some (_, TIncr :: _) | Some (_, TDecr :: _) => None
                | other => other
                end
            | None => None
            end
        end
    end.

Definition unary : parser expr :=
  fun ts => parse_unary (S (List.length ts)) ts.

Fixpoint parse_mul_tail (fuel : nat) (a : expr) : parser expr :=
  fun ts =>
    match fuel with
    | O => None
    | S f =>
        match ts with
        | TStar :: r =>
            match unary r with
            | Some (b, r') => parse_mul_tail f (EBin Mul a b) r'
            | None => None
            end
        | TSlash :: r =>
            match unary r with
            | Some (b, r') => parse_mul_tail f (EBin Div a b) r'
            | None => None
            end
        | _ => Some (a, ts)
        end
    end.

Definition multiplicative : parser expr :=
  fun ts =>
    match unary ts with
    | Some (a, r) => parse_mul_tail (S (List.length r)) a r
    | None => None
    end.

Fixpoint parse_add_tail (fuel : nat) (a : expr) : parser expr :=
  fun ts =>
    match fuel with
    | O => None
    | S f =>
        match ts with
        | TPlus :: r =>
            match multiplicative r with
            | Some (b, r') => parse_add_tail f (EBin Add a b) r'
            | None => None
            end
        | TMinus :: r =>
            match multiplicative r with
            | Some (b, r') => parse_add_tail f (EBin Sub a b) r'
            | None => None
            end
        | _ => Some (a, ts)
        end
    end.

Definition additive : parser expr :=
  fun ts =>
    match multiplicative ts with
    | Some (a, r) => parse_add_tail (S (List.length r)) a r
    | None => None
    end.
End Grammar.

Fixpoint parse_expr (depth : nat) : parser expr :=
  match depth with
  | O => fun _ => None
  | S d => additive (parse_expr d)
  end.

(** The expression that the whole of [ts] spells. *)
Definition parse (ts : list token) : option expr :=
  match parse_expr (S (List.length ts)) ts with
  | Some (e, []) => Some e
  | _ => None
  end.

(** The object [mathContext] in the heap: the properties that evaluated
    text has written, the last one first, over those of the object
    literal. *)
Definition context : Type := list (string * value).

Fixpoint written (name : string) (s : context) : option value :=
  match s with
  | [] => None
  | (p, v) :: r => if String.eqb name p then Some v else written name r
  end.

Definition property (s : context) (name : string) : option value :=
  match written name s with
  | Some v => Some v
  | None => mathContext.property name
  end.

Definition write (name : string) (v : value) (s : context) : context :=
  (name, v) :: s.

(** The realm: the context and the rest of it, which is the host's. *)
Record realm (R : Type) : Type := {
  heap : context;
  rest : R
}.
Arguments heap {R} _.
Arguments rest {R} _.

(** The realm when the module is loaded. *)
Definition start {R : Type} (r : R) : realm R :=
  {| heap := []; rest := r |}.

(** The host: its [Math], the properties its global object adds to those
    of ECMAScript, and what its engine does with text outside the fragment,
    each in a state of the realm. *)
Record Host (R : Type) : Type := {
  math : R -> HostMath;
  global : R -> string -> option value;
  beyond : realm R -> string -> completion value * realm R
}.
Arguments math {R} _ _.
Arguments global {R} _ _ _.
Arguments beyond {R} _ _ _.

Section Evaluation.
Variable R : Type.
Variable H : Host R.

(** A name in the body: the parameter [Math], else a property of the
    global object, else a [ReferenceError]. *)
Definition lookup (r : R) (name : string) : completion value :=
  if String.eqb name "Math" then Normal VContext
  else if String.eqb name "Infinity" then Normal (VNumber Num.Infinity)
  else if String.eqb name "NaN" then Normal (VNumber Num.NaN)
  else if String.eqb name "undefined" then Normal VUndefined
  else
    match global H r name with
    | Some v => Normal v
    | None => Throw (ErrorObject (name ++ " is not defined"))
    end.

Definition arith (op : binop) (x y : number) : number :=
  match op with
  | Add => Num.add x y
  | Sub => Num.sub x y
  | Mul => Num.mul x y
  | Div => Num.div x y
  end.

Fixpoint numbers (vs : list value) : option (list number) :=
  match vs with
  | [] => Some []
  | VNumber x :: r => option_map (cons x) (numbers r)
  | _ :: _ => None
  end.

Definition apply (r : R) (f : value) (args : list value)
  : option (completion value) :=
  match f, numbers args with
  | VFunction b, Some xs =>
      match mathContext.call (math H r) b xs with
      | Some (Normal y) => Some (Normal (VNumber y))
      | Some (Throw t) => Some (Throw t)
      | None => None
      end
  | _, _ => None
  end.

(** [x++] and [x--] on a number: the new value of [x].  (On a function of
    the context the old value is [NaN], the number of the text of its
    source.) *)
Definition step (up : bool) (x : number) : number :=
  arith (if up then Add else Sub) x (Num.of_Z 1).

(** Evaluation, left to right, on the context [s]; the first [throw] ends
    it and what was written before stays written.  [None]: the expression
    is outside the fragment. *)
Fixpoint eval (r : R) (e : expr) (s : context)
  : option (completion value * context) :=
  match e with
  | ELit x => Some (Normal (VNumber x), s)
  | EVar name => Some (lookup r name, s)
  | EMember o p =>
      match eval r o s with
      | Some (Normal VContext, s1) =>
          option_map (fun v => (Normal v, s1)) (property s1 p)
      | Some (Throw t, s1) => Some (Throw t, s1)
      | _ => None
      end
  | EStep up o p =>
      match eval r o s with
      | Some (Normal VContext, s1) =>
          match property s1 p with
          | Some (VNumber x) =>
              Some (Normal (VNumber x), write p (VNumber (step up x)) s1)
          | Some (VFunction _) =>
              Some (Normal (VNumber Num.NaN),
                    write p (VNumber (step up Num.NaN)) s1)
          | _ => None
          end
      | Some (Throw t, s1) => Some (Throw t, s1)
      | _ => None
      end
  | ECall f args =>
      match eval r f s with
      | Some (Normal fv, s1) =>
          let fix eval_args (l : list expr) (s : context)
            : option (completion (list value) * context) :=
            match l with
            | [] => Some (Normal [], s)
            | a :: l' =>
                match eval r a s with
                | Some (Normal v, s2) =>
                    match eval_args l' s2 with
                    | Some (Normal vs, s3) => Some (Normal (v :: vs), s3)
                    | other => other
                    end
                | Some (Throw t, s2) => Some (Throw t, s2)
                | None => None
                end
            end in
          match eval_args args s1 with
          | Some (Normal vs, s2) =>
              option_map (fun c => (c, s2)) (apply r fv vs)
          | Some (Throw t, s2) => Some (Throw t, s2)
          | None => None
          end
      | other => other
      end
  | ENeg a =>
      match eval r a s with
      | Some (Normal (VNumber x), s1) =>
          Some (Normal (VNumber (Num.neg x)), s1)
      | Some (Throw t, s1) => Some (Throw t, s1)
      | _ => None
      end
  | EPos a =>
      match eval r a s with
      | Some (Normal (VNumber x), s1) => Some (Normal (VNumber x), s1)
      | Some (Throw t, s1) => Some (Throw t, s1)
      | _ => None
      end
  | EBin op a b =>
      match eval r a s with
      | Some (Normal va, s1) =>
          match eval r b s1 with
          | Some (Normal vb, s2) =>
              match va, vb with
              | VNumber x, VNumber y =>
                  Some (Normal (VNumber (arith op x y)), s2)
              | _, _ => None
              end
          | other => other
          end
      | other => other
      end
  end.

(** The expression of the body [return <text>], inside the fragment. *)
Definition read (text : string) : option expr :=
  match lex (String.length text) text with
  | Some ts => parse ts
  | None => None
  end.

(** [new Function('Math', `return ${text}`)(mathContext)] in the realm [h]:
    what the call completes with, and the realm it leaves. *)
Definition run (h : realm R) (text : string)
  : completion value * realm R :=
  match read text with
  | Some e =>
      match eval (rest h) e (heap h) with
      | Some (c, s) => (c, {| heap := s; rest := rest h |})
      | None => beyond H h text
      end
  | None => beyond H h text
  end.
End Evaluation.

Arguments lookup {R} H r name.
Arguments apply {R} H r f args.
Arguments eval {R} H r e s.
Arguments run {R} H h text.

End Engine.

(** ** The result cache: a [Map<string, number>] in insertion order *)

Module Cache.

Definition t : Type := list (string * number).

Definition size (c : t) : nat := List.length c.

Definition keys (c : t) : list string := map fst c.

Definition has (key : string) (c : t) : bool :=
  existsb (fun kv => String.eqb key (fst kv)) c.

Fixpoint get (key : string) (c : t) : option number :=
  match c with
  | [] => None
  | (k, v) :: r => if String.eqb key k then Some v else get key r
  end.

Definition delete (key : string) (c : t) : t :=
  filter (fun kv => negb (String.eqb key (fst kv))) c.

(** [set] keeps the place of a key that is present and adds a new key
    last. *)
Fixpoint set (key : string) (v : number) (c : t) : t :=
  match c with
  | [] => [(key, v)]
  | (k, w) :: r =>
      if String.eqb key k then (k, v) :: r else (k, w) :: set key v r
  end.

(** [c.keys().next().value]. *)
Definition first_key (c : t) : option string :=
  match c with
  | [] => None
  | (k, _) :: _ => Some k
  end.

End Cache.

(** ** The evaluator *)

Inductive outcome : Type :=
| Returns (result : number)
| Fails (kind : CalculationError).

(** [\s], on code units below 256. *)
Definition is_space (c : ascii) : bool :=
  let n := nat_of_ascii c in
  (((9 <=? n) && (n <=? 13)) || (n =? 32) || (n =? 160))%nat.

(** [expression.replace(/\s+/g, '')]. *)
Fixpoint sanitize (expression : string) : string :=
  match expression with
  | EmptyString => EmptyString
  | String c r => if is_space c then sanitize r else String c (sanitize r)
  end.

(** The class [[0-9+\-*/().Math\w,[\]]]. *)
Definition allowed (c : ascii) : bool :=
  let n := nat_of_ascii c in
  (((48 <=? n) && (n <=? 57))
   || (n =? 43) || (n =? 45) || (n =? 42) || (n =? 47)
   || (n =? 40) || (n =? 41) || (n =? 46)
   || (n =? 77) || (n =? 97) || (n =? 116) || (n =? 104)
   || ((65 <=? n) && (n <=? 90)) || ((97 <=? n) && (n <=? 122)) || (n =? 95)
   || (n =? 44) || (n =? 91) || (n =? 93))%nat.

Fixpoint all_allowed (s : string) : bool :=
  match s with
  | EmptyString => true
  | String c r => allowed c && all_allowed r
  end.

(** [/^[0-9+\-*/().Math\w,[\]]+$/.test(sanitized)]. *)
Definition well_formed (sanitized : string) : bool :=
  match sanitized with
  | EmptyString => false
  | _ => all_allowed sanitized
  end.

Definition openCount (sanitized : string) : nat :=
  Text.count_char "(" sanitized.

Definition closeCount (sanitized : string) : nat :=
  Text.count_char ")" sanitized.

(** The [catch] clause: the kind of the [Error] thrown again. *)
Definition reclassify (error : thrown) : CalculationError :=
  match error with
  | ErrorObject msg =>
      if Text.includes msg "Domain" then DOMAIN
      else if Text.includes msg "Undefined" then UNDEFINED
      else if Text.includes msg "Overflow" then OVERFLOW
      else if Text.includes msg "Invalid" then INVALID
      else SYNTAX
  | NotAnError => UNKNOWN
  end.

Section Evaluator.
(** The host.  [run h sanitized] is the call of [new Function('Math',
    `return ${sanitized}`)] on [mathContext] in the realm [h]: what it
    completes with and the realm it leaves.  The realm is what the body can
    read and write: the heap with [mathContext] in it, the global object,
    the clock. *)
Context {realm : Type}.
Variable run : realm -> string -> completion value * realm.

(** The size check that opens [safeEvaluate]. *)
Definition evict (c : Cache.t) : Cache.t :=
  if (100 <? Cache.size c)%nat
  then match Cache.first_key c with
       | Some firstKey => Cache.delete firstKey c
       | None => c
       end
  else c.

(** The [try] block: the result with the cache after [set], or what is
    thrown; either way the realm is the one the body left. *)
Definition attempt (h : realm) (c : Cache.t) (expression sanitized : string)
  : completion (number * Cache.t) * realm :=
  let (completed, h') := run h sanitized in
  (match completed with
   | Normal (VNumber result) =>
       if negb (Num.isFinite result) then throw_error INVALID
       else Normal (result, Cache.set expression result c)
   | Normal _ => throw_error INVALID
   | Throw t => Throw t
   end, h').

(** [safeEvaluate(expression)] in the realm [h] with the cache [c]: what it
    returns or the kind of the error it throws, and the realm and the cache
    afterwards.  [get] answers both [resultCache.has(expression)] and the
    [get] that follows it. *)
Definition safeEvaluate (s : realm * Cache.t) (expression : string)
  : outcome * (realm * Cache.t) :=
  let (h, c) := s in
  let c := evict c in
  match Cache.get expression c with
  | Some v => (Returns v, (h, c))
  | None =>
      let sanitized := sanitize expression in
      if negb (well_formed sanitized) then (Fails INVALID, (h, c))
      else if negb (openCount sanitized =? closeCount sanitized)%nat
      then (Fails SYNTAX, (h, c))
      else
        match attempt h c expression sanitized with
        | (Normal (result, c'), h') => (Returns result, (h', c'))
        | (Throw error, h') => (Fails (reclassify error), (h', c))
        end
  end.

(** Calls in sequence; the realm and the cache are the module's. *)
Fixpoint evaluate_all (s : realm * Cache.t) (expressions : list string)
  : realm * Cache.t :=
  match expressions with
  | [] => s
  | e :: r => evaluate_all (snd (safeEvaluate s e)) r
  end.

(** The states that calls of [safeEvaluate] can reach from a realm in which
    the cache is empty, as it is when the module is loaded. *)
Inductive reachable : realm * Cache.t -> Prop :=
| reachable_empty (h : realm) : reachable (h, [])
| reachable_call (s : realm * Cache.t) (expression : string) :
    reachable s -> reachable (snd (safeEvaluate s expression)).

End Evaluator.

(** ** The formatter *)

(** [s.replace(/\.?0+$/, '')] on the characters of [s] in reverse: the run
    of zeros that ends [s], when there is one, goes, and so does a point
    right before it. *)
Fixpoint drop_zeros (rev_s : list ascii) : list ascii :=
  match rev_s with
  | "0"%char :: r => drop_zeros r
  | _ => rev_s
  end.

Definition strip_reversed (rev_s : list ascii) : list ascii :=
  match rev_s with
  | "0"%char :: _ =>
      match drop_zeros rev_s with
      | "."%char :: r => r
      | r => r
      end
  | _ => rev_s
  end.

Definition strip_zeros (s : string) : string :=
  string_of_list_ascii
    (rev (strip_reversed (rev (list_ascii_of_string s)))).

Section Formatter.
(** [num.toLocaleString(undefined, { maximumFractionDigits: 0 })], which
    follows the locale of the host. *)
Variable toLocaleString : number -> string.

Definition formatNumber (num : number) : string :=
  if Num.ltb (Num.abs num) (Num.of_decimal 1 (-10))
     && negb (Num.eqb num (Num.of_Z 0))
  then HostNumber.toExponential 4 num
  else if Num.gtb (Num.abs num) (Num.of_decimal 1 9)
  then HostNumber.toExponential 4 num
  else if Num.isInteger num
  then toLocaleString num
  else
    strip_zeros
      (HostNumber.toString
         (HostNumber.Number (HostNumber.toPrecision 12 num))).
End Formatter.

(** The locale [en-US] on a number: digits in groups of three, no fraction
    (a half rounds away from zero). *)
Module en_US.
Import Text.

(** The sign U+221E, as the three bytes of its UTF-8 form. *)
Definition infinity_sign : string :=
  String (ascii_of_nat 226) (String (ascii_of_nat 136)
    (String (ascii_of_nat 158) "")).

Fixpoint group (fuel : nat) (n : Z) : string :=
  match fuel with
  | O => decimal n
  | S f =>
      if (n <? 1000)%Z then decimal n
      else group f (n / 1000)%Z ++ "," ++ digits_fixed 3 (n mod 1000)%Z
  end.

Definition toLocaleString (x : number) : string :=
  match x with
  | S754_nan => "NaN"
  | S754_infinity s => sign_text s ++ infinity_sign
  | S754_zero s => sign_text s ++ "0"
  | S754_finite s m e =>
      let (p, q) := HostNumber.ratio m e in
      let n := ((2 * p + q) / (2 * q))%Z in
      sign_text s ++ group (Z.to_nat (Z.log2 n)) n
  end.
End en_US.

(** ** A host for closed examples

    A host whose engine knows no global beyond those of ECMAScript and
    rejects text outside the fragment with a syntax error; the realm has
    nothing but the context.  ECMAScript leaves the values of the
    transcendental functions to the implementation; this host answers [NaN]
    for each but the square root, which is the one of IEEE 754. *)

Definition sample_math : HostMath :=
  {| Math_sin := fun _ => Num.NaN;
     Math_cos := fun _ => Num.NaN;
     Math_tan := fun _ => Num.NaN;
     Math_asin := fun _ => Num.NaN;
     Math_acos := fun _ => Num.NaN;
     Math_atan := fun _ => Num.NaN;
     Math_log10 := fun _ => Num.NaN;
     Math_log := fun _ => Num.NaN;
     Math_sqrt := Num.sqrt;
     Math_pow := fun _ _ => Num.NaN |}.

Definition sample_host : Engine.Host unit :=
  {| Engine.math := fun _ => sample_math;
     Engine.global := fun _ _ => None;
     Engine.beyond :=
       fun h _ => (Throw (ErrorObject "Unexpected token"), h) |}.

(** The realm of the sample host when the module is loaded. *)
Definition loaded : Engine.realm unit := Engine.start tt.

(** A host that differs from the sample host in one global: its global
    object has the property [name], a number (as [length] is in a
    browser). *)
Definition host_with_global (name : string) (x : number)
  : Engine.Host unit :=
  {| Engine.math := fun _ => sample_math;
     Engine.global :=
       fun _ n => if String.eqb n name then Some (VNumber x) else None;
     Engine.beyond :=
       fun h _ => (Throw (ErrorObject "Unexpected token"), h) |}.

(** The numerals ["1"], ["2"], ..., [n]. *)
Definition numerals (n : nat) : list string :=
  map (fun i => Text.decimal (Z.of_nat i)) (seq 1 n).

Section Vocabulary.
Context {realm : Type}.
Variable run : realm -> string -> completion value * realm.

(** What the host answers for [sanitized] in the realm [h]. *)
Definition answer (h : realm) (sanitized : string) : completion value :=
  fst (run h sanitized).

(** [safeEvaluate] in the realm [h] when nothing is cached. *)
Definition fresh (h : realm) (expression : string) : outcome :=
  fst (safeEvaluate run (h, []) expression).

(** The outcome of the [try] block for what the body completes with. *)
Definition classify (completed : completion value) : outcome :=
  match completed with
  | Normal (VNumber x) => if Num.isFinite x then Returns x else Fails INVALID
  | Normal _ => Fails INVALID
  | Throw t => Fails (reclassify t)
  end.

(** The realm after a call that the cache did not answer: the host is
    invoked when both checks have passed. *)
Definition after (h : realm) (expression : string) : realm :=
  if well_formed (sanitize expression)
     && (openCount (sanitize expression)
         =? closeCount (sanitize expression))%nat
  then snd (run h (sanitize expression))
  else h.

(** What the cache may hold for [expression]: a finite number that its
    evaluation gave, in some state of the realm, after the two checks. *)
Definition computed (expression : string) (v : number) : Prop :=
  well_formed (sanitize expression) = true
  /\ openCount (sanitize expression) = closeCount (sanitize expression)
  /\ (exists h, answer h (sanitize expression) = Normal (VNumber v))
  /\ Num.isFinite v = true.

(** The invariant of the cache. *)
Record cache_ok (c : Cache.t) : Prop := {
  ok_keys : NoDup (Cache.keys c);
  ok_size : (Cache.size c <= 101)%nat;
  ok_entries : forall k v, In (k, v) c -> computed k v
}.

(** A host whose answer for [sanitized] is the same in every state of the
    realm: evaluating the text reads nothing that evaluated text, or time,
    changes. *)
Definition stateless (sanitized : string) : Prop :=
  forall h h', answer h sanitized = answer h' sanitized.

(** Calls in sequence that each return a number. *)
Fixpoint all_return (s : realm * Cache.t) (expressions : list string)
  : bool :=
  match expressions with
  | [] => true
  | e :: r =>
      match safeEvaluate run s e with
      | (Returns _, s') => all_return s' r
      | (Fails _, _) => false
      end
  end.

End Vocabulary.

(** ** Vocabulary of the properties *)

(** [typeof result === 'number' && isFinite(result)]. *)
Definition finite_number (v : value) : bool :=
  match v with
  | VNumber x => Num.isFinite x
  | _ => false
  end.

(** A list of strings without repetition. *)
Fixpoint distinct (l : list string) : bool :=
  match l with
  | [] => true
  | x :: r => negb (existsb (String.eqb x) r) && distinct r
  end.

(** [0 < |n| < 1e-10] and [|n| > 1e9]. *)
Definition tiny (n : number) : bool :=
  Num.ltb (Num.of_Z 0) (Num.abs n)
  && Num.ltb (Num.abs n) (Num.of_decimal 1 (-10)).

Definition huge (n : number) : bool :=
  Num.gtb (Num.abs n) (Num.of_decimal 1 9).

Fixpoint all_digits (s : string) : bool :=
  match s with
  | EmptyString => true
  | String c r => HostNumber.is_digit c && all_digits r
  end.

(** Text of the form [-?d.dddde[+-]d+]. *)
Definition unsigned (s : string) : string :=
  match s with
  | String c r => if Ascii.eqb c "-" then r else s
  | EmptyString => s
  end.

Definition exponential4 (s : string) : bool :=
  match unsigned s with
  | String d0 (String p (String d1 (String d2 (String d3 (String d4
      (String x (String sg (String x0 r)))))))) =>
      HostNumber.is_digit d0 && Ascii.eqb p "."
      && HostNumber.is_digit d1 && HostNumber.is_digit d2
      && HostNumber.is_digit d3 && HostNumber.is_digit d4
      && Ascii.eqb x "e"
      && (Ascii.eqb sg "+" || Ascii.eqb sg "-")
      && all_digits (String x0 r)
  | _ => false
  end.

(** Text without a point. *)
Definition no_point (s : string) : Prop := Text.count_char "." s = 0%nat.

(** ** The host's [parseFloat] *)

Module HostGlobal.
Import HostNumber.

(** Leading white space goes. *)
Fixpoint trim_left (s : string) : string :=
  match s with
  | String c r => if is_space c then trim_left r else s
  | EmptyString => s
  end.

(** The longest unsigned decimal literal that starts [s]: mantissa and power
    of ten.  An exponent counts only with a digit. *)
Definition read_prefix (s : string) : option (Z * Z) :=
  let '(i, ni, r1) := read_digits s 0%Z 0%Z in
  let '(m, nf, r2) :=
    match r1 with
    | String "." r => read_digits r i 0%Z
    | _ => (i, 0%Z, r1)
    end in
  if (ni + nf =? 0)%Z then None
  else
    match r2 with
    | String c r =>
        if (Ascii.eqb c "e" || Ascii.eqb c "E")%bool
        then
          let (sg, r3) := read_sign r in
          let '(x, nx, _) := read_digits r3 0%Z 0%Z in
          if (nx =? 0)%Z then Some (m, (- nf)%Z)
          else Some (m, ((if sg then - x else x) - nf)%Z)
        else Some (m, (- nf)%Z)
    | EmptyString => Some (m, (- nf)%Z)
    end.

(** [parseFloat(s)]. *)
Definition parseFloat (s : string) : number :=
  let (sg, r) := read_sign (trim_left s) in
  let signed (x : number) := if sg then Num.neg x else x in
  if String.prefix "Infinity" r then signed Num.Infinity
  else
    match read_prefix r with
    | Some (m, e) => signed (Num.of_decimal m e)
    | None => Num.NaN
    end.

End HostGlobal.

(** ** The component of [src/App.tsx]

    The state of [App] that the handlers read and set, [display] and
    [equation]; the handlers as functions on it (the ones that evaluate thread
    the realm and the component's own [resultCache]); the component's copy of
    [safeEvaluate], with the message of the [Error] it throws.  What the
    handlers do to the document (the shake of the display, the pressed
    buttons) is left out. *)

Module App.

Record state : Type := {
  display : string;
  equation : string
}.

(** [useState('0')] and [useState('')]. *)
Definition initial : state := {| display := "0"; equation := "" |}.

(** What a call of the component's [safeEvaluate] gives: a number, or the
    message of the [Error] thrown. *)
Inductive answer : Type :=
| Result (x : number)
| Raised (msg : string).

(** The [catch] clause of the component's copy. *)
Definition rethrown (error : thrown) : string :=
  match error with
  | ErrorObject msg =>
      if Text.includes msg "Domain" then message DOMAIN
      else if Text.includes msg "Undefined" then message UNDEFINED
      else if Text.includes msg "Overflow" then message OVERFLOW
      else if Text.includes msg "Invalid" then "Math Error"
      else message SYNTAX
  | NotAnError => message UNKNOWN
  end.

(** [error instanceof Error ? error.message : fallback]. *)
Definition message_or (fallback : string) (error : thrown) : string :=
  match error with
  | ErrorObject msg => msg
  | NotAnError => fallback
  end.

(** [s.slice(0, -1)]. *)
Definition drop_last (s : string) : string :=
  Text.take (String.length s - 1) s.

(** [getFontSize(length)]. *)
Definition getFontSize (length : nat) : string :=
  if (15 <? length)%nat then "text-lg"
  else if (10 <? length)%nat then "text-2xl"
  else "text-3xl".

(** [handleNumber(num)]. *)
Definition handleNumber (st : state) (num : string) : state :=
  if (16 <=? String.length (display st))%nat then st
  else if String.eqb num "." && Text.includes (display st) "." then st
  else if String.eqb (display st) "0" && negb (String.eqb num ".")
  then {| display := num; equation := equation st |}
  else {| display := display st ++ num; equation := equation st |}.

(** [handleBackspace()]. *)
Definition handleBackspace (st : state) : state :=
  if String.eqb (display st) "Error"
  then {| display := "0"; equation := "" |}
  else if (String.length (display st) =? 1)%nat
  then {| display := "0"; equation := equation st |}
  else {| display := drop_last (display st); equation := equation st |}.

(** [clear()]. *)
Definition clear (st : state) : state :=
  {| display := "0"; equation := "" |}.

Section Component.
(** The host on a function body in a state of the realm, the locale, the
    host's [Math]. *)
Context {realm : Type}.
Variable run : realm -> string -> completion value * realm.
Variable toLocaleString : number -> string.
Variable M : HostMath.

(** The component's copy of [safeEvaluate]. *)
Definition safeEvaluate (s : realm * Cache.t) (expression : string)
  : answer * (realm * Cache.t) :=
  let (h, c) := s in
  let c := evict c in
  match Cache.get expression c with
  | Some v => (Result v, (h, c))
  | None =>
      let sanitized := sanitize expression in
      if negb (well_formed sanitized) then (Raised (message INVALID), (h, c))
      else if negb (openCount sanitized =? closeCount sanitized)%nat
      then (Raised (message SYNTAX), (h, c))
      else
        match attempt run h c expression sanitized with
        | (Normal (result, c'), h') => (Result result, (h', c'))
        | (Throw error, h') => (Raised (rethrown error), (h', c))
        end
  end.

(** The [switch] of [handleOperator] on a function key, with the functions
    that the object literal gives [mathContext]. *)
Definition scientific (op : string) (currentValue : number)
  : completion number :=
  if String.eqb op "Math.log10(" || String.eqb op "Math.log("
  then mathContext.log M currentValue
  else if String.eqb op "Math.ln(" then mathContext.ln M currentValue
  else if String.eqb op "Math.sin(" then mathContext.sin M currentValue
  else if String.eqb op "Math.cos(" then mathContext.cos M currentValue
  else if String.eqb op "Math.tan(" then mathContext.tan M currentValue
  else if String.eqb op "Math.sqrt(" then mathContext.sqrt M currentValue
  else if String.eqb op "Math.pow("
  then mathContext.pow M currentValue (Num.of_Z 2)
  else Throw (ErrorObject "Invalid function").

(** [handleOperator(op)]. *)
Definition handleOperator (s : realm * Cache.t) (st : state) (op : string)
  : (realm * Cache.t) * state :=
  if String.eqb (display st) "Error" then (s, st)
  else if String.eqb op "Math.PI" || String.eqb op "Math.E"
  then
    let value := if String.eqb op "Math.PI" then Num.PI else Num.E in
    (s, {| display := formatNumber toLocaleString value;
           equation := equation st |})
  else if String.prefix "Math." op
  then
    let currentValue := HostGlobal.parseFloat (display st) in
    match scientific op currentValue with
    | Normal result =>
        (s, {| display := formatNumber toLocaleString result;
               equation := "" |})
    | Throw error =>
        (s, {| display := message_or "Error" error; equation := "" |})
    end
  else if String.eqb op "(" || String.eqb op ")"
  then
    let newEquation :=
      (if negb (String.eqb (display st) "0")
          && negb (String.eqb (display st) "Error")
       then equation st ++ display st
       else equation st) ++ op in
    let openCount := Text.count_char "(" newEquation in
    let closeCount := Text.count_char ")" newEquation in
    if String.eqb op ")" && (openCount <? closeCount)%nat
    then (s, {| display := "Syntax Error"; equation := equation st |})
    else (s, {| display := "0"; equation := newEquation |})
  else if negb (String.eqb (equation st) "")
          && negb (String.eqb (display st) "0")
  then
    match safeEvaluate s (equation st ++ display st) with
    | (Result result, s') =>
        (s', {| display := "0";
                equation :=
                  formatNumber toLocaleString result ++ " " ++ op ++ " " |})
    | (Raised msg, s') => (s', {| display := msg; equation := "" |})
    end
  else
    (s, {| display := "0";
           equation :=
             (if String.eqb (display st) "0" then "0" else display st)
             ++ " " ++ op ++ " " |}).

(** [calculate()]. *)
Definition calculate (s : realm * Cache.t) (st : state)
  : (realm * Cache.t) * state :=
  if String.eqb (equation st) "" || String.eqb (display st) "Error"
  then (s, {| display := "0"; equation := "" |})
  else
    match safeEvaluate s (equation st ++ display st) with
    | (Result result, s') =>
        if negb (Num.isFinite result)
        then (s', {| display := "Math Error"; equation := "" |})
        else (s', {| display := formatNumber toLocaleString result;
                     equation := "" |})
    | (Raised msg, s') => (s', {| display := msg; equation := "" |})
    end.

End Component.

(** The keys of the pad that [handleNumber] gets: a digit or the point. *)
Definition pad_key (num : string) : bool :=
  match num with
  | String c EmptyString => HostNumber.is_digit c || Ascii.eqb c "."
  | _ => false
  end.

(** A display that the pad can build: 1 to 16 characters, one point at
    most. *)
Definition entry (d : string) : Prop :=
  (1 <= String.length d <= 16)%nat /\ (Text.count_char "." d <= 1)%nat.

(** The messages the component's [safeEvaluate] throws. *)
Definition messages : list string :=
  [ message DOMAIN; message UNDEFINED; message SYNTAX; message OVERFLOW;
    message INVALID; message UNKNOWN; "Math Error" ].

(** The answer of the component's copy for an outcome of the module's
    function; [checked] says that the text passed the character check. *)
Definition answer_of (checked : bool) (o : outcome) : answer :=
  match o with
  | Returns v => Result v
  | Fails INVALID =>
      Raised (if checked then "Math Error" else message INVALID)
  | Fails k => Raised (message k)
  end.

End App.

(** ** More vocabulary *)

Fixpoint all_chars (p : ascii -> bool) (s : string) : bool :=
  match s with
  | EmptyString => true
  | String c r => p c && all_chars p r
  end.

Fixpoint any_char (p : ascii -> bool) (s : string) : bool :=
  match s with
  | EmptyString => false
  | String c r => p c || any_char p r
  end.

(** Structural equality of numbers. *)
Definition same_number (x y : number) : bool :=
  match x, y with
  | S754_zero a, S754_zero b => Bool.eqb a b
  | S754_infinity a, S754_infinity b => Bool.eqb a b
  | S754_nan, S754_nan => true
  | S754_finite a m e, S754_finite b n f =>
      Bool.eqb a b && Pos.eqb m n && Z.eqb e f
  | _, _ => false
  end.

(** The integers from [lo], [n] of them. *)
Definition integers (lo : Z) (n : nat) : list Z :=
  map (fun i => (lo + Z.of_nat i)%Z) (seq 0 n).

(** What [cos] gives for a whole number of degrees [j] in [0, 360), apart
    from the call of the host. *)
Definition cos_exact (j : Z) : option number :=
  if (j =? 0)%Z then Some (Num.of_Z 1)
  else if ((j =? 90) || (j =? 270))%Z then Some (Num.of_Z 0)
  else if (j =? 180)%Z then Some (Num.of_Z (-1))
  else if ((j =? 60) || (j =? 300))%Z then Some (Num.of_decimal 5 (-1))
  else if ((j =? 120) || (j =? 240))%Z then Some (Num.of_decimal (-5) (-1))
  else None.

(** What the pad and the keyboard do to the display: a digit or the point,
    the backspace, the clear key. *)
Inductive edit : Type :=
| Key (num : string)
| Backspace
| Clear.

Definition well_keyed (ev : edit) : bool :=
  match ev with
  | Key num => App.pad_key num
  | Backspace | Clear => true
  end.

Definition handle (st : App.state) (ev : edit) : App.state :=
  match ev with
  | Key num => App.handleNumber st num
  | Backspace => App.handleBackspace st
  | Clear => App.clear st
  end.

(** The text that a failed evaluation leaves on the display. *)
Definition shown (tl : number -> string) (a : App.answer) : string :=
  match a with
  | App.Result v => formatNumber tl v
  | App.Raised msg => msg
  end.

(** Whether the text ends with the character [0]. *)
Definition ends_with_zero (s : string) : bool :=
  match rev (list_ascii_of_string s) with
  | "0"%char :: _ => true
  | _ => false
  end.

(** The angles that [cos] and [tan] compare with. *)
Definition angles : list Z :=
  [0; 45; 60; 90; 120; 135; 180; 225; 240; 270; 300; 315; 360]%Z.

(** The tests of [cos] and [tan] on [j] degrees agree with the comparison of
    integers. *)
Definition angle_tests_agree (j : Z) : bool :=
  forallb
    (fun z => Bool.eqb (mathContext.at_angle (Num.of_Z j) z) (j =? z)%Z)
    angles
  && Bool.eqb (mathContext.near (Num.of_Z j) 90) (j =? 90)%Z
  && Bool.eqb (mathContext.near (Num.of_Z j) 270) (j =? 270)%Z.

(** A text that has [w] somewhere in it. *)
Definition contains (s w : string) : Prop :=
  exists a b, s = a ++ w ++ b.

(** A name that a function body can use as a variable. *)
Definition identifier (name : string) : bool :=
  match name with
  | String c r =>
      Engine.is_ident_start c && all_chars Engine.is_ident_part r
      && negb (Engine.is_reserved name)
  | EmptyString => false
  end.

(** The names that every body binds: its parameter and the three value
    properties of the global object of ECMAScript. *)
Definition always_bound (name : string) : bool :=
  existsb (String.eqb name) ["Math"; "Infinity"; "NaN"; "undefined"].

(** The words that the [catch] clause looks for. *)
Definition words : list string :=
  ["Domain"; "Undefined"; "Overflow"; "Invalid"].

(** Whether the text ends with a point. *)
Definition ends_with_point (s : string) : bool :=
  match rev (list_ascii_of_string s) with
  | "."%char :: _ => true
  | _ => false
  end.

(** The property [name] of the context is the one the object literal gave
    it. *)
Definition untouched {R : Type} (h : Engine.realm R) (name : string)
  : Prop :=
  Engine.property (Engine.heap h) name = mathContext.property name.

(** * Properties *)

Local Open Scope list_scope.

(** ** The cache as a map *)

Lemma get_none_iff (key : string) (c : Cache.t) :
  Cache.get key c = None <-> ~ In key (Cache.keys c).
Proof.
  induction c as [|[k v] r IH]; simpl.
  - tauto.
  - destruct (String.eqb_spec key k) as [->|Hne].
    + split; [discriminate | intros H; exfalso; apply H; now left].
    + rewrite IH. split; intros H; [intros [E|E]; [congruence | tauto] | tauto].
Qed.

(** [has] is true exactly when [get] finds a value. *)
Lemma has_get (key : string) (c : Cache.t) :
  Cache.has key c = true <-> exists v, Cache.get key c = Some v.
Proof.
  unfold Cache.has. induction c as [|[k v] r IH]; cbn.
  - split; [discriminate | intros [v Hv]; discriminate].
  - destruct (String.eqb key k); cbn; [split; eauto | exact IH].
Qed.

Lemma get_some_in (key : string) (v : number) (c : Cache.t) :
  Cache.get key c = Some v -> In (key, v) c.
Proof.
  induction c as [|[k w] r IH]; simpl; [discriminate|].
  destruct (String.eqb_spec key k) as [->|Hne].
  - intros [= ->]. now left.
  - intros H. right. now apply IH.
Qed.

Lemma set_absent (key : string) (v : number) (c : Cache.t) :
  Cache.get key c = None -> Cache.set key v c = c ++ [(key, v)].
Proof.
  induction c as [|[k w] r IH]; simpl; [reflexivity|].
  destruct (String.eqb key k); [discriminate|].
  intros H. now rewrite IH.
Qed.

Lemma delete_absent (key : string) (c : Cache.t) :
  ~ In key (Cache.keys c) -> Cache.delete key c = c.
Proof.
  induction c as [|[k w] r IH]; simpl; [reflexivity|].
  intros H. destruct (String.eqb_spec key k) as [->|Hne]; simpl.
  - exfalso. apply H. now left.
  - f_equal. apply IH. tauto.
Qed.

(** Deleting the first key of a map takes its first entry away. *)
Lemma delete_first (k : string) (v : number) (r : Cache.t) :
  NoDup (Cache.keys ((k, v) :: r)) -> Cache.delete k ((k, v) :: r) = r.
Proof.
  simpl. intros H. inversion H as [|? ? Hnotin Hnd]; subst.
  rewrite String.eqb_refl. simpl. now apply delete_absent.
Qed.

Lemma evict_small (c : Cache.t) :
  (Cache.size c <= 100)%nat -> evict c = c.
Proof.
  intros H. unfold evict.
  destruct (Nat.ltb_spec 100 (Cache.size c)); [lia | reflexivity].
Qed.

Lemma evict_full (k : string) (v : number) (r : Cache.t) :
  NoDup (Cache.keys ((k, v) :: r)) ->
  (100 < Cache.size ((k, v) :: r))%nat ->
  evict ((k, v) :: r) = r.
Proof.
  intros Hnd H. unfold evict.
  destruct (Nat.ltb_spec 100 (Cache.size ((k, v) :: r))); [|lia].
  cbn [Cache.first_key]. now apply delete_first.
Qed.

(** [evict] gives the cache or its tail. *)
Lemma evict_cases (c : Cache.t) :
  NoDup (Cache.keys c) ->
  ((Cache.size c <= 100)%nat /\ evict c = c)
  \/ ((100 < Cache.size c)%nat /\ evict c = tl c).
Proof.
  intros Hnd. destruct (Nat.le_gt_cases (Cache.size c) 100) as [H|H].
  - left. split; [exact H | now apply evict_small].
  - right. split; [exact H|].
    destruct c as [|[k v] r]; [simpl in H; lia|].
    now apply evict_full.
Qed.

(** ** Texts *)

Lemma string_app_assoc (a b c : string) :
  ((a ++ b) ++ c = a ++ (b ++ c))%string.
Proof.
  induction a as [|d a IH]; cbn; [reflexivity|]. now rewrite IH.
Qed.

Lemma string_length_app (a b : string) :
  String.length (a ++ b)%string = (String.length a + String.length b)%nat.
Proof.
  induction a as [|d a IH]; cbn; [reflexivity|]. now rewrite IH.
Qed.

Lemma string_app_empty (a : string) : (a ++ "")%string = a.
Proof.
  induction a as [|d a IH]; cbn; [reflexivity|]. now rewrite IH.
Qed.

Lemma count_char_app (c : ascii) (a b : string) :
  Text.count_char c (a ++ b)%string
  = (Text.count_char c a + Text.count_char c b)%nat.
Proof.
  induction a as [|d a IH]; cbn [append Text.count_char]; [reflexivity|].
  rewrite IH. lia.
Qed.

Lemma prefix_spec (w s : string) :
  String.prefix w s = true <-> exists b, s = (w ++ b)%string.
Proof.
  revert s. induction w as [|c w IH]; intros s.
  - split; [intros _; now exists s | intros _; now destruct s].
  - destruct s as [|d s]; simpl.
    + split; [discriminate | intros [b Hb]; discriminate].
    + destruct (ascii_dec c d) as [->|Hne].
      * rewrite IH. split; intros [b Hb]; exists b; congruence.
      * split; [discriminate | intros [b Hb]; congruence].
Qed.

(** [includes] finds exactly the texts that are somewhere in [s]. *)
Lemma includes_spec (s w : string) :
  Text.includes s w = true <-> contains s w.
Proof.
  unfold contains. induction s as [|c s IH]; cbn [Text.includes].
  - destruct (String.prefix w "") eqn:Hp.
    + split; [intros _|reflexivity].
      apply prefix_spec in Hp. destruct Hp as [b Hb]. now exists "", b.
    + split; [discriminate|]. intros (a & b & Hab).
      assert (String.prefix w "" = true); [|congruence].
      apply prefix_spec. destruct a; [|discriminate].
      destruct w; [now exists ""|discriminate].
  - destruct (String.prefix w (String c s)) eqn:Hp.
    + split; [intros _|reflexivity].
      apply prefix_spec in Hp. destruct Hp as [b Hb]. now exists "", b.
    + rewrite IH. split.
      * intros (a & b & ->). now exists (String c a), b.
      * intros (a & b & Hab). destruct a as [|d a].
        -- assert (String.prefix w (String c s) = true); [|congruence].
           apply prefix_spec. now exists b.
        -- injection Hab as _ ->. now exists a, b.
Qed.

Lemma includes_false (s w : string) :
  Text.includes s w = false <-> ~ contains s w.
Proof.
  rewrite <- includes_spec. now destruct (Text.includes s w).
Qed.

Lemma prefix_empty (s : string) : String.prefix "" s = true.
Proof.
  now destruct s.
Qed.

(** A word without the character [c] does not reach into what follows
    [a] when that starts with [c]. *)
Lemma prefix_app_other (c : ascii) (w a b : string) :
  Text.count_char c w = 0%nat ->
  String.prefix w (a ++ String c b) = String.prefix w a.
Proof.
  revert a. induction w as [|d w IH]; intros a Hc;
    [now rewrite !prefix_empty|].
  cbn in Hc. destruct (Ascii.eqb_spec c d) as [->|Hne]; [discriminate|].
  destruct a as [|x a]; simpl.
  - destruct (ascii_dec d c) as [->|_]; [contradiction | reflexivity].
  - destruct (ascii_dec d x); [now apply IH | reflexivity].
Qed.

Lemma includes_app_other (c : ascii) (w a b : string) :
  Text.count_char c w = 0%nat ->
  Text.includes (a ++ String c b) w
  = Text.includes a w || Text.includes (String c b) w.
Proof.
  intros Hc. induction a as [|x a IH].
  - cbn [append]. destruct w as [|d w]; [now destruct b|]. reflexivity.
  - change (String x a ++ String c b)%string
      with (String x (a ++ String c b)).
    cbn [Text.includes].
    change (String x (a ++ String c b))
      with (String x a ++ String c b)%string.
    rewrite (prefix_app_other c w (String x a) b Hc), IH.
    now destruct (String.prefix w (String x a)).
Qed.

(** The message of the [ReferenceError] for a name has the words that the
    name has. *)
Lemma reclassify_not_defined (name : string) :
  reclassify (ErrorObject (name ++ " is not defined"))
  = reclassify (ErrorObject name).
Proof.
  cbn [reclassify].
  rewrite !(includes_app_other " " _ name "is not defined") by reflexivity.
  change (Text.includes " is not defined" "Domain") with false.
  change (Text.includes " is not defined" "Undefined") with false.
  change (Text.includes " is not defined" "Overflow") with false.
  change (Text.includes " is not defined" "Invalid") with false.
  now rewrite !orb_false_r.
Qed.

(** ** The evaluator on a hit and on a miss *)

Section EvaluatorFacts.
Context {realm : Type}.
Variable run : realm -> string -> completion value * realm.

(** A hit returns the stored number and leaves the realm as it is: the host
    is not called. *)
Lemma safeEvaluate_hit (h : realm) (c : Cache.t) (e : string) (v : number) :
  Cache.get e (evict c) = Some v ->
  safeEvaluate run (h, c) e = (Returns v, (h, evict c)).
Proof.
  intros H. unfold safeEvaluate. now rewrite H.
Qed.

(** The outcome with nothing cached, from what the host answers. *)
Lemma fresh_run (h : realm) (e : string) :
  well_formed (sanitize e) = true ->
  openCount (sanitize e) = closeCount (sanitize e) ->
  fresh run h e = classify (answer run h (sanitize e)).
Proof.
  intros Hwf Hb. unfold fresh, safeEvaluate, answer.
  change (evict []) with (@nil (string * number)). cbn [Cache.get].
  rewrite Hwf, Hb, Nat.eqb_refl. cbn [negb]. unfold attempt, throw_error.
  destruct (run h (sanitize e)) as [[[x| | | |]|t] h']; try reflexivity.
  cbn [fst classify]. destruct (Num.isFinite x); reflexivity.
Qed.

Lemma fresh_unbalanced (h : realm) (e : string) :
  well_formed (sanitize e) = true ->
  openCount (sanitize e) <> closeCount (sanitize e) ->
  fresh run h e = Fails SYNTAX.
Proof.
  intros Hwf Hne. unfold fresh, safeEvaluate.
  change (evict []) with (@nil (string * number)). cbn [Cache.get].
  rewrite Hwf. cbn [negb].
  destruct (Nat.eqb_spec (openCount (sanitize e)) (closeCount (sanitize e)));
    [contradiction | reflexivity].
Qed.

Lemma fresh_ill_formed (h : realm) (e : string) :
  well_formed (sanitize e) = false -> fresh run h e = Fails INVALID.
Proof.
  intros Hwf. unfold fresh, safeEvaluate.
  change (evict []) with (@nil (string * number)). cbn [Cache.get].
  now rewrite Hwf.
Qed.

(** On a miss the outcome is that of the evaluation in the same realm with
    nothing cached, and only a returned number is stored. *)
Lemma safeEvaluate_miss (h : realm) (c : Cache.t) (e : string) :
  Cache.get e (evict c) = None ->
  safeEvaluate run (h, c) e =
    (fresh run h e,
     (after run h e,
      match fresh run h e with
      | Returns v => Cache.set e v (evict c)
      | Fails _ => evict c
      end)).
Proof.
  intros H. unfold fresh, after, safeEvaluate. rewrite H.
  change (evict []) with (@nil (string * number)). cbn [Cache.get].
  destruct (well_formed (sanitize e)); [|reflexivity].
  destruct (openCount (sanitize e) =? closeCount (sanitize e))%nat;
    [|reflexivity].
  cbn [negb andb]. unfold attempt, throw_error.
  destruct (run h (sanitize e)) as [[[x| | | |]|t] h']; try reflexivity.
  destruct (Num.isFinite x); reflexivity.
Qed.

Lemma fresh_returns (h : realm) (e : string) (v : number) :
  fresh run h e = Returns v <->
  well_formed (sanitize e) = true
  /\ openCount (sanitize e) = closeCount (sanitize e)
  /\ answer run h (sanitize e) = Normal (VNumber v)
  /\ Num.isFinite v = true.
Proof.
  destruct (well_formed (sanitize e)) eqn:Hwf;
    [|rewrite (fresh_ill_formed h e Hwf);
      split; [discriminate | intros [? _]; discriminate]].
  destruct (Nat.eq_dec (openCount (sanitize e)) (closeCount (sanitize e)))
    as [Hb|Hb];
    [|rewrite (fresh_unbalanced h e Hwf Hb);
      split; [discriminate | intros (_ & ? & _); contradiction]].
  rewrite (fresh_run h e Hwf Hb).
  destruct (answer run h (sanitize e)) as [[x| | | |]|t]; cbn;
    try (split; [discriminate | intros (_ & _ & ? & _); discriminate]).
  destruct (Num.isFinite x) eqn:Hx.
  - split.
    + intros [= ->]. auto.
    + intros (_ & _ & [= ->] & _). reflexivity.
  - split; [discriminate|].
    intros (_ & _ & [= ->] & Hf). congruence.
Qed.

Lemma fresh_computed (h : realm) (e : string) (v : number) :
  fresh run h e = Returns v -> computed run e v.
Proof.
  intros Hf. apply fresh_returns in Hf.
  destruct Hf as (Hwf & Hb & Ha & Hfin).
  repeat split; try assumption. now exists h.
Qed.

Lemma evict_ok (c : Cache.t) :
  cache_ok run c ->
  NoDup (Cache.keys (evict c))
  /\ (Cache.size (evict c) <= 100)%nat
  /\ incl (evict c) c.
Proof.
  intros [Hnd Hsz Hen].
  destruct (evict_cases c Hnd) as [[Hle ->]|[Hgt ->]].
  - repeat split; auto using incl_refl.
  - destruct c as [|[k v] r]; [simpl in Hgt; lia|].
    cbn [tl]. unfold Cache.size in *. simpl in Hnd, Hsz.
    inversion Hnd; subst.
    repeat split; [assumption | lia |].
    intros x Hx. now right.
Qed.

Lemma safeEvaluate_ok (h : realm) (c : Cache.t) (e : string) :
  cache_ok run c -> cache_ok run (snd (snd (safeEvaluate run (h, c) e))).
Proof.
  intros Hok. destruct (evict_ok c Hok) as (Hnd & Hsz & Hin).
  assert (Hev : cache_ok run (evict c)).
  { split; [assumption | lia |].
    intros k v Hkv. apply (ok_entries run c Hok). now apply Hin. }
  destruct (Cache.get e (evict c)) as [v|] eqn:Hget.
  - now rewrite (safeEvaluate_hit h c e v Hget).
  - rewrite (safeEvaluate_miss h c e Hget). cbn [snd].
    destruct (fresh run h e) as [v|k] eqn:Hf; [|exact Hev].
    rewrite (set_absent e v _ Hget).
    apply fresh_computed in Hf. apply get_none_iff in Hget. split.
    + unfold Cache.keys. rewrite map_app. cbn [map fst].
      apply NoDup_app.
      * exact Hnd.
      * constructor; [intros [] | constructor].
      * intros x Hx [<-|[]]. contradiction.
    + unfold Cache.size in *. rewrite length_app. simpl. lia.
    + intros k w Hkw. apply in_app_or in Hkw. destruct Hkw as [Hkw|[Hkw|[]]].
      * apply (ok_entries run c Hok). now apply Hin.
      * now inversion Hkw; subst.
Qed.

Lemma reachable_ok (s : realm * Cache.t) :
  reachable run s -> cache_ok run (snd s).
Proof.
  induction 1 as [h|[h c] e _ IH].
  - split; [constructor | simpl; lia | intros k v []].
  - now apply safeEvaluate_ok.
Qed.

(** An expression whose evaluation never gives a finite number is not
    cached. *)
Lemma not_cached (c : Cache.t) (e : string) :
  cache_ok run c ->
  (forall v, ~ computed run e v) ->
  Cache.get e (evict c) = None.
Proof.
  intros Hok Hno. destruct (evict_ok c Hok) as (_ & _ & Hin).
  destruct (Cache.get e (evict c)) as [v|] eqn:Hget; [|reflexivity].
  exfalso. apply (Hno v). apply (ok_entries run c Hok).
  apply Hin. now apply get_some_in.
Qed.

(** A text that fails one of the two checks has no entry. *)
Lemma unchecked_not_cached (c : Cache.t) (e : string) :
  cache_ok run c ->
  well_formed (sanitize e)
  && (openCount (sanitize e) =? closeCount (sanitize e))%nat = false ->
  Cache.get e (evict c) = None.
Proof.
  intros Hok Hchk. apply not_cached; [exact Hok|].
  intros v (Hwf & Hb & _). rewrite Hwf, Hb, Nat.eqb_refl in Hchk.
  discriminate.
Qed.

(** A failure: the cache did not answer, nothing is stored, and the realm
    is the one the evaluation left. *)
Lemma call_fails (h h' : realm) (c c' : Cache.t) (e : string)
  (k : CalculationError) :
  safeEvaluate run (h, c) e = (Fails k, (h', c')) ->
  c' = evict c /\ Cache.get e c' = None /\ fresh run h e = Fails k
  /\ h' = after run h e.
Proof.
  intros H.
  destruct (Cache.get e (evict c)) as [w|] eqn:Hget.
  - rewrite (safeEvaluate_hit h c e w Hget) in H. discriminate.
  - rewrite (safeEvaluate_miss h c e Hget) in H.
    destruct (fresh run h e) as [w|k0]; [discriminate|].
    injection H as -> <- <-. auto.
Qed.

(** A failure at one of the two checks, on any state that calls can
    reach: the host is not called. *)
Lemma fails_unchecked (h : realm) (c : Cache.t) (e : string) :
  cache_ok run c ->
  well_formed (sanitize e)
  && (openCount (sanitize e) =? closeCount (sanitize e))%nat = false ->
  safeEvaluate run (h, c) e = (fresh run h e, (h, evict c))
  /\ exists k, fresh run h e = Fails k.
Proof.
  intros Hok Hchk.
  rewrite (safeEvaluate_miss h c e (unchecked_not_cached c e Hok Hchk)).
  unfold after. rewrite Hchk.
  destruct (fresh run h e) as [v|k] eqn:Hf; [|eauto].
  apply fresh_returns in Hf. destruct Hf as (Hwf & Hb & _).
  rewrite Hwf, Hb, Nat.eqb_refl in Hchk. discriminate.
Qed.

End EvaluatorFacts.

(** ** Failures and repeated calls *)

Section Calls.
Context {realm : Type}.
Variable run : realm -> string -> completion value * realm.

Lemma get_last (e : string) (v : number) (d : Cache.t) :
  Cache.get e d = None -> Cache.get e (d ++ [(e, v)]) = Some v.
Proof.
  induction d as [|[k w] r IH]; simpl.
  - now rewrite String.eqb_refl.
  - destruct (String.eqb e k); [discriminate | exact IH].
Qed.

Lemma keys_last (e : string) (v : number) (d : Cache.t) :
  Cache.keys (d ++ [(e, v)]) = Cache.keys d ++ [e].
Proof.
  unfold Cache.keys. now rewrite map_app.
Qed.

Lemma NoDup_keys_last (e : string) (v : number) (d : Cache.t) :
  NoDup (Cache.keys d) -> Cache.get e d = None ->
  NoDup (Cache.keys (d ++ [(e, v)])).
Proof.
  intros Hnd Hget. rewrite keys_last. apply get_none_iff in Hget.
  apply NoDup_app; [exact Hnd | constructor; [intros [] | constructor] |].
  intros x Hx [<-|[]]. contradiction.
Qed.

(** A result that was just stored is found by the next call, also when
    that call evicts first. *)
Lemma stored_then_found (e : string) (v : number) (d : Cache.t) :
  NoDup (Cache.keys d) -> (Cache.size d <= 100)%nat ->
  Cache.get e d = None ->
  Cache.get e (evict (d ++ [(e, v)])) = Some v.
Proof.
  intros Hnd Hsz Hget.
  pose proof (NoDup_keys_last e v d Hnd Hget) as Hnd'.
  destruct (evict_cases _ Hnd') as [[_ ->]|[Hgt ->]].
  - now apply get_last.
  - destruct d as [|[k w] r].
    + unfold Cache.size in Hgt. simpl in Hgt. lia.
    + cbn [app tl]. apply get_last.
      simpl in Hget. destruct (String.eqb e k); [discriminate | exact Hget].
Qed.

Lemma second_call_hits (h : realm) (c : Cache.t) (e : string) (v : number) :
  cache_ok run c ->
  fst (safeEvaluate run (h, c) e) = Returns v ->
  Cache.get e (evict (snd (snd (safeEvaluate run (h, c) e)))) = Some v.
Proof.
  intros Hok. destruct (evict_ok run c Hok) as (Hnd & Hsz & _).
  destruct (Cache.get e (evict c)) as [w|] eqn:Hget.
  - rewrite (safeEvaluate_hit run h c e w Hget). cbn [fst snd].
    intros [= ->]. now rewrite (evict_small (evict c) Hsz).
  - rewrite (safeEvaluate_miss run h c e Hget). cbn [fst snd].
    destruct (fresh run h e) as [w|k]; [|discriminate].
    intros [= ->]. rewrite (set_absent e v _ Hget).
    now apply stored_then_found.
Qed.

(** After a failure the cache still has no entry for the text, and the
    next call evaluates it again, in the realm the failure left. *)
Lemma fails_then_evaluates (h h' : realm) (c c' : Cache.t) (e : string)
  (k : CalculationError) :
  cache_ok run c ->
  safeEvaluate run (h, c) e = (Fails k, (h', c')) ->
  safeEvaluate run (h', c') e =
    (fresh run h' e,
     (after run h' e,
      match fresh run h' e with
      | Returns v => c' ++ [(e, v)]
      | Fails _ => c'
      end)).
Proof.
  intros Hok H. destruct (call_fails run h h' c c' e k H) as (-> & Hget & _).
  destruct (evict_ok run c Hok) as (_ & Hsz & _).
  rewrite safeEvaluate_miss; rewrite (evict_small _ Hsz); [|exact Hget].
  destruct (fresh run h' e) as [v|k']; [|reflexivity].
  now rewrite (set_absent e v _ Hget).
Qed.

(** The outcome with nothing cached depends on what the host answers for
    the sanitized text and on nothing else. *)
Lemma fresh_answer (h h' : realm) (e e' : string) :
  sanitize e = sanitize e' ->
  answer run h (sanitize e) = answer run h' (sanitize e') ->
  fresh run h e = fresh run h' e'.
Proof.
  intros Hs Ha.
  destruct (well_formed (sanitize e)) eqn:Hwf.
  - destruct (Nat.eq_dec (openCount (sanitize e)) (closeCount (sanitize e)))
      as [Hb|Hb].
    + rewrite (fresh_run run h e Hwf Hb), Ha.
      rewrite Hs in Hwf, Hb. now rewrite (fresh_run run h' e' Hwf Hb).
    + rewrite (fresh_unbalanced run h e Hwf Hb).
      rewrite Hs in Hwf, Hb. now rewrite (fresh_unbalanced run h' e' Hwf Hb).
  - rewrite (fresh_ill_formed run h e Hwf).
    rewrite Hs in Hwf. now rewrite (fresh_ill_formed run h' e' Hwf).
Qed.

(** What the cache holds for a text whose answer does not depend on the
    state of the realm is what its evaluation gives now. *)
Lemma hit_is_fresh (h : realm) (c : Cache.t) (e : string) (v : number) :
  cache_ok run c -> stateless run (sanitize e) ->
  Cache.get e (evict c) = Some v ->
  fresh run h e = Returns v.
Proof.
  intros Hok Hst Hget. apply fresh_returns.
  destruct (evict_ok run c Hok) as (_ & _ & Hin).
  destruct (ok_entries run c Hok e v (Hin _ (get_some_in e v _ Hget)))
    as (Hwf & Hb & [h0 Ha] & Hfin).
  repeat split; try assumption. now rewrite (Hst h h0).
Qed.

Lemma reachable_evaluate_all (es : list string) :
  forall s, reachable run s -> reachable run (evaluate_all run s es).
Proof.
  induction es as [|e es IH]; intros s Hr; cbn [evaluate_all]; [exact Hr|].
  apply IH. now constructor.
Qed.

End Calls.

(** ** Names in the body *)

Lemma ident_start_facts (c : ascii) :
  Engine.is_ident_start c = true ->
  HostNumber.is_digit c = false /\ Ascii.eqb c "." = false
  /\ Engine.is_ident_part c = true.
Proof.
  destruct c as [[] [] [] [] [] [] [] []]; vm_compute; intros H;
    try discriminate H; repeat split.
Qed.

(** The characters of a name pass the character check, and none is white
    space or a parenthesis. *)
Lemma ident_part_facts (c : ascii) :
  Engine.is_ident_part c = true ->
  allowed c = true /\ is_space c = false
  /\ Ascii.eqb "(" c = false /\ Ascii.eqb ")" c = false.
Proof.
  destruct c as [[] [] [] [] [] [] [] []]; vm_compute; intros H;
    try discriminate H; repeat split.
Qed.

Lemma name_checked (name : string) :
  all_chars Engine.is_ident_part name = true ->
  sanitize name = name /\ all_allowed name = true
  /\ Text.count_char "(" name = 0%nat /\ Text.count_char ")" name = 0%nat.
Proof.
  induction name as [|c name IH]; [now repeat split|].
  cbn [all_chars]. intros H. apply andb_prop in H. destruct H as [Hc Hn].
  destruct (ident_part_facts c Hc) as (Ha & Hs & Ho & Hcl).
  destruct (IH Hn) as (IH1 & IH2 & IH3 & IH4).
  cbn [sanitize all_allowed Text.count_char].
  now rewrite Hs, Ha, Ho, Hcl, IH1, IH2, IH3, IH4.
Qed.

Lemma identifier_parts (name : string) :
  identifier name = true ->
  name <> "" /\ all_chars Engine.is_ident_part name = true.
Proof.
  destruct name as [|c name]; [discriminate|]. unfold identifier.
  intros H. apply andb_prop in H. destruct H as [H _].
  apply andb_prop in H. destruct H as [Hc Hn].
  split; [discriminate|]. cbn [all_chars].
  now rewrite (proj2 (proj2 (ident_start_facts c Hc))), Hn.
Qed.

Lemma sanitize_app (a b : string) :
  sanitize (a ++ b) = (sanitize a ++ sanitize b)%string.
Proof.
  induction a as [|c a IH]; cbn [append sanitize]; [reflexivity|].
  destruct (is_space c); [exact IH|]. cbn [append]. now rewrite IH.
Qed.

Lemma all_allowed_app (a b : string) :
  all_allowed (a ++ b) = all_allowed a && all_allowed b.
Proof.
  induction a as [|c a IH]; cbn [append all_allowed]; [reflexivity|].
  now rewrite IH, andb_assoc.
Qed.

(** A name, alone or called on [1], passes both checks. *)
Lemma name_passes (name : string) :
  identifier name = true ->
  sanitize name = name
  /\ sanitize (name ++ "(1)") = (name ++ "(1)")%string
  /\ well_formed name = true
  /\ well_formed (name ++ "(1)") = true
  /\ openCount name = closeCount name
  /\ openCount (name ++ "(1)") = closeCount (name ++ "(1)").
Proof.
  intros Hid. destruct (identifier_parts name Hid) as (Hne & Hall).
  destruct (name_checked name Hall) as (Hs & Ha & Ho & Hc).
  unfold openCount, closeCount.
  rewrite sanitize_app, !count_char_app, Hs, Ho, Hc.
  repeat split; try reflexivity.
  - destruct name; [contradiction | exact Ha].
  - destruct name as [|c n]; [contradiction|].
    change (well_formed (String c n ++ "(1)"))
      with (all_allowed (String c n ++ "(1)")).
    now rewrite all_allowed_app, Ha.
Qed.

Lemma read_ident_app (name rest : string) :
  all_chars Engine.is_ident_part name = true ->
  Engine.next_is Engine.is_ident_part rest = false ->
  Engine.read_ident (name ++ rest) = (name, rest).
Proof.
  intros Hn Hr. induction name as [|c name IH].
  - cbn [append]. destruct rest as [|d rest]; [reflexivity|].
    cbn in Hr. cbn [Engine.read_ident]. now rewrite Hr.
  - cbn in Hn. apply andb_prop in Hn. destruct Hn as [Hc Hn].
    cbn [append Engine.read_ident]. now rewrite Hc, (IH Hn).
Qed.

(** A name is one token. *)
Lemma lex_name (fuel : nat) (name rest : string) :
  identifier name = true ->
  Engine.next_is Engine.is_ident_part rest = false ->
  Engine.lex (S fuel) (name ++ rest)
  = Engine.push (Engine.TIdent name) (Engine.lex fuel rest).
Proof.
  intros Hid Hr. destruct name as [|c name]; [discriminate|].
  unfold identifier in Hid.
  apply andb_prop in Hid. destruct Hid as [Hid Hres].
  apply andb_prop in Hid. destruct Hid as [Hc Hn].
  destruct (ident_start_facts c Hc) as (Hd & Hp & Hpart).
  assert (Hread : Engine.read_ident (String c name ++ rest)
                  = (String c name, rest)).
  { apply read_ident_app; [|exact Hr]. cbn. now rewrite Hpart, Hn. }
  change (String c name ++ rest)%string with (String c (name ++ rest)) in *.
  cbn [Engine.lex]. rewrite Hd, Hp, Hc. cbn [orb andb].
  rewrite Hread. apply negb_true_iff in Hres. now rewrite Hres.
Qed.

Lemma lex_empty (fuel : nat) : Engine.lex fuel "" = Some [].
Proof.
  now destruct fuel.
Qed.

Lemma read_name (name : string) :
  identifier name = true ->
  Engine.read name = Some (Engine.EVar name).
Proof.
  intros Hid. unfold Engine.read.
  destruct name as [|c n]; [discriminate|]. cbn [String.length].
  pose proof (lex_name (String.length n) (String c n) "" Hid eq_refl) as Hl.
  rewrite string_app_empty in Hl. rewrite Hl, lex_empty. reflexivity.
Qed.

Lemma read_name_call (name : string) :
  identifier name = true ->
  Engine.read (name ++ "(1)")
  = Some (Engine.ECall (Engine.EVar name) [Engine.ELit (Num.of_Z 1)]).
Proof.
  intros Hid. unfold Engine.read.
  rewrite string_length_app. cbn [String.length].
  replace (String.length name + 3)%nat
    with (S (S (S (S (Nat.pred (String.length name))))))
    by (destruct name; [discriminate | cbn; lia]).
  rewrite (lex_name _ name "(1)" Hid eq_refl).
  destruct (Nat.pred (String.length name)); reflexivity.
Qed.

Section Names.
Context {R : Type}.
Variable H : Engine.Host R.

Lemma lookup_global (r : R) (name : string) :
  always_bound name = false ->
  Engine.lookup H r name =
    match Engine.global H r name with
    | Some v => Normal v
    | None => Throw (ErrorObject (name ++ " is not defined"))
    end.
Proof.
  unfold always_bound, Engine.lookup. cbn [existsb]. intros Hb.
  repeat (apply orb_false_elim in Hb; destruct Hb as [-> Hb]).
  reflexivity.
Qed.

(** A name that nothing binds, alone or called, throws the
    [ReferenceError]; the realm stays as it is. *)
Lemma run_unbound (h : Engine.realm R) (name : string) :
  identifier name = true ->
  always_bound name = false ->
  Engine.global H (Engine.rest h) name = None ->
  Engine.run H h name
  = (Throw (ErrorObject (name ++ " is not defined")), h)
  /\ Engine.run H h (name ++ "(1)")
     = (Throw (ErrorObject (name ++ " is not defined")), h).
Proof.
  intros Hid Hb Hg. destruct h as [s r]. cbn [Engine.rest] in Hg.
  unfold Engine.run.
  rewrite (read_name name Hid), (read_name_call name Hid).
  cbn [Engine.eval Engine.rest Engine.heap].
  now rewrite (lookup_global r name Hb), Hg.
Qed.

(** A name that the global object binds to a number is that number. *)
Lemma run_bound (h : Engine.realm R) (name : string) (x : number) :
  identifier name = true ->
  always_bound name = false ->
  Engine.global H (Engine.rest h) name = Some (VNumber x) ->
  Engine.run H h name = (Normal (VNumber x), h).
Proof.
  intros Hid Hb Hg. destruct h as [s r]. cbn [Engine.rest] in Hg.
  unfold Engine.run. rewrite (read_name name Hid).
  cbn [Engine.eval Engine.rest Engine.heap].
  now rewrite (lookup_global r name Hb), Hg.
Qed.

(** Text that reads no name and has no [++] or [--] does not depend on the
    realm: [10/0]. *)
Lemma run_division_by_zero (h : Engine.realm R) :
  Engine.run H h "10/0" = (Normal (VNumber Num.Infinity), h).
Proof.
  now destruct h.
Qed.

End Names.

(** ** The calls on a state that calls can reach *)

Section Reached.
Context {realm : Type}.
Variable run : realm -> string -> completion value * realm.

(** A call that the cache does not answer, for a text that passes both
    checks: the host is called once, and its answer decides. *)
Lemma call_evaluates (h : realm) (c : Cache.t) (e : string) :
  Cache.get e (evict c) = None ->
  well_formed (sanitize e) = true ->
  openCount (sanitize e) = closeCount (sanitize e) ->
  safeEvaluate run (h, c) e =
    (classify (answer run h (sanitize e)),
     (snd (run h (sanitize e)),
      match classify (answer run h (sanitize e)) with
      | Returns v => evict c ++ [(e, v)]
      | Fails _ => evict c
      end)).
Proof.
  intros Hget Hwf Hb. rewrite (safeEvaluate_miss run h c e Hget).
  rewrite (fresh_run run h e Hwf Hb). unfold after.
  rewrite Hwf, Hb, Nat.eqb_refl. cbn [andb].
  destruct (classify (answer run h (sanitize e))) as [v|k]; [|reflexivity].
  now rewrite (set_absent e v _ Hget).
Qed.

(** A text that fails the character check, on a state that calls can
    reach. *)
Lemma call_ill_formed (h : realm) (c : Cache.t) (e : string) :
  reachable run (h, c) ->
  well_formed (sanitize e) = false ->
  safeEvaluate run (h, c) e = (Fails INVALID, (h, evict c)).
Proof.
  intros Hr Hwf. apply reachable_ok in Hr. cbn [snd] in Hr.
  destruct (fails_unchecked run h c e Hr) as [-> _];
    [now rewrite Hwf|].
  now rewrite (fresh_ill_formed run h e Hwf).
Qed.

Lemma call_unbalanced (h : realm) (c : Cache.t) (e : string) :
  reachable run (h, c) ->
  well_formed (sanitize e) = true ->
  openCount (sanitize e) <> closeCount (sanitize e) ->
  safeEvaluate run (h, c) e = (Fails SYNTAX, (h, evict c)).
Proof.
  intros Hr Hwf Hb. apply reachable_ok in Hr. cbn [snd] in Hr.
  destruct (fails_unchecked run h c e Hr) as [-> _].
  - rewrite Hwf. cbn [andb]. now apply Nat.eqb_neq.
  - now rewrite (fresh_unbalanced run h e Hwf Hb).
Qed.

(** A text whose evaluation gives no finite number in any state of the
    realm, on a state that calls can reach. *)
Lemma call_never_computed (h : realm) (c : Cache.t) (e : string) :
  reachable run (h, c) ->
  well_formed (sanitize e) = true ->
  openCount (sanitize e) = closeCount (sanitize e) ->
  (forall h0 v, answer run h0 (sanitize e) = Normal (VNumber v) ->
                Num.isFinite v = false) ->
  Cache.get e (evict c) = None.
Proof.
  intros Hr Hwf Hb Hno. apply reachable_ok in Hr. cbn [snd] in Hr.
  apply (not_cached run c e Hr). intros v (_ & _ & [h0 Ha] & Hfin).
  rewrite (Hno h0 v Ha) in Hfin. discriminate.
Qed.

End Reached.

(** C6: an expression whose sanitized text passes the character check and
    has unequal counts of [(] and [)] fails with SYNTAX, whatever the host
    and whatever calls came before; the host is not called (the realm stays
    as it is) and the cache keeps no entry for it; so does ["(1+2"]. *)
Theorem unbalanced_fails_with_syntax
  (realm : Type) (run : realm -> string -> completion value * realm)
  (h : realm) (c : Cache.t) :
  reachable run (h, c) ->
  (forall e,
      well_formed (sanitize e) = true ->
      openCount (sanitize e) <> closeCount (sanitize e) ->
      safeEvaluate run (h, c) e = (Fails SYNTAX, (h, evict c)))
  /\ safeEvaluate run (h, c) "(1+2" = (Fails SYNTAX, (h, evict c)).
Proof.
  intros Hr.
  assert (H : forall e,
             well_formed (sanitize e) = true ->
             openCount (sanitize e) <> closeCount (sanitize e) ->
             safeEvaluate run (h, c) e = (Fails SYNTAX, (h, evict c))).
  { intros e Hwf Hne. now apply call_unbalanced. }
  split; [exact H|]. apply H; [reflexivity | discriminate].
Qed.

Lemma unbalanced_fails_with_syntax_witness :
  reachable (Engine.run sample_host) (loaded, [])
  /\ well_formed (sanitize "(1 + 2") = true
  /\ openCount (sanitize "(1 + 2") <> closeCount (sanitize "(1 + 2")
  /\ safeEvaluate (Engine.run sample_host) (loaded, []) "(1 + 2"
     = (Fails SYNTAX, (loaded, [])).
Proof.
  split; [constructor|]. split; [reflexivity|]. split; [discriminate|].
  apply (proj1 (unbalanced_fails_with_syntax
                  _ (Engine.run sample_host) loaded []
                  (reachable_empty _ loaded))).
  - reflexivity.
  - discriminate.
Defined.

(** C10: when [safeEvaluate] fails, the cache it leaves is the one the size
    check left and has no entry for the expression; every number the cache
    holds is finite.  The same call again is not answered from the cache:
    the expression is evaluated again, and fails in the same way when the
    host answers as it did. *)
Theorem failure_is_not_cached
  (realm : Type) (run : realm -> string -> completion value * realm)
  (h h' : realm) (c c' : Cache.t) (e : string) (k : CalculationError) :
  reachable run (h, c) ->
  safeEvaluate run (h, c) e = (Fails k, (h', c')) ->
  c' = evict c
  /\ Cache.get e c' = None
  /\ Cache.has e c' = false
  /\ fst (safeEvaluate run (h', c') e) = fresh run h' e
  /\ (answer run h' (sanitize e) = answer run h (sanitize e) ->
      safeEvaluate run (h', c') e = (Fails k, (after run h' e, c')))
  /\ (forall key v, In (key, v) c' -> Num.isFinite v = true).
Proof.
  intros Hr H. pose proof (reachable_ok run _ Hr) as Hok. cbn [snd] in Hok.
  pose proof (fails_then_evaluates run h h' c c' e k Hok H) as Hagain.
  destruct (call_fails run h h' c c' e k H) as (-> & Hget & Hf & _).
  destruct (evict_ok run c Hok) as (Hnd & Hsz & Hin).
  split; [reflexivity|]. split; [exact Hget|]. split; [|split; [|split]].
  - unfold Cache.has. apply not_true_is_false. intros Hex.
    apply existsb_exists in Hex. destruct Hex as [[k' v'] [Hin' Heq]].
    apply String.eqb_eq in Heq. cbn in Heq. subst k'.
    apply get_none_iff in Hget. apply Hget.
    unfold Cache.keys. now apply (in_map fst _ (e, v')).
  - now rewrite Hagain.
  - intros Hsame. rewrite Hagain.
    rewrite (fresh_answer run h' h e e eq_refl Hsame), Hf. reflexivity.
  - intros key v Hkv. apply Hin in Hkv.
    now destruct (ok_entries run c Hok key v Hkv) as (_ & _ & _ & Hfin).
Qed.

Lemma failure_is_not_cached_witness :
  reachable (Engine.run sample_host) (loaded, [("2+2", Num.of_Z 4)])
  /\ safeEvaluate (Engine.run sample_host) (loaded, [("2+2", Num.of_Z 4)])
       "10/0"
     = (Fails INVALID, (loaded, [("2+2", Num.of_Z 4)]))
  /\ Cache.get "10/0" [("2+2", Num.of_Z 4)] = None
  /\ safeEvaluate (Engine.run sample_host) (loaded, [("2+2", Num.of_Z 4)])
       "10/0"
     = (Fails INVALID, (loaded, [("2+2", Num.of_Z 4)])).
Proof.
  assert (Hr : reachable (Engine.run sample_host)
                 (loaded, [("2+2", Num.of_Z 4)]))
    by exact (reachable_call (Engine.run sample_host) (loaded, []) "2+2"
                (reachable_empty _ loaded)).
  assert (Hc : safeEvaluate (Engine.run sample_host)
                 (loaded, [("2+2", Num.of_Z 4)]) "10/0"
               = (Fails INVALID, (loaded, [("2+2", Num.of_Z 4)])))
    by reflexivity.
  split; [exact Hr|]. split; [exact Hc|].
  pose proof (failure_is_not_cached _ (Engine.run sample_host) _ _ _ _
                "10/0" INVALID Hr Hc) as H.
  split; [exact (proj1 (proj2 H))|].
  exact (proj1 (proj2 (proj2 (proj2 (proj2 H)))) eq_refl).
Defined.

(** ** The same expression twice *)

(** C5, counterexample: the sanitized text may write to the context.
    ["Math.sqrt(Math.pi++-4)"] passes both checks; its first call fails with
    DOMAIN (the square root of [pi - 4]) and leaves [pi + 1] in the context,
    and the same call again returns the square root of [pi - 3].  And after
    ["Math.pi++"] has returned [pi], the cache answers [pi] for it, while the
    evaluation of the same text would now give [pi + 1]. *)
Lemma second_call_differs :
  well_formed (sanitize "Math.sqrt(Math.pi++-4)") = true
  /\ openCount (sanitize "Math.sqrt(Math.pi++-4)")
     = closeCount (sanitize "Math.sqrt(Math.pi++-4)")
  /\ fst (safeEvaluate (Engine.run sample_host) (loaded, [])
            "Math.sqrt(Math.pi++-4)")
     = Fails DOMAIN
  /\ fst (safeEvaluate (Engine.run sample_host)
            (snd (safeEvaluate (Engine.run sample_host) (loaded, [])
                    "Math.sqrt(Math.pi++-4)"))
            "Math.sqrt(Math.pi++-4)")
     = Returns
         (Num.sqrt
            (Num.sub (Num.add Num.PI (Num.of_Z 1)) (Num.of_Z 4)))
  /\ fst (safeEvaluate (Engine.run sample_host)
            (snd (safeEvaluate (Engine.run sample_host) (loaded, [])
                    "Math.pi++"))
            "Math.pi++")
     = Returns Num.PI
  /\ fresh (Engine.run sample_host)
       (fst (snd (safeEvaluate (Engine.run sample_host) (loaded, [])
                    "Math.pi++")))
       "Math.pi++"
     = Returns (Num.add Num.PI (Num.of_Z 1))
  /\ Num.add Num.PI (Num.of_Z 1) <> Num.PI.
Proof.
  repeat split; try (vm_compute; reflexivity). vm_compute. discriminate.
Qed.

(** C5, amended: a number that a call returned is returned again by the
    same call right after it, from the cache and without the host; a call
    that failed is evaluated again and fails in the same way when the host
    answers as it did.  A number that the cache answers is the one that the
    evaluation of the expression gave in some earlier state of the realm,
    and it is what a miss computes now when the host answers now as it did
    then.  So for text whose answer does not depend on the state of the
    realm, two calls in a row have the same outcome, and a hit gives what a
    miss would. *)
Theorem evaluate_twice_same
  (realm : Type) (run : realm -> string -> completion value * realm)
  (h : realm) (c : Cache.t) (e : string) :
  reachable run (h, c) ->
  (forall v h1 c1,
      safeEvaluate run (h, c) e = (Returns v, (h1, c1)) ->
      safeEvaluate run (h1, c1) e = (Returns v, (h1, evict c1)))
  /\ (forall k h1 c1,
         safeEvaluate run (h, c) e = (Fails k, (h1, c1)) ->
         fst (safeEvaluate run (h1, c1) e) = fresh run h1 e
         /\ (answer run h1 (sanitize e) = answer run h (sanitize e) ->
             fst (safeEvaluate run (h1, c1) e) = Fails k))
  /\ (forall v,
         Cache.get e (evict c) = Some v ->
         exists h0,
           fresh run h0 e = Returns v
           /\ (answer run h (sanitize e) = answer run h0 (sanitize e) ->
               fresh run h e = Returns v))
  /\ (stateless run (sanitize e) ->
      fst (safeEvaluate run (snd (safeEvaluate run (h, c) e)) e)
      = fst (safeEvaluate run (h, c) e)
      /\ fst (safeEvaluate run (h, c) e) = fresh run h e).
Proof.
  intros Hr. pose proof (reachable_ok run _ Hr) as Hok. cbn [snd] in Hok.
  assert (Hhit : forall v h1 c1,
             safeEvaluate run (h, c) e = (Returns v, (h1, c1)) ->
             safeEvaluate run (h1, c1) e = (Returns v, (h1, evict c1))).
  { intros v h1 c1 Hcall. apply safeEvaluate_hit.
    pose proof (second_call_hits run h c e v Hok) as H2.
    rewrite Hcall in H2. now apply H2. }
  assert (Hmiss : forall k h1 c1,
             safeEvaluate run (h, c) e = (Fails k, (h1, c1)) ->
             fst (safeEvaluate run (h1, c1) e) = fresh run h1 e
             /\ (answer run h1 (sanitize e) = answer run h (sanitize e) ->
                 fst (safeEvaluate run (h1, c1) e) = Fails k)).
  { intros k h1 c1 Hcall.
    rewrite (fails_then_evaluates run h h1 c c1 e k Hok Hcall). cbn [fst].
    split; [reflexivity|]. intros Hsame.
    rewrite (fresh_answer run h1 h e e eq_refl Hsame).
    now destruct (call_fails run h h1 c c1 e k Hcall) as (_ & _ & Hf & _). }
  split; [exact Hhit|]. split; [exact Hmiss|]. split.
  - intros v Hget.
    destruct (evict_ok run c Hok) as (_ & _ & Hin).
    destruct (ok_entries run c Hok e v (Hin _ (get_some_in e v _ Hget)))
      as (Hwf & Hb & [h0 Ha] & Hfin).
    exists h0. split.
    + now apply fresh_returns.
    + intros Hsame. apply fresh_returns. now rewrite Hsame.
  - intros Hst.
    assert (Hfresh : fst (safeEvaluate run (h, c) e) = fresh run h e).
    { destruct (Cache.get e (evict c)) as [v|] eqn:Hget.
      - rewrite (safeEvaluate_hit run h c e v Hget).
        now rewrite (hit_is_fresh run h c e v Hok Hst Hget).
      - now rewrite (safeEvaluate_miss run h c e Hget). }
    split; [|exact Hfresh].
    destruct (safeEvaluate run (h, c) e) as [[v|k] [h1 c1]] eqn:Hcall;
      cbn [fst snd].
    + now rewrite (Hhit v h1 c1 eq_refl).
    + exact (proj2 (Hmiss k h1 c1 eq_refl) (Hst h1 h)).
Qed.

Lemma evaluate_twice_same_witness :
  reachable (Engine.run sample_host) (loaded, [])
  /\ safeEvaluate (Engine.run sample_host) (loaded, []) "2+2"
     = (Returns (Num.of_Z 4), (loaded, [("2+2", Num.of_Z 4)]))
  /\ safeEvaluate (Engine.run sample_host) (loaded, [("2+2", Num.of_Z 4)])
       "2+2"
     = (Returns (Num.of_Z 4), (loaded, [("2+2", Num.of_Z 4)])).
Proof.
  split; [constructor|]. split; [reflexivity|].
  exact (proj1 (evaluate_twice_same _ (Engine.run sample_host) loaded []
                  "2+2" (reachable_empty _ loaded))
           (Num.of_Z 4) loaded [("2+2", Num.of_Z 4)] eq_refl).
Defined.

(** ** Invalid expressions *)

(** C2, counterexample: ["foo(1)"], a name outside the registry, passes the
    character check and fails with SYNTAX, which is not INVALID; and on a
    host whose global object has the number [length], the name [length],
    outside the registry too, is evaluated and its value returned. *)
Lemma unknown_name_is_not_invalid :
  mathContext.property "foo" = None
  /\ well_formed (sanitize "foo(1)") = true
  /\ fst (safeEvaluate (Engine.run sample_host) (loaded, []) "foo(1)")
     = Fails SYNTAX
  /\ Fails SYNTAX <> Fails INVALID
  /\ mathContext.property "length" = None
  /\ fst (safeEvaluate
            (Engine.run (host_with_global "length" (Num.of_Z 0)))
            (loaded, []) "length")
     = Returns (Num.of_Z 0).
Proof.
  repeat split; try reflexivity. discriminate.
Qed.

(** C2, amended: an expression whose sanitized text is empty or has a
    character outside the class fails with INVALID before the host is
    called; so does one that the cache does not answer and whose evaluation
    gives a value that is not a finite number, as ["10/0"]; nothing is
    returned and nothing stored.  A name outside the registry passes the
    character check, and the host decides.  When nothing binds the name,
    alone or called, the [ReferenceError] is classified by the words of the
    name: SYNTAX for a name without [Domain], [Undefined], [Overflow] and
    [Invalid], as [foo].  When the global object binds it to a finite
    number, that number is returned and stored. *)
Theorem invalid_expression :
  (forall (realm : Type) (run : realm -> string -> completion value * realm)
          h c e,
      reachable run (h, c) ->
      well_formed (sanitize e) = false ->
      safeEvaluate run (h, c) e = (Fails INVALID, (h, evict c)))
  /\ (forall (realm : Type)
             (run : realm -> string -> completion value * realm) h c e v,
         Cache.get e (evict c) = None ->
         well_formed (sanitize e) = true ->
         openCount (sanitize e) = closeCount (sanitize e) ->
         answer run h (sanitize e) = Normal v ->
         finite_number v = false ->
         safeEvaluate run (h, c) e
         = (Fails INVALID, (snd (run h (sanitize e)), evict c)))
  /\ (forall (realm : Type)
             (run : realm -> string -> completion value * realm) h c,
         reachable run (h, c) ->
         safeEvaluate run (h, c) "1;2" = (Fails INVALID, (h, evict c)))
  /\ (forall (R : Type) (H : Engine.Host R) h c,
         reachable (Engine.run H) (h, c) ->
         safeEvaluate (Engine.run H) (h, c) "10/0"
         = (Fails INVALID, (h, evict c)))
  /\ (forall (R : Type) (H : Engine.Host R) h c name,
         identifier name = true ->
         always_bound name = false ->
         Engine.global H (Engine.rest h) name = None ->
         (Cache.get name (evict c) = None ->
          safeEvaluate (Engine.run H) (h, c) name
          = (Fails (reclassify (ErrorObject (name ++ " is not defined"))),
             (h, evict c)))
         /\ (Cache.get (name ++ "(1)") (evict c) = None ->
             safeEvaluate (Engine.run H) (h, c) (name ++ "(1)")
             = (Fails (reclassify (ErrorObject (name ++ " is not defined"))),
                (h, evict c)))
         /\ ((forall w, In w words -> ~ contains name w) ->
             reclassify (ErrorObject (name ++ " is not defined")) = SYNTAX)
         /\ (contains name "Invalid" -> ~ contains name "Domain" ->
             ~ contains name "Undefined" -> ~ contains name "Overflow" ->
             reclassify (ErrorObject (name ++ " is not defined"))
             = INVALID))
  /\ (forall (R : Type) (H : Engine.Host R) h c name x,
         identifier name = true ->
         always_bound name = false ->
         Engine.global H (Engine.rest h) name = Some (VNumber x) ->
         Num.isFinite x = true ->
         Cache.get name (evict c) = None ->
         safeEvaluate (Engine.run H) (h, c) name
         = (Returns x, (h, evict c ++ [(name, x)]))).
Proof.
  split; [|split; [|split; [|split; [|split]]]].
  - intros realm run h c e Hr Hwf. now apply call_ill_formed.
  - intros realm run h c e v Hget Hwf Hb Hrun Hv.
    rewrite (call_evaluates run h c e Hget Hwf Hb), Hrun.
    destruct v as [x| | | |]; try reflexivity.
    cbn in Hv. cbn [classify]. now rewrite Hv.
  - intros realm run h c Hr. now apply call_ill_formed.
  - intros R H h c Hr.
    assert (Hget : Cache.get "10/0" (evict c) = None).
    { apply (call_never_computed (Engine.run H) h c "10/0" Hr);
        [reflexivity | reflexivity |].
      intros h0 v Ha. change (sanitize "10/0") with "10/0" in Ha.
      unfold answer in Ha. rewrite run_division_by_zero in Ha.
      now injection Ha as <-. }
    rewrite (call_evaluates (Engine.run H) h c "10/0" Hget eq_refl eq_refl).
    change (sanitize "10/0") with "10/0". unfold answer.
    now rewrite run_division_by_zero.
  - intros R H h c name Hid Hb Hg.
    destruct (name_passes name Hid) as (Hs & Hs1 & Hwf & Hwf1 & Hc & Hc1).
    destruct (run_unbound H h name Hid Hb Hg) as [Hrun Hrun1].
    split; [|split; [|split]].
    + intros Hget.
      rewrite (call_evaluates (Engine.run H) h c name Hget);
        rewrite ?Hs; try assumption.
      unfold answer. now rewrite Hrun.
    + intros Hget.
      rewrite (call_evaluates (Engine.run H) h c _ Hget);
        rewrite ?Hs1; try assumption.
      unfold answer. now rewrite Hrun1.
    + intros Hno. rewrite reclassify_not_defined. cbn [reclassify].
      rewrite !(proj2 (includes_false name _)); [reflexivity| | | |];
        apply Hno; cbn; tauto.
    + intros Hi Hd Hu Ho. rewrite reclassify_not_defined. cbn [reclassify].
      apply includes_false in Hd, Hu, Ho. apply includes_spec in Hi.
      now rewrite Hd, Hu, Ho, Hi.
  - intros R H h c name x Hid Hb Hg Hfin Hget.
    destruct (name_passes name Hid) as (Hs & _ & Hwf & _ & Hc & _).
    rewrite (call_evaluates (Engine.run H) h c name Hget);
      rewrite ?Hs; try assumption.
    unfold answer. rewrite (run_bound H h name x Hid Hb Hg).
    cbn [fst snd classify]. now rewrite Hfin.
Qed.

Lemma invalid_expression_witness :
  reachable (Engine.run sample_host) (loaded, [])
  /\ well_formed (sanitize "2 # 2") = false
  /\ safeEvaluate (Engine.run sample_host) (loaded, []) "2 # 2"
     = (Fails INVALID, (loaded, []))
  /\ answer (Engine.run sample_host) loaded (sanitize "1 / 0")
     = Normal (VNumber Num.Infinity)
  /\ safeEvaluate (Engine.run sample_host) (loaded, []) "1 / 0"
     = (Fails INVALID, (loaded, []))
  /\ Engine.global sample_host tt "foo" = None
  /\ safeEvaluate (Engine.run sample_host) (loaded, []) "foo(1)"
     = (Fails SYNTAX, (loaded, []))
  /\ safeEvaluate (Engine.run sample_host) (loaded, []) "Invalid(1)"
     = (Fails INVALID, (loaded, []))
  /\ safeEvaluate (Engine.run (host_with_global "length" (Num.of_Z 0)))
       (loaded, []) "length"
     = (Returns (Num.of_Z 0), (loaded, [("length", Num.of_Z 0)])).
Proof.
  pose proof (reachable_empty (Engine.run sample_host) loaded) as Hr.
  pose proof invalid_expression
    as (Hill & Hnot & _ & _ & Hname & Hbound).
  split; [exact Hr|]. split; [reflexivity|].
  split; [exact (Hill _ _ loaded [] "2 # 2" Hr eq_refl)|].
  split; [reflexivity|].
  split; [exact (Hnot _ (Engine.run sample_host) loaded [] "1 / 0"
                   (VNumber Num.Infinity) eq_refl eq_refl eq_refl eq_refl
                   eq_refl)|].
  split; [reflexivity|].
  split; [exact (proj1 (proj2 (Hname _ sample_host loaded [] "foo"
                                 eq_refl eq_refl eq_refl)) eq_refl)|].
  split; [exact (proj1 (proj2 (Hname _ sample_host loaded [] "Invalid"
                                 eq_refl eq_refl eq_refl)) eq_refl)|].
  exact (Hbound _ (host_with_global "length" (Num.of_Z 0)) loaded []
           "length" (Num.of_Z 0) eq_refl eq_refl eq_refl eq_refl eq_refl).
Defined.

(** ** The kinds of failures *)

(** C3, counterexample: the [ReferenceError] for the unbound name [foo] has
    a message with none of the words the [catch] clause looks for, and the
    call fails with SYNTAX, not with UNKNOWN. *)
Lemma unrecognized_error_is_syntax :
  answer (Engine.run sample_host) loaded "foo"
  = Throw (ErrorObject "foo is not defined")
  /\ (forall word,
         In word ["Domain"; "Undefined"; "Overflow"; "Invalid"; "Syntax"] ->
         Text.includes "foo is not defined" word = false)
  /\ fst (safeEvaluate (Engine.run sample_host) (loaded, []) "foo")
     = Fails SYNTAX
  /\ Fails SYNTAX <> Fails UNKNOWN.
Proof.
  split; [reflexivity|]. split.
  - intros word Hin. cbn in Hin.
    repeat (destruct Hin as [<-|Hin]; [reflexivity|]). contradiction.
  - split; [reflexivity | discriminate].
Qed.

Lemma unknown_only_from_non_error {realm : Type}
  (run : realm -> string -> completion value * realm) (h : realm)
  (e : string) :
  fresh run h e = Fails UNKNOWN ->
  answer run h (sanitize e) = Throw NotAnError.
Proof.
  intros Hf.
  destruct (well_formed (sanitize e)) eqn:Hwf;
    [|rewrite (fresh_ill_formed run h e Hwf) in Hf; discriminate].
  destruct (Nat.eq_dec (openCount (sanitize e)) (closeCount (sanitize e)))
    as [Hb|Hb];
    [|rewrite (fresh_unbalanced run h e Hwf Hb) in Hf; discriminate].
  rewrite (fresh_run run h e Hwf Hb) in Hf.
  destruct (answer run h (sanitize e)) as [[x| | | |]|[msg|]];
    try discriminate; try reflexivity.
  - cbn in Hf. destruct (Num.isFinite x); discriminate.
  - exfalso. cbn in Hf.
    destruct (Text.includes msg "Domain"); [discriminate|].
    destruct (Text.includes msg "Undefined"); [discriminate|].
    destruct (Text.includes msg "Overflow"); [discriminate|].
    destruct (Text.includes msg "Invalid"); discriminate.
Qed.

(** The kind for the message of an [Error]: the first of the four words
    that is somewhere in the message decides. *)
Lemma reclassify_by_words (msg : string) :
  (contains msg "Domain" -> reclassify (ErrorObject msg) = DOMAIN)
  /\ (~ contains msg "Domain" -> contains msg "Undefined" ->
      reclassify (ErrorObject msg) = UNDEFINED)
  /\ (~ contains msg "Domain" -> ~ contains msg "Undefined" ->
      contains msg "Overflow" ->
      reclassify (ErrorObject msg) = OVERFLOW)
  /\ (~ contains msg "Domain" -> ~ contains msg "Undefined" ->
      ~ contains msg "Overflow" -> contains msg "Invalid" ->
      reclassify (ErrorObject msg) = INVALID)
  /\ (~ contains msg "Domain" -> ~ contains msg "Undefined" ->
      ~ contains msg "Overflow" -> ~ contains msg "Invalid" ->
      reclassify (ErrorObject msg) = SYNTAX).
Proof.
  cbn [reclassify]. rewrite <- !includes_false, <- !includes_spec.
  destruct (Text.includes msg "Domain"), (Text.includes msg "Undefined"),
    (Text.includes msg "Overflow"), (Text.includes msg "Invalid");
    repeat split; intros; congruence.
Qed.

(** C3, amended: what the evaluation throws decides the kind of the failure,
    one kind for each thrown value.  For an [Error] the first of the words
    [Domain], [Undefined], [Overflow], [Invalid] (in this order) that is
    somewhere in its message gives DOMAIN, UNDEFINED, OVERFLOW or INVALID,
    so the errors of the math context keep their kind; an [Error] whose
    message has none of the four gets SYNTAX, the one with the UNKNOWN
    message too; UNKNOWN is the kind of exactly the thrown values that are
    not an [Error], and a call fails with UNKNOWN only when the host throws
    such a value. *)
Theorem failures_are_reclassified :
  (forall (realm : Type) (run : realm -> string -> completion value * realm)
          h c e t,
      Cache.get e (evict c) = None ->
      well_formed (sanitize e) = true ->
      openCount (sanitize e) = closeCount (sanitize e) ->
      answer run h (sanitize e) = Throw t ->
      safeEvaluate run (h, c) e
      = (Fails (reclassify t), (snd (run h (sanitize e)), evict c)))
  /\ (forall msg word, Text.includes msg word = true <-> contains msg word)
  /\ (forall msg,
         (contains msg "Domain" -> reclassify (ErrorObject msg) = DOMAIN)
         /\ (~ contains msg "Domain" -> contains msg "Undefined" ->
             reclassify (ErrorObject msg) = UNDEFINED)
         /\ (~ contains msg "Domain" -> ~ contains msg "Undefined" ->
             contains msg "Overflow" ->
             reclassify (ErrorObject msg) = OVERFLOW)
         /\ (~ contains msg "Domain" -> ~ contains msg "Undefined" ->
             ~ contains msg "Overflow" -> contains msg "Invalid" ->
             reclassify (ErrorObject msg) = INVALID)
         /\ (~ contains msg "Domain" -> ~ contains msg "Undefined" ->
             ~ contains msg "Overflow" -> ~ contains msg "Invalid" ->
             reclassify (ErrorObject msg) = SYNTAX))
  /\ (forall t, reclassify t = UNKNOWN <-> t = NotAnError)
  /\ (forall (realm : Type)
             (run : realm -> string -> completion value * realm) h c e,
         fst (safeEvaluate run (h, c) e) = Fails UNKNOWN ->
         answer run h (sanitize e) = Throw NotAnError)
  /\ (forall k, k <> UNKNOWN -> reclassify (ErrorObject (message k)) = k)
  /\ reclassify (ErrorObject (message UNKNOWN)) = SYNTAX.
Proof.
  split; [|split; [|split; [|split; [|split; [|split]]]]].
  - intros realm run h c e t Hget Hwf Hb Hrun.
    now rewrite (call_evaluates run h c e Hget Hwf Hb), Hrun.
  - intros msg word. apply includes_spec.
  - exact reclassify_by_words.
  - intros t. split.
    + destruct t as [msg|]; [|reflexivity]. cbn.
      destruct (Text.includes msg "Domain"); [discriminate|].
      destruct (Text.includes msg "Undefined"); [discriminate|].
      destruct (Text.includes msg "Overflow"); [discriminate|].
      destruct (Text.includes msg "Invalid"); discriminate.
    + intros ->. reflexivity.
  - intros realm run h c e Hf. apply unknown_only_from_non_error.
    destruct (safeEvaluate run (h, c) e) as [o [h' c']] eqn:Hcall.
    cbn in Hf. subst o.
    now destruct (call_fails run h h' c c' e UNKNOWN Hcall)
      as (_ & _ & Hfresh & _).
  - intros k Hk. destruct k; try reflexivity. contradiction.
  - reflexivity.
Qed.

Lemma failures_are_reclassified_witness :
  Cache.get "Undefined(1)" (evict []) = None
  /\ answer (Engine.run sample_host) loaded (sanitize "Undefined(1)")
     = Throw (ErrorObject "Undefined is not defined")
  /\ contains "Undefined is not defined" "Undefined"
  /\ ~ contains "Undefined is not defined" "Domain"
  /\ safeEvaluate (Engine.run sample_host) (loaded, []) "Undefined(1)"
     = (Fails UNDEFINED, (loaded, []))
  /\ safeEvaluate (Engine.run sample_host) (loaded, []) "Math.sqrt(-1)"
     = (Fails DOMAIN, (loaded, [])).
Proof.
  pose proof failures_are_reclassified as (Hcall & Hinc & Hwords & _).
  assert (Hu : contains "Undefined is not defined" "Undefined")
    by (apply Hinc; reflexivity).
  assert (Hd : ~ contains "Undefined is not defined" "Domain")
    by (intros Hd; apply Hinc in Hd; discriminate Hd).
  split; [reflexivity|]. split; [reflexivity|].
  split; [exact Hu|]. split; [exact Hd|]. split.
  - rewrite <- (proj1 (proj2 (Hwords "Undefined is not defined")) Hd Hu).
    exact (Hcall _ (Engine.run sample_host) loaded [] "Undefined(1)"
             (ErrorObject "Undefined is not defined")
             eq_refl eq_refl eq_refl eq_refl).
  - exact (Hcall _ (Engine.run sample_host) loaded [] "Math.sqrt(-1)"
             (ErrorObject (message DOMAIN)) eq_refl eq_refl eq_refl eq_refl).
Defined.

(** ** The size of the cache and the order of eviction *)

Section Insertions.
Context {realm : Type}.
Variable run : realm -> string -> completion value * realm.

Lemma keys_evict (c : Cache.t) :
  cache_ok run c ->
  (Cache.size c <= 100)%nat /\ Cache.keys (evict c) = Cache.keys c
  \/ Cache.size c = 101%nat /\ Cache.keys (evict c) = tl (Cache.keys c).
Proof.
  intros [Hnd Hsz _]. destruct (evict_cases c Hnd) as [[Hle ->]|[Hgt ->]].
  - left. auto.
  - right. split; [lia|]. now destruct c.
Qed.

(** A new expression that evaluates to a number is stored last, after the
    size check. *)
Lemma insert_keys (h h' : realm) (c c' : Cache.t) (e : string)
  (v : number) :
  cache_ok run c -> ~ In e (Cache.keys c) ->
  safeEvaluate run (h, c) e = (Returns v, (h', c')) ->
  Cache.keys c' = Cache.keys (evict c) ++ [e].
Proof.
  intros Hok Hnew Hcall.
  destruct (evict_ok run c Hok) as (_ & _ & Hin).
  assert (Hget : Cache.get e (evict c) = None).
  { apply get_none_iff. intros Hk. apply Hnew.
    unfold Cache.keys in *. apply in_map_iff in Hk.
    destruct Hk as [kv [<- Hkv]]. apply in_map. now apply Hin. }
  rewrite (safeEvaluate_miss run h c e Hget) in Hcall.
  destruct (fresh run h e) as [w|k]; [|discriminate].
  injection Hcall as -> _ <-.
  rewrite (set_absent e v _ Hget). apply keys_last.
Qed.

(** After the calls, the cache holds the last 101 keys, oldest first. *)
Lemma evaluate_all_keys (es : list string) :
  forall h c,
    cache_ok run c ->
    NoDup (Cache.keys c ++ es) ->
    all_return run (h, c) es = true ->
    Cache.keys (snd (evaluate_all run (h, c) es))
    = skipn (List.length (Cache.keys c ++ es) - 101) (Cache.keys c ++ es).
Proof.
  induction es as [|e es IH]; intros h c Hok Hnd Hall.
  - cbn [evaluate_all snd]. rewrite app_nil_r.
    pose proof (ok_size run c Hok) as Hsz. unfold Cache.size in Hsz.
    unfold Cache.keys. rewrite length_map.
    replace (List.length c - 101)%nat with 0%nat by lia. reflexivity.
  - cbn [evaluate_all all_return] in *.
    assert (Hnew : ~ In e (Cache.keys c)).
    { intros Hin. apply NoDup_remove_2 in Hnd. apply Hnd.
      apply in_or_app. now left. }
    pose proof (safeEvaluate_ok run h c e Hok) as Hok'.
    destruct (safeEvaluate run (h, c) e) as [[v|k] [h' c']] eqn:Hcall;
      [|discriminate].
    cbn [snd] in *.
    pose proof (insert_keys h h' c c' e v Hok Hnew Hcall) as Hkeys.
    destruct (keys_evict c Hok) as [[Hle Hev]|[Hfull Hev]];
      rewrite Hev in Hkeys.
    + rewrite IH; [|exact Hok'| |exact Hall];
        rewrite Hkeys, <- app_assoc; [reflexivity | exact Hnd].
    + assert (Hlen : List.length (Cache.keys c) = 101%nat)
        by (unfold Cache.keys; now rewrite length_map).
      destruct (Cache.keys c) as [|k ks] eqn:Hks; [discriminate|].
      cbn [tl] in Hkeys.
      rewrite IH; [|exact Hok'| |exact Hall]; rewrite Hkeys, <- app_assoc.
      * cbn [app]. cbn [List.length] in *. rewrite !length_app in *.
        cbn [List.length] in *.
        replace (S (List.length ks + S (List.length es)) - 101)%nat
          with (S (List.length ks + S (List.length es) - 101))%nat by lia.
        reflexivity.
      * cbn [app] in *. now inversion Hnd.
Qed.

Lemma evaluate_all_from_empty (h : realm) (es : list string) :
  NoDup es -> all_return run (h, []) es = true ->
  Cache.keys (snd (evaluate_all run (h, []) es))
  = skipn (List.length es - 101) es.
Proof.
  intros Hnd Hall.
  apply (evaluate_all_keys es h []); [|exact Hnd|exact Hall].
  split; [constructor | simpl; lia | intros k v []].
Qed.

End Insertions.

Lemma distinct_NoDup (l : list string) : distinct l = true -> NoDup l.
Proof.
  induction l as [|x r IH]; cbn; [constructor|].
  intros H. apply andb_prop in H. destruct H as [Hx Hr].
  constructor; [|now apply IH].
  intros Hin. apply negb_true_iff in Hx.
  assert (existsb (String.eqb x) r = true); [|congruence].
  apply existsb_exists. exists x. split; [exact Hin | apply String.eqb_refl].
Qed.

Lemma numerals_distinct : NoDup (numerals 102).
Proof.
  apply distinct_NoDup. vm_compute. reflexivity.
Qed.

Lemma numerals_return :
  all_return (Engine.run sample_host) (loaded, []) (numerals 102) = true.
Proof.
  vm_compute. reflexivity.
Qed.

(** C1, counterexample: after 101 distinct expressions, each evaluated and
    stored, the cache has 101 entries and the first key is still there. *)
Lemma cache_holds_101_entries :
  NoDup (numerals 101)
  /\ List.length (numerals 101) = 101%nat
  /\ all_return (Engine.run sample_host) (loaded, []) (numerals 101) = true
  /\ Cache.size
       (snd (evaluate_all (Engine.run sample_host) (loaded, [])
               (numerals 101)))
     = 101%nat
  /\ Cache.has "1"
       (snd (evaluate_all (Engine.run sample_host) (loaded, [])
               (numerals 101)))
     = true
  /\ Cache.has "101"
       (snd (evaluate_all (Engine.run sample_host) (loaded, [])
               (numerals 101)))
     = true.
Proof.
  split; [apply distinct_NoDup; vm_compute; reflexivity|].
  split; [reflexivity|].
  split; [vm_compute; reflexivity|].
  split; [vm_compute; reflexivity|].
  split; vm_compute; reflexivity.
Qed.

(** C1, amended: the cache never holds more than 101 entries, and at most
    100 once a call has made its size check.  Eviction is first in, first
    out: after distinct expressions are evaluated and stored one after the
    other, the cache holds the last 101 of them in that order.  So after 101
    of them all 101 are there, the first one too; after 102 of them 101 are
    left, the first one is gone and the last one is there. *)
Theorem cache_bound_and_eviction_order
  (realm : Type) (run : realm -> string -> completion value * realm) :
  (forall h c, reachable run (h, c) ->
               (Cache.size c <= 101)%nat /\ (Cache.size (evict c) <= 100)%nat)
  /\ (forall h es,
         NoDup es -> all_return run (h, []) es = true ->
         Cache.keys (snd (evaluate_all run (h, []) es))
         = skipn (List.length es - 101) es)
  /\ (forall h es,
         NoDup es -> all_return run (h, []) es = true ->
         List.length es = 101%nat ->
         Cache.keys (snd (evaluate_all run (h, []) es)) = es)
  /\ (forall h first es,
         NoDup (first :: es) ->
         all_return run (h, []) (first :: es) = true ->
         List.length es = 101%nat ->
         Cache.keys (snd (evaluate_all run (h, []) (first :: es))) = es
         /\ ~ In first
              (Cache.keys (snd (evaluate_all run (h, []) (first :: es))))
         /\ Cache.size (snd (evaluate_all run (h, []) (first :: es)))
            = 101%nat).
Proof.
  split; [|split; [|split]].
  - intros h c Hr. apply reachable_ok in Hr. cbn [snd] in Hr.
    split; [exact (ok_size run c Hr)|].
    exact (proj1 (proj2 (evict_ok run c Hr))).
  - intros h es. apply evaluate_all_from_empty.
  - intros h es Hnd Hall Hlen. rewrite evaluate_all_from_empty by assumption.
    rewrite Hlen. reflexivity.
  - intros h first es Hnd Hall Hlen.
    assert (Hk : Cache.keys
                   (snd (evaluate_all run (h, []) (first :: es))) = es).
    { rewrite evaluate_all_from_empty by assumption.
      cbn [List.length]. rewrite Hlen. reflexivity. }
    split; [exact Hk|]. split.
    + rewrite Hk. now inversion Hnd.
    + transitivity
        (List.length
           (Cache.keys (snd (evaluate_all run (h, []) (first :: es))))).
      * unfold Cache.size, Cache.keys. now rewrite length_map.
      * now rewrite Hk.
Qed.

Lemma cache_bound_and_eviction_order_witness :
  NoDup (numerals 102)
  /\ all_return (Engine.run sample_host) (loaded, []) (numerals 102) = true
  /\ Cache.keys
       (snd (evaluate_all (Engine.run sample_host) (loaded, [])
               (numerals 102)))
     = skipn (List.length (numerals 102) - 101) (numerals 102).
Proof.
  split; [exact numerals_distinct|]. split; [exact numerals_return|].
  exact (proj1 (proj2 (cache_bound_and_eviction_order
                         _ (Engine.run sample_host)))
           loaded (numerals 102) numerals_distinct numerals_return).
Defined.

(** ** The math context *)

Section Methods.
Context {R : Type}.
Variable H : Engine.Host R.

(** A call of a function of the context on one argument. *)
Lemma eval_method (r : R) (s : Engine.context) (p : string) (f : builtin)
  (a : Engine.expr) (x : number) :
  Engine.property s p = Some (VFunction f) ->
  Engine.eval H r a s = Some (Normal (VNumber x), s) ->
  Engine.eval H r
    (Engine.ECall (Engine.EMember (Engine.EVar "Math") p) [a]) s
  = option_map (fun c => (c, s)) (Engine.apply H r (VFunction f) [VNumber x]).
Proof.
  intros Hp Ha. cbn [Engine.eval].
  change (Engine.lookup H r "Math") with (@Normal value VContext).
  cbn iota. rewrite Hp. cbn [option_map]. now rewrite Ha.
Qed.

(** The call as text, when the function throws. *)
Lemma run_method_throws (h : Engine.realm R) (text p : string) (f : builtin)
  (a : Engine.expr) (x : number) (k : CalculationError) :
  Engine.read text
  = Some (Engine.ECall (Engine.EMember (Engine.EVar "Math") p) [a]) ->
  mathContext.property p = Some (VFunction f) ->
  (forall r s, Engine.eval H r a s = Some (Normal (VNumber x), s)) ->
  (forall M, mathContext.call M f [x] = Some (throw_error k)) ->
  untouched h p ->
  Engine.run H h text = (throw_error k, h).
Proof.
  intros Hread Hlit Ha Hcall Hp. destruct h as [s r].
  unfold untouched in Hp. cbn [Engine.heap] in Hp. rewrite Hlit in Hp.
  unfold Engine.run. rewrite Hread. cbn [Engine.rest Engine.heap].
  rewrite (eval_method r s p f a x Hp (Ha r s)).
  unfold Engine.apply. cbn [Engine.numbers option_map].
  now rewrite Hcall.
Qed.

Lemma run_tan_bare (h : Engine.realm R) :
  Engine.global H (Engine.rest h) "tan" = None ->
  Engine.run H h "tan(90)" = (Throw (ErrorObject "tan is not defined"), h).
Proof.
  intros Hg. destruct h as [s r]. cbn [Engine.rest] in Hg.
  unfold Engine.run.
  change (Engine.read "tan(90)")
    with (Some (Engine.ECall (Engine.EVar "tan") [Engine.ELit (Num.of_Z 90)])).
  cbn [Engine.eval Engine.rest Engine.heap]. unfold Engine.lookup. cbn.
  now rewrite Hg.
Qed.

(** A call that the cache does not answer, for a text on which the host
    throws and leaves the realm as it is. *)
Lemma call_throws (h : Engine.realm R) (c : Cache.t) (e : string)
  (t : thrown) :
  well_formed (sanitize e) = true ->
  openCount (sanitize e) = closeCount (sanitize e) ->
  Engine.run H h (sanitize e) = (Throw t, h) ->
  Cache.get e (evict c) = None ->
  safeEvaluate (Engine.run H) (h, c) e = (Fails (reclassify t), (h, evict c)).
Proof.
  intros Hwf Hb Hrun Hget.
  rewrite (call_evaluates (Engine.run H) h c e Hget Hwf Hb).
  unfold answer. now rewrite Hrun.
Qed.

End Methods.

(** C7, counterexample: in the body [return tan(90)] the name [tan] is not
    bound (only [Math] is), the host reports a [ReferenceError] and the call
    fails with SYNTAX, not with UNDEFINED. *)
Lemma bare_tan_is_a_syntax_failure :
  answer (Engine.run sample_host) loaded "tan(90)"
  = Throw (ErrorObject "tan is not defined")
  /\ fst (safeEvaluate (Engine.run sample_host) (loaded, []) "tan(90)")
     = Fails SYNTAX
  /\ Fails SYNTAX <> Fails UNDEFINED.
Proof.
  split; [reflexivity|]. split; [reflexivity | discriminate].
Qed.

(** C7, amended: [mathContext.tan] throws the UNDEFINED error exactly when
    the normalized angle is less than 1e-10 away from 90 or from 270, and
    then no value is returned; the calls [Math.tan(90)], [Math.tan(270)] and
    [Math.tan(-90)], on a context whose [tan] is the one of the object
    literal and when the cache does not answer, fail with UNDEFINED and
    leave the realm as it is.  The bare [tan(90)], with [tan] not bound by
    the host, fails with SYNTAX. *)
Theorem tan_is_undefined_at_asymptotes :
  (forall M x,
      mathContext.tan M x = throw_error UNDEFINED
      <-> mathContext.near (mathContext.normalize x) 90
          || mathContext.near (mathContext.normalize x) 270 = true)
  /\ (forall (R : Type) (H : Engine.Host R) h c text,
         In text ["Math.tan(90)"; "Math.tan(270)"; "Math.tan(-90)"] ->
         untouched h "tan" ->
         Cache.get text (evict c) = None ->
         safeEvaluate (Engine.run H) (h, c) text
         = (Fails UNDEFINED, (h, evict c)))
  /\ (forall (R : Type) (H : Engine.Host R) h c,
         Engine.global H (Engine.rest h) "tan" = None ->
         Cache.get "tan(90)" (evict c) = None ->
         safeEvaluate (Engine.run H) (h, c) "tan(90)"
         = (Fails SYNTAX, (h, evict c))).
Proof.
  split; [|split].
  - intros M x. unfold mathContext.tan.
    destruct (mathContext.near (mathContext.normalize x) 90
              || mathContext.near (mathContext.normalize x) 270).
    + split; reflexivity.
    + split; [|discriminate].
      repeat match goal with
             | |- context [if ?b then _ else _] => destruct b
             end; discriminate.
  - intros R H h c text Hin Htan Hget. cbn in Hin.
    destruct Hin as [<-|[<-|[<-|[]]]];
      apply (call_throws H h c _ (ErrorObject (message UNDEFINED)));
      try reflexivity; try exact Hget.
    + apply (run_method_throws H h _ "tan" F_tan
               (Engine.ELit (Num.of_Z 90)) (Num.of_Z 90));
        try reflexivity; exact Htan.
    + apply (run_method_throws H h _ "tan" F_tan
               (Engine.ELit (Num.of_Z 270)) (Num.of_Z 270));
        try reflexivity; exact Htan.
    + apply (run_method_throws H h _ "tan" F_tan
               (Engine.ENeg (Engine.ELit (Num.of_Z 90))) (Num.of_Z (-90)));
        try reflexivity; exact Htan.
  - intros R H h c Hg Hget.
    apply (call_throws H h c "tan(90)" (ErrorObject "tan is not defined"));
      try reflexivity; [|exact Hget].
    exact (run_tan_bare H h Hg).
Qed.

Lemma tan_is_undefined_at_asymptotes_witness :
  mathContext.near (mathContext.normalize (Num.of_Z 450)) 90 = true
  /\ mathContext.tan sample_math (Num.of_Z 450) = throw_error UNDEFINED
  /\ untouched loaded "tan"
  /\ safeEvaluate (Engine.run sample_host) (loaded, []) "Math.tan(90)"
     = (Fails UNDEFINED, (loaded, []))
  /\ Engine.global sample_host tt "tan" = None
  /\ safeEvaluate (Engine.run sample_host) (loaded, []) "tan(90)"
     = (Fails SYNTAX, (loaded, [])).
Proof.
  pose proof tan_is_undefined_at_asymptotes as (Htan & Hcall & Hbare).
  split; [reflexivity|].
  split; [exact (proj2 (Htan sample_math (Num.of_Z 450)) eq_refl)|].
  split; [reflexivity|].
  split; [exact (Hcall _ sample_host loaded [] "Math.tan(90)"
                   (or_introl eq_refl) eq_refl eq_refl)|].
  split; [reflexivity|].
  exact (Hbare _ sample_host loaded [] eq_refl eq_refl).
Defined.

(** C8: [asin] and [acos] throw the DOMAIN error exactly when [|x| > 1],
    [log] and [ln] exactly when [x <= 0], [sqrt] exactly when [x < 0];
    otherwise each returns the value of the host's function, in degrees for
    [asin] and [acos].  Through [safeEvaluate], [Math.sqrt(-1)],
    [Math.log(0)], [Math.ln(0)], [Math.asin(2)] and [Math.acos(-1.5)], on a
    context whose function is the one of the object literal and when the
    cache does not answer, fail with DOMAIN and leave the realm as it
    is. *)
Theorem domain_errors :
  (forall M x,
      (mathContext.asin M x = throw_error DOMAIN
       <-> Num.gtb (Num.abs x) (Num.of_Z 1) = true)
      /\ (Num.gtb (Num.abs x) (Num.of_Z 1) = false ->
          mathContext.asin M x
          = Normal (Num.div (Num.mul (Math_asin M x) (Num.of_Z 180)) Num.PI))
      /\ (mathContext.acos M x = throw_error DOMAIN
          <-> Num.gtb (Num.abs x) (Num.of_Z 1) = true)
      /\ (Num.gtb (Num.abs x) (Num.of_Z 1) = false ->
          mathContext.acos M x
          = Normal (Num.div (Num.mul (Math_acos M x) (Num.of_Z 180)) Num.PI))
      /\ (mathContext.log M x = throw_error DOMAIN
          <-> Num.leb x (Num.of_Z 0) = true)
      /\ (Num.leb x (Num.of_Z 0) = false ->
          mathContext.log M x = Normal (Math_log10 M x))
      /\ (mathContext.ln M x = throw_error DOMAIN
          <-> Num.leb x (Num.of_Z 0) = true)
      /\ (Num.leb x (Num.of_Z 0) = false ->
          mathContext.ln M x = Normal (Math_log M x))
      /\ (mathContext.sqrt M x = throw_error DOMAIN
          <-> Num.ltb x (Num.of_Z 0) = true)
      /\ (Num.ltb x (Num.of_Z 0) = false ->
          mathContext.sqrt M x = Normal (Math_sqrt M x)))
  /\ (forall (R : Type) (H : Engine.Host R) h c text name,
         In (text, name)
           [ ("Math.sqrt(-1)", "sqrt"); ("Math.log(0)", "log");
             ("Math.ln(0)", "ln"); ("Math.asin(2)", "asin");
             ("Math.acos(-1.5)", "acos") ] ->
         untouched h name ->
         Cache.get text (evict c) = None ->
         safeEvaluate (Engine.run H) (h, c) text
         = (Fails DOMAIN, (h, evict c))).
Proof.
  split.
  - intros M x.
    unfold mathContext.asin, mathContext.acos, mathContext.log,
      mathContext.ln, mathContext.sqrt, mathContext.degrees, mathContext.lit.
    destruct (Num.gtb (Num.abs x) (Num.of_Z 1));
      destruct (Num.leb x (Num.of_Z 0));
      destruct (Num.ltb x (Num.of_Z 0));
      repeat split; intros; try reflexivity; try discriminate.
  - intros R H h c text name Hin Hname Hget. cbn in Hin.
    destruct Hin as [Heq|[Heq|[Heq|[Heq|[Heq|[]]]]]];
      injection Heq as <- <-;
      apply (call_throws H h c _ (ErrorObject (message DOMAIN)));
      try reflexivity; try exact Hget.
    + apply (run_method_throws H h _ "sqrt" F_sqrt
               (Engine.ENeg (Engine.ELit (Num.of_Z 1))) (Num.of_Z (-1)));
        try reflexivity; exact Hname.
    + apply (run_method_throws H h _ "log" F_log
               (Engine.ELit (Num.of_Z 0)) (Num.of_Z 0));
        try reflexivity; exact Hname.
    + apply (run_method_throws H h _ "ln" F_ln
               (Engine.ELit (Num.of_Z 0)) (Num.of_Z 0));
        try reflexivity; exact Hname.
    + apply (run_method_throws H h _ "asin" F_asin
               (Engine.ELit (Num.of_Z 2)) (Num.of_Z 2));
        try reflexivity; exact Hname.
    + apply (run_method_throws H h _ "acos" F_acos
               (Engine.ENeg (Engine.ELit (Num.of_decimal 15 (-1))))
               (Num.of_decimal (-15) (-1)));
        try reflexivity; exact Hname.
Qed.

Lemma domain_errors_witness :
  Num.ltb (Num.of_Z 16) (Num.of_Z 0) = false
  /\ mathContext.sqrt sample_math (Num.of_Z 16) = Normal (Num.of_Z 4)
  /\ Num.ltb (Num.of_Z (-1)) (Num.of_Z 0) = true
  /\ mathContext.sqrt sample_math (Num.of_Z (-1)) = throw_error DOMAIN
  /\ untouched loaded "log"
  /\ safeEvaluate (Engine.run sample_host) (loaded, []) "Math.log(0)"
     = (Fails DOMAIN, (loaded, [])).
Proof.
  pose proof domain_errors as (Hfun & Hcall).
  split; [reflexivity|].
  pose proof (proj2 (proj2 (proj2 (proj2 (proj2 (proj2 (proj2 (proj2
                (Hfun sample_math (Num.of_Z 16))))))))))
    as [_ Hin].
  pose proof (proj2 (proj2 (proj2 (proj2 (proj2 (proj2 (proj2 (proj2
                (Hfun sample_math (Num.of_Z (-1)))))))))))
    as [Hout _].
  split; [exact (Hin eq_refl)|].
  split; [reflexivity|].
  split; [exact (proj2 Hout eq_refl)|].
  split; [reflexivity|].
  exact (Hcall _ sample_host loaded [] "Math.log(0)" "log"
           (or_intror (or_introl eq_refl)) eq_refl eq_refl).
Defined.

(** ** The formatter *)

Lemma tiny_spec (n : number) :
  tiny n = Num.ltb (Num.abs n) (Num.of_decimal 1 (-10))
           && negb (Num.eqb n (Num.of_Z 0)).
Proof.
  unfold tiny. change (Num.of_Z 0) with (S754_zero false).
  destruct n as [s|s| |s m e]; try reflexivity.
  unfold Num.eqb, SFeqb. cbn [Num.abs SFabs SFcompare].
  change (Num.ltb (S754_zero false) (S754_finite false m e)) with true.
  destruct s; cbn [negb andb]; now rewrite andb_true_r.
Qed.

Lemma digit_char_is_digit (d : Z) :
  HostNumber.is_digit (Text.digit_char d) = true.
Proof.
  unfold HostNumber.is_digit, Text.digit_char.
  pose proof (Z.mod_pos_bound d 10 ltac:(lia)) as Hd.
  rewrite nat_ascii_embedding by lia.
  apply andb_true_intro. split; apply Nat.leb_le; lia.
Qed.

Lemma digit_not_minus (c : ascii) :
  HostNumber.is_digit c = true -> Ascii.eqb c "-" = false.
Proof.
  intros Hc. destruct (Ascii.eqb_spec c "-") as [->|]; [discriminate|].
  reflexivity.
Qed.

Lemma digits_onto_digits (w : nat) :
  forall n tail,
    all_digits tail = true -> all_digits (Text.digits_onto w n tail) = true.
Proof.
  induction w as [|w IH]; intros n tail Ht; cbn [Text.digits_onto];
    [exact Ht|].
  apply IH. cbn [all_digits]. now rewrite digit_char_is_digit.
Qed.

Lemma digits_onto_nonempty (w : nat) :
  forall n tail,
    tail <> EmptyString -> Text.digits_onto w n tail <> EmptyString.
Proof.
  induction w as [|w IH]; intros n tail Ht; cbn [Text.digits_onto];
    [exact Ht|].
  apply IH. discriminate.
Qed.

Lemma decimal_digits (z : Z) :
  all_digits (Text.decimal z) = true /\ Text.decimal z <> EmptyString.
Proof.
  unfold Text.decimal. destruct (Z.leb_spec z 0) as [Hz|Hz].
  - split; [reflexivity | discriminate].
  - split; [now apply digits_onto_digits|].
    unfold Text.digits_fixed, Text.num_digits. cbn [Text.count_digits].
    destruct (Z.leb_spec z 0); [lia|]. cbn [Text.digits_onto].
    apply digits_onto_nonempty. discriminate.
Qed.

Lemma exponent_part_shape (e : Z) :
  exists sg x0 x,
    HostNumber.exponent_part e = String "e" (String sg (String x0 x))
    /\ (Ascii.eqb sg "+" || Ascii.eqb sg "-") = true
    /\ all_digits (String x0 x) = true.
Proof.
  unfold HostNumber.exponent_part.
  destruct (decimal_digits (Z.abs e)) as [Hd Hne].
  destruct (Text.decimal (Z.abs e)) as [|x0 x]; [contradiction|].
  destruct (0 <=? e)%Z; cbn; eauto 6.
Qed.

(** The exponential rendering of a finite number has one digit, a point,
    four digits and an exponent. *)
Lemma toExponential_shape (n : number) :
  Num.isFinite n = true ->
  exponential4 (HostNumber.toExponential 4 n) = true.
Proof.
  destruct n as [s|s| |s m e]; try discriminate; intros _.
  - reflexivity.
  - unfold HostNumber.toExponential.
    destruct (HostNumber.ratio m e) as [p q].
    destruct (HostNumber.round_digits (Z.of_nat 5) p q) as [k e10].
    destruct (exponent_part_shape e10) as (sg & x0 & x & -> & Hsg & Hx).
    unfold Text.digits_fixed.
    cbn [Text.digits_onto HostNumber.point_after_first].
    destruct s; unfold exponential4;
      cbn [Text.sign_text append unsigned];
      rewrite ?(digit_not_minus _ (digit_char_is_digit _));
      cbn [Ascii.eqb Bool.eqb]; cbn [append];
      rewrite !digit_char_is_digit, Hsg, Hx; reflexivity.
Qed.

Lemma digits_no_point (s : string) : all_digits s = true -> no_point s.
Proof.
  unfold no_point. induction s as [|d s IH]; cbn [all_digits Text.count_char];
    [reflexivity|].
  intros H. apply andb_prop in H. destruct H as [Hd Hs].
  rewrite (IH Hs). destruct (Ascii.eqb_spec "." d) as [<-|]; [discriminate|].
  reflexivity.
Qed.

Lemma group_no_point (fuel : nat) :
  forall n, no_point (en_US.group fuel n).
Proof.
  induction fuel as [|f IH]; intros n; cbn [en_US.group].
  - apply digits_no_point, decimal_digits.
  - destruct (n <? 1000)%Z; [apply digits_no_point, decimal_digits|].
    unfold no_point. rewrite !count_char_app, (IH (n / 1000)%Z).
    rewrite (digits_no_point (Text.digits_fixed 3 (n mod 1000)));
      [reflexivity|].
    now apply digits_onto_digits.
Qed.

(** In the locale [en-US] the text of a finite number has no point. *)
Lemma en_US_no_point (n : number) :
  Num.isFinite n = true -> no_point (en_US.toLocaleString n).
Proof.
  destruct n as [s|s| |s m e]; try discriminate; intros _;
    unfold en_US.toLocaleString, no_point.
  - destruct s; reflexivity.
  - destruct (HostNumber.ratio m e) as [p q].
    rewrite count_char_app, group_no_point. destruct s; reflexivity.
Qed.

(** C9: the rules of [formatNumber], in order.  A number with
    [0 < |n| < 1e-10] is rendered by [toExponential(4)]; else one with
    [|n| > 1e9] is rendered the same way; else an integer is rendered by the
    locale with no fraction digits.  The exponential rendering of a finite
    number has four digits after the point; in the locale [en-US] the text
    of a finite number has no point, and the text for 1000000 is
    ["1,000,000"]. *)
Theorem formatNumber_rules :
  (forall toLocaleString n,
      (tiny n = true ->
       formatNumber toLocaleString n = HostNumber.toExponential 4 n)
      /\ (tiny n = false -> huge n = true ->
          formatNumber toLocaleString n = HostNumber.toExponential 4 n)
      /\ (tiny n = false -> huge n = false -> Num.isInteger n = true ->
          formatNumber toLocaleString n = toLocaleString n))
  /\ (forall n,
         Num.isFinite n = true ->
         exponential4 (HostNumber.toExponential 4 n) = true)
  /\ (forall n,
         Num.isFinite n = true -> no_point (en_US.toLocaleString n))
  /\ formatNumber en_US.toLocaleString (Num.of_Z 1000000) = "1,000,000"
  /\ formatNumber en_US.toLocaleString (Num.of_decimal 1 (-11)) = "1.0000e-11"
  /\ formatNumber en_US.toLocaleString (Num.of_decimal 25 8) = "2.5000e+9".
Proof.
  split; [|split; [exact toExponential_shape|];
           split; [exact en_US_no_point | repeat split]].
  intros toLocaleString n. unfold formatNumber, huge.
  rewrite <- (tiny_spec n).
  repeat split.
  - intros ->. reflexivity.
  - intros -> ->. reflexivity.
  - intros -> -> ->. reflexivity.
Qed.

Lemma formatNumber_rules_witness :
  tiny (Num.of_decimal 5 (-12)) = true
  /\ formatNumber en_US.toLocaleString (Num.of_decimal 5 (-12)) = "5.0000e-12"
  /\ tiny (Num.of_Z (-1234567)) = false
  /\ huge (Num.of_Z (-1234567)) = false
  /\ Num.isInteger (Num.of_Z (-1234567)) = true
  /\ formatNumber en_US.toLocaleString (Num.of_Z (-1234567)) = "-1,234,567".
Proof.
  pose proof (proj1 formatNumber_rules en_US.toLocaleString) as H.
  split; [reflexivity|].
  split; [exact (proj1 (H (Num.of_decimal 5 (-12))) eq_refl)|].
  split; [reflexivity|]. split; [reflexivity|]. split; [reflexivity|].
  exact (proj2 (proj2 (H (Num.of_Z (-1234567)))) eq_refl eq_refl eq_refl).
Defined.

(** C4, at numbers where the code departs from it: 110.00000000000001 (the
    value of [1.1*100]), 100.0000000000001 and 1e-10 are finite, not
    integers and within [1e-10, 1e9].  Rounded to 12 significant digits they
    read ["110"], ["100"] and ["1e-10"]; [formatNumber] gives ["11"], ["1"]
    and ["1e-1"], having taken zeros of the integer part and of the exponent
    for trailing zeros.  Where the rounded text ends in no zero, as for
    123.456789012345, the digits are kept. *)
Theorem formatNumber_strips_significant_zeros :
  forall toLocaleString,
    let in_range (n : number) :=
      Num.isFinite n = true /\ Num.isInteger n = false
      /\ Num.leb (Num.of_decimal 1 (-10)) (Num.abs n) = true
      /\ Num.leb (Num.abs n) (Num.of_decimal 1 9) = true in
    let rounded (n : number) :=
      HostNumber.toString (HostNumber.Number (HostNumber.toPrecision 12 n)) in
    let a := Num.mul (Num.of_decimal 11 (-1)) (Num.of_Z 100) in
    let b := Num.of_decimal 1000000000000001 (-13) in
    let c := Num.of_decimal 1 (-10) in
    (forall (R : Type) (H : Engine.Host R) h,
        safeEvaluate (Engine.run H) (h, []) "1.1*100"
        = (Returns a, (h, [("1.1*100", a)])))
    /\ (in_range a /\ HostNumber.toString a = "110.00000000000001"
        /\ rounded a = "110" /\ formatNumber toLocaleString a = "11")
    /\ (in_range b /\ HostNumber.toPrecision 12 b = "100.000000000"
        /\ rounded b = "100" /\ formatNumber toLocaleString b = "1")
    /\ (in_range c /\ rounded c = "1e-10"
        /\ formatNumber toLocaleString c = "1e-1")
    /\ formatNumber toLocaleString (Num.of_decimal 123456789012345 (-12))
       = "123.456789012".
Proof.
  intros toLocaleString. cbv zeta.
  split; [intros R H [s r]; vm_compute; reflexivity|].
  repeat split; vm_compute; reflexivity.
Qed.

(** * Further properties *)

(** ** The evaluator and its cache *)

(** X1: what a call does to the realm and to the cache, on a state that
    calls have reached.  When the cache answers, the realm stays as it is;
    otherwise it is the realm that the evaluation left.  The cache is the
    one the size check left, with the new result last when the expression
    was not there and evaluated to a number.  For a text whose answer is the
    same in every state of the realm, the outcome is the one that its
    evaluation gives with nothing cached, whether the cache answers or
    not. *)
Theorem safeEvaluate_through_the_cache
  (realm : Type) (run : realm -> string -> completion value * realm)
  (h : realm) (c : Cache.t) (e : string) :
  reachable run (h, c) ->
  snd (safeEvaluate run (h, c) e)
  = (match Cache.get e (evict c) with
     | Some _ => h
     | None => after run h e
     end,
     match Cache.get e (evict c), fresh run h e with
     | None, Returns v => evict c ++ [(e, v)]
     | _, _ => evict c
     end)
  /\ (Cache.get e (evict c) = None ->
      fst (safeEvaluate run (h, c) e) = fresh run h e)
  /\ (stateless run (sanitize e) ->
      fst (safeEvaluate run (h, c) e) = fresh run h e).
Proof.
  intros Hr. apply reachable_ok in Hr. cbn [snd] in Hr.
  destruct (Cache.get e (evict c)) as [v|] eqn:Hget.
  - rewrite (safeEvaluate_hit run h c e v Hget). cbn [fst snd].
    split; [reflexivity|]. split; [discriminate|].
    intros Hst. now rewrite (hit_is_fresh run h c e v Hr Hst Hget).
  - rewrite (safeEvaluate_miss run h c e Hget). cbn [fst snd].
    split; [|split; reflexivity].
    destruct (fresh run h e) as [v|k]; [|reflexivity].
    now rewrite (set_absent e v _ Hget).
Qed.

Lemma safeEvaluate_through_the_cache_witness :
  reachable (Engine.run sample_host) (loaded, [("2+2", Num.of_Z 4)])
  /\ snd (safeEvaluate (Engine.run sample_host)
            (loaded, [("2+2", Num.of_Z 4)]) "3*3")
     = (loaded, [("2+2", Num.of_Z 4); ("3*3", Num.of_Z 9)])
  /\ stateless (Engine.run sample_host) (sanitize "2+2")
  /\ fst (safeEvaluate (Engine.run sample_host)
            (loaded, [("2+2", Num.of_Z 4)]) "2+2")
     = fresh (Engine.run sample_host) loaded "2+2".
Proof.
  assert (Hr : reachable (Engine.run sample_host)
                 (loaded, [("2+2", Num.of_Z 4)]))
    by exact (reachable_call (Engine.run sample_host) (loaded, []) "2+2"
                (reachable_empty _ loaded)).
  assert (Hst : stateless (Engine.run sample_host) (sanitize "2+2"))
    by (intros [s []] [s' []]; reflexivity).
  split; [exact Hr|]. split; [|split; [exact Hst|]].
  - exact (proj1 (safeEvaluate_through_the_cache _ _ _ _ "3*3" Hr)).
  - exact (proj2 (proj2 (safeEvaluate_through_the_cache _ _ _ _ "2+2" Hr))
             Hst).
Defined.

(** X2: a number that [safeEvaluate] returns is finite, also when the cache
    answers: neither [NaN] nor an infinity comes out of a call. *)
Theorem safeEvaluate_returns_finite
  (realm : Type) (run : realm -> string -> completion value * realm)
  (h : realm) (c : Cache.t) (e : string) (v : number) :
  reachable run (h, c) ->
  fst (safeEvaluate run (h, c) e) = Returns v ->
  Num.isFinite v = true.
Proof.
  intros Hr Hv. apply reachable_ok in Hr. cbn [snd] in Hr.
  destruct (Cache.get e (evict c)) as [w|] eqn:Hget.
  - rewrite (safeEvaluate_hit run h c e w Hget) in Hv. injection Hv as ->.
    destruct (evict_ok run c Hr) as (_ & _ & Hin).
    now destruct (ok_entries run c Hr e v (Hin _ (get_some_in e v _ Hget)))
      as (_ & _ & _ & Hfin).
  - rewrite (safeEvaluate_miss run h c e Hget) in Hv. cbn [fst] in Hv.
    apply fresh_returns in Hv. now destruct Hv as (_ & _ & _ & Hfin).
Qed.

Lemma safeEvaluate_returns_finite_witness :
  reachable (Engine.run sample_host) (loaded, [("2+2", Num.of_Z 4)])
  /\ fst (safeEvaluate (Engine.run sample_host)
            (loaded, [("2+2", Num.of_Z 4)]) "2+2")
     = Returns (Num.of_Z 4)
  /\ Num.isFinite (Num.of_Z 4) = true.
Proof.
  assert (Hr : reachable (Engine.run sample_host)
                 (loaded, [("2+2", Num.of_Z 4)]))
    by exact (reachable_call (Engine.run sample_host) (loaded, []) "2+2"
                (reachable_empty _ loaded)).
  split; [exact Hr|]. split; [reflexivity|].
  exact (safeEvaluate_returns_finite _ _ _ _ "2+2" _ Hr eq_refl).
Defined.

(** X3: white space is taken out before the evaluation but not before the
    lookup.  Two expressions that differ in white space only have the same
    outcome when each is evaluated in the same realm with nothing cached.
    Yet each is a key of its own: after the first has returned a number and
    is stored, the second is not answered from the cache but evaluated
    again, in the realm the first call left, and stored beside it when it
    returns a number, the same number when the host answers as it did. *)
Theorem white_space_is_ignored_but_keyed
  (realm : Type) (run : realm -> string -> completion value * realm)
  (e1 e2 : string) :
  sanitize e1 = sanitize e2 ->
  (forall h, fresh run h e1 = fresh run h e2)
  /\ (forall h v,
         e1 <> e2 -> fresh run h e1 = Returns v ->
         evaluate_all run (h, []) [e1; e2]
         = (after run (after run h e1) e2,
            match fresh run (after run h e1) e2 with
            | Returns w => [(e1, v); (e2, w)]
            | Fails _ => [(e1, v)]
            end)
         /\ (answer run (after run h e1) (sanitize e2)
             = answer run h (sanitize e1) ->
             snd (evaluate_all run (h, []) [e1; e2])
             = [(e1, v); (e2, v)])).
Proof.
  intros Hs. split.
  - intros h. apply fresh_answer; [exact Hs | now rewrite Hs].
  - intros h v Hne Hv.
    assert (Hcalls : evaluate_all run (h, []) [e1; e2]
                     = (after run (after run h e1) e2,
                        match fresh run (after run h e1) e2 with
                        | Returns w => [(e1, v); (e2, w)]
                        | Fails _ => [(e1, v)]
                        end)).
    { cbn [evaluate_all].
      pose proof (safeEvaluate_miss run h [] e1 eq_refl) as H1.
      rewrite Hv in H1.
      change (evict []) with (@nil (string * number)) in H1.
      cbn [Cache.set] in H1.
      replace (safeEvaluate run (h, []) e1)
        with (Returns v, (after run h e1, [(e1, v)]))
        by (symmetry; exact H1).
      cbn [snd].
      assert (Hget : Cache.get e2 (evict [(e1, v)]) = None).
      { change (evict [(e1, v)]) with [(e1, v)]. cbn [Cache.get].
        destruct (String.eqb_spec e2 e1) as [->|_];
          [contradiction | reflexivity]. }
      rewrite (safeEvaluate_miss run _ _ e2 Hget). cbn [snd].
      change (evict [(e1, v)]) with [(e1, v)].
      destruct (fresh run (after run h e1) e2) as [w|k]; [|reflexivity].
      cbn [Cache.set].
      destruct (String.eqb_spec e2 e1) as [->|_];
        [contradiction | reflexivity]. }
    split; [exact Hcalls|]. intros Hsame. rewrite Hcalls. cbn [snd].
    rewrite (fresh_answer run (after run h e1) h e2 e1 (eq_sym Hs) Hsame).
    now rewrite Hv.
Qed.

Lemma white_space_is_ignored_but_keyed_witness :
  sanitize "2 + 2" = sanitize "2+2"
  /\ "2 + 2" <> "2+2"
  /\ fresh (Engine.run sample_host) loaded "2 + 2" = Returns (Num.of_Z 4)
  /\ evaluate_all (Engine.run sample_host) (loaded, []) ["2 + 2"; "2+2"]
     = (loaded, [("2 + 2", Num.of_Z 4); ("2+2", Num.of_Z 4)]).
Proof.
  split; [reflexivity|]. split; [discriminate|]. split; [reflexivity|].
  apply (proj1 (proj2 (white_space_is_ignored_but_keyed
                         _ (Engine.run sample_host) "2 + 2" "2+2" eq_refl)
                  loaded (Num.of_Z 4) ltac:(discriminate) eq_refl)).
Defined.

(** X4: the size check comes before the lookup.  When the cache holds 101
    entries, a call for its oldest key does not find it: the entry is
    evicted and the expression is evaluated again by the host; what the
    host answers now decides, and a number it gives is stored as the
    newest entry. *)
Theorem oldest_key_is_evicted_before_the_lookup
  (realm : Type) (run : realm -> string -> completion value * realm)
  (h : realm) (c : Cache.t) (k : string) (v : number) :
  reachable run (h, c) ->
  Cache.size c = 101%nat ->
  hd_error c = Some (k, v) ->
  Cache.get k (evict c) = None
  /\ safeEvaluate run (h, c) k
     = (classify (answer run h (sanitize k)),
        (snd (run h (sanitize k)),
         match classify (answer run h (sanitize k)) with
         | Returns w => tl c ++ [(k, w)]
         | Fails _ => tl c
         end))
  /\ (answer run h (sanitize k) = Normal (VNumber v) ->
      safeEvaluate run (h, c) k
      = (Returns v, (snd (run h (sanitize k)), tl c ++ [(k, v)]))).
Proof.
  intros Hr Hsz Hhd. pose proof (reachable_ok run _ Hr) as Hok.
  cbn [snd] in Hok.
  destruct c as [|[k' v'] r]; [discriminate|].
  cbn in Hhd. injection Hhd as -> ->. cbn [tl].
  pose proof (ok_keys run _ Hok) as Hnd.
  assert (Hev : evict ((k, v) :: r) = r) by (apply evict_full; [exact Hnd|lia]).
  assert (Hget : Cache.get k r = None).
  { apply get_none_iff. cbn in Hnd. now inversion Hnd. }
  destruct (ok_entries run _ Hok k v (or_introl eq_refl))
    as (Hwf & Hb & _ & Hfin).
  pose proof (call_evaluates run h ((k, v) :: r) k) as Hcall.
  rewrite Hev in Hcall. specialize (Hcall Hget Hwf Hb).
  rewrite Hev. split; [exact Hget|]. split; [exact Hcall|].
  intros Ha. rewrite Hcall, Ha. cbn [classify]. now rewrite Hfin.
Qed.

Lemma oldest_key_is_evicted_before_the_lookup_witness :
  reachable (Engine.run sample_host)
    (loaded,
     snd (evaluate_all (Engine.run sample_host) (loaded, []) (numerals 101)))
  /\ Cache.size
       (snd (evaluate_all (Engine.run sample_host) (loaded, [])
               (numerals 101)))
     = 101%nat
  /\ hd_error
       (snd (evaluate_all (Engine.run sample_host) (loaded, [])
               (numerals 101)))
     = Some ("1", Num.of_Z 1)
  /\ Cache.get "1"
       (evict (snd (evaluate_all (Engine.run sample_host) (loaded, [])
                      (numerals 101))))
     = None
  /\ fst (safeEvaluate (Engine.run sample_host)
            (loaded,
             snd (evaluate_all (Engine.run sample_host) (loaded, [])
                    (numerals 101)))
            "1")
     = Returns (Num.of_Z 1).
Proof.
  assert (Hr : reachable (Engine.run sample_host)
                 (loaded,
                  snd (evaluate_all (Engine.run sample_host) (loaded, [])
                         (numerals 101)))).
  { replace (loaded,
             snd (evaluate_all (Engine.run sample_host) (loaded, [])
                    (numerals 101)))
      with (evaluate_all (Engine.run sample_host) (loaded, [])
              (numerals 101))
      by (vm_compute; reflexivity).
    exact (reachable_evaluate_all (Engine.run sample_host) (numerals 101)
             (loaded, []) (reachable_empty _ loaded)). }
  assert (Hsz : Cache.size
                  (snd (evaluate_all (Engine.run sample_host) (loaded, [])
                          (numerals 101)))
                = 101%nat) by (vm_compute; reflexivity).
  assert (Hhd : hd_error
                  (snd (evaluate_all (Engine.run sample_host) (loaded, [])
                          (numerals 101)))
                = Some ("1", Num.of_Z 1)) by (vm_compute; reflexivity).
  pose proof (oldest_key_is_evicted_before_the_lookup
                _ _ loaded _ "1" (Num.of_Z 1) Hr Hsz Hhd)
    as (Hmiss & _ & Hsame).
  split; [exact Hr|]. split; [exact Hsz|]. split; [exact Hhd|].
  split; [exact Hmiss|].
  now rewrite (Hsame eq_refl).
Defined.

(** ** The two checks on the raw text *)

Lemma all_allowed_sanitize (e : string) :
  all_allowed (sanitize e) = all_chars (fun c => is_space c || allowed c) e.
Proof.
  induction e as [|c r IH]; cbn [sanitize all_chars]; [reflexivity|].
  destruct (is_space c); cbn [orb andb all_allowed]; now rewrite IH.
Qed.

Lemma sanitize_empty (e : string) :
  sanitize e = EmptyString
  <-> any_char (fun c => negb (is_space c)) e = false.
Proof.
  induction e as [|c r IH]; cbn [sanitize any_char]; [tauto|].
  destruct (is_space c); cbn [negb orb]; [exact IH|].
  split; discriminate.
Qed.

Lemma space_not_allowed (c : ascii) : is_space c = true -> allowed c = false.
Proof.
  destruct c as [[] [] [] [] [] [] [] []]; vm_compute;
    first [reflexivity | discriminate].
Qed.

(** X5: the character check, read on the raw text: it passes exactly when
    every character is white space or in the class and one character at
    least is not white space.  White space is not in the class, so it is the
    removal that lets spaced input through; and sanitized text does not
    change when sanitized again. *)
Theorem character_check_on_raw_text (e : string) :
  well_formed (sanitize e)
  = all_chars (fun c => is_space c || allowed c) e
    && any_char (fun c => negb (is_space c)) e
  /\ (forall c, is_space c = true -> allowed c = false)
  /\ all_chars (fun c => negb (is_space c)) (sanitize e) = true
  /\ sanitize (sanitize e) = sanitize e.
Proof.
  split; [|split; [exact space_not_allowed|split]].
  - rewrite <- all_allowed_sanitize.
    destruct (any_char (fun c => negb (is_space c)) e) eqn:Hany.
    + rewrite andb_true_r.
      destruct (sanitize e) eqn:Hs; [|reflexivity].
      apply sanitize_empty in Hs. congruence.
    + rewrite andb_false_r. apply sanitize_empty in Hany. now rewrite Hany.
  - induction e as [|c r IH]; cbn [sanitize all_chars]; [reflexivity|].
    destruct (is_space c) eqn:Hc; [exact IH|].
    cbn [all_chars]. now rewrite Hc, IH.
  - induction e as [|c r IH]; cbn [sanitize]; [reflexivity|].
    destruct (is_space c) eqn:Hc; [exact IH|].
    cbn [sanitize]. now rewrite Hc, IH.
Qed.

(** ** The functions of the math context *)

(** X6: [sin], [cos] and [atan] never throw.  What a function of the context
    throws is an [Error] with the message of one kind, which both [catch]
    clauses give back unchanged: UNDEFINED from [tan] only, OVERFLOW from
    [pow] only, DOMAIN from [asin], [acos], [log], [ln] and [sqrt].  [pow]
    throws exactly when the host's power is not finite, [NaN] included, so
    the number it returns is finite. *)
Theorem context_errors_keep_their_kind (M : HostMath) :
  (forall x,
      mathContext.sin M x
      = Normal (Math_sin M (mathContext.radians (mathContext.normalize x)))
      /\ (exists y, mathContext.cos M x = Normal y)
      /\ mathContext.atan M x
         = Normal (mathContext.degrees (Math_atan M x)))
  /\ (forall f args t,
         mathContext.call M f args = Some (Throw t) ->
         exists k,
           t = ErrorObject (message k)
           /\ reclassify t = k
           /\ App.rethrown t = message k
           /\ (k = UNDEFINED /\ f = F_tan
               \/ k = OVERFLOW /\ f = F_pow
               \/ k = DOMAIN
                  /\ In f [F_asin; F_acos; F_log; F_ln; F_sqrt]))
  /\ (forall b x,
         (Num.isFinite (Math_pow M b x) = false ->
          mathContext.pow M b x = throw_error OVERFLOW)
         /\ (forall r, mathContext.pow M b x = Normal r ->
                       r = Math_pow M b x /\ Num.isFinite r = true)).
Proof.
  split; [|split].
  - intros x. split; [reflexivity|]. split; [|reflexivity].
    unfold mathContext.cos.
    repeat match goal with
           | |- context [if ?b then _ else _] => destruct b
           end; eauto.
  - intros f args t Hcall.
    destruct f; destruct args as [|x [|y [|z r]]]; try discriminate;
      cbn [mathContext.call] in Hcall; injection Hcall as Hcall.
    + unfold mathContext.cos in Hcall.
      repeat match type of Hcall with
             | context [if ?b then _ else _] => destruct b
             end; discriminate.
    + unfold mathContext.tan in Hcall.
      repeat match type of Hcall with
             | context [if ?b then _ else _] => destruct b
             end; try discriminate.
      injection Hcall as <-. exists UNDEFINED. cbn. intuition auto.
    + unfold mathContext.asin in Hcall.
      destruct (Num.gtb (Num.abs x) (mathContext.lit 1)); [|discriminate].
      injection Hcall as <-. exists DOMAIN. cbn. intuition auto.
    + unfold mathContext.acos in Hcall.
      destruct (Num.gtb (Num.abs x) (mathContext.lit 1)); [|discriminate].
      injection Hcall as <-. exists DOMAIN. cbn. intuition auto.
    + unfold mathContext.log in Hcall.
      destruct (Num.leb x (mathContext.lit 0)); [|discriminate].
      injection Hcall as <-. exists DOMAIN. cbn. intuition auto.
    + unfold mathContext.ln in Hcall.
      destruct (Num.leb x (mathContext.lit 0)); [|discriminate].
      injection Hcall as <-. exists DOMAIN. cbn. intuition auto.
    + unfold mathContext.sqrt in Hcall.
      destruct (Num.ltb x (mathContext.lit 0)); [|discriminate].
      injection Hcall as <-. exists DOMAIN. cbn. intuition auto.
    + unfold mathContext.pow in Hcall.
      destruct (Num.isFinite (Math_pow M x y)); [discriminate|].
      injection Hcall as <-. exists OVERFLOW. cbn. intuition auto.
  - intros b x. unfold mathContext.pow.
    destruct (Num.isFinite (Math_pow M b x)) eqn:Hfin; cbn [negb].
    + split; [discriminate|]. intros r [= <-]. auto.
    + split; [reflexivity|]. discriminate.
Qed.

Lemma context_errors_keep_their_kind_witness :
  mathContext.call sample_math F_sqrt [Num.of_Z (-1)]
  = Some (Throw (ErrorObject (message DOMAIN)))
  /\ exists k,
       ErrorObject (message DOMAIN) = ErrorObject (message k)
       /\ reclassify (ErrorObject (message DOMAIN)) = k
       /\ App.rethrown (ErrorObject (message DOMAIN)) = message k
       /\ (k = UNDEFINED /\ F_sqrt = F_tan
           \/ k = OVERFLOW /\ F_sqrt = F_pow
           \/ k = DOMAIN
              /\ In F_sqrt [F_asin; F_acos; F_log; F_ln; F_sqrt]).
Proof.
  split; [reflexivity|].
  exact (proj1 (proj2 (context_errors_keep_their_kind sample_math))
           F_sqrt [Num.of_Z (-1)] _ eq_refl).
Defined.

(** ** Whole numbers of degrees *)

Lemma same_number_eq (x y : number) : same_number x y = true -> x = y.
Proof.
  destruct x as [a|a| |a m e], y as [b|b| |b n f]; cbn;
    try discriminate; try reflexivity.
  - intros H. apply Bool.eqb_prop in H. now subst.
  - intros H. apply Bool.eqb_prop in H. now subst.
  - intros H. apply andb_prop in H. destruct H as [H He].
    apply andb_prop in H. destruct H as [Ha Hm].
    apply Bool.eqb_prop in Ha. apply Pos.eqb_eq in Hm. apply Z.eqb_eq in He.
    now subst.
Qed.

Lemma in_integers (lo : Z) (n : nat) (k : Z) :
  (lo <= k < lo + Z.of_nat n)%Z -> In k (integers lo n).
Proof.
  intros Hk. unfold integers. apply in_map_iff.
  exists (Z.to_nat (k - lo)). split; [lia|].
  apply in_seq. lia.
Qed.

Lemma checked_on_integers (p : Z -> bool) (lo : Z) (n : nat) :
  forallb p (integers lo n) = true ->
  forall k, (lo <= k < lo + Z.of_nat n)%Z -> p k = true.
Proof.
  intros H k Hk. rewrite forallb_forall in H. apply H.
  now apply in_integers.
Qed.

Lemma normalize_checked :
  forallb
    (fun k => same_number (mathContext.normalize (Num.of_Z k))
                (Num.of_Z (k mod 360)))
    (integers (-3600) (Z.to_nat 7201)) = true.
Proof. vm_compute. reflexivity. Qed.

Lemma normalize_whole (k : Z) :
  (-3600 <= k <= 3600)%Z ->
  mathContext.normalize (Num.of_Z k) = Num.of_Z (k mod 360).
Proof.
  intros Hk. apply same_number_eq.
  apply (checked_on_integers _ _ _ normalize_checked). lia.
Qed.

Lemma angle_tests_checked :
  forallb angle_tests_agree (integers 0 (Z.to_nat 360)) = true.
Proof. vm_compute. reflexivity. Qed.

Lemma angle_tests_whole (j : Z) :
  (0 <= j < 360)%Z ->
  (forall z, In z angles ->
             mathContext.at_angle (Num.of_Z j) z = (j =? z)%Z)
  /\ mathContext.near (Num.of_Z j) 90 = (j =? 90)%Z
  /\ mathContext.near (Num.of_Z j) 270 = (j =? 270)%Z.
Proof.
  intros Hj.
  pose proof (checked_on_integers _ _ _ angle_tests_checked j
                ltac:(lia)) as H.
  unfold angle_tests_agree in H.
  apply andb_prop in H. destruct H as [H H270].
  apply andb_prop in H. destruct H as [Hall H90].
  rewrite forallb_forall in Hall.
  repeat split.
  - intros z Hz. now apply Bool.eqb_prop, Hall.
  - now apply Bool.eqb_prop.
  - now apply Bool.eqb_prop.
Qed.

(** X7: for a whole number of degrees [k] with [|k| <= 3600], the
    normalization [((k % 360) + 360) % 360] is the remainder of [k] modulo
    360, a whole number in [0, 360), also for negative [k]: no rounding
    error comes in. *)
Theorem normalization_of_whole_degrees (k : Z) :
  (-3600 <= k <= 3600)%Z ->
  mathContext.normalize (Num.of_Z k) = Num.of_Z (k mod 360)
  /\ (0 <= k mod 360 < 360)%Z.
Proof.
  intros Hk. split; [now apply normalize_whole|].
  apply Z.mod_pos_bound. lia.
Qed.

Lemma normalization_of_whole_degrees_witness :
  (-3600 <= -450 <= 3600)%Z
  /\ mathContext.normalize (Num.of_Z (-450)) = Num.of_Z 270.
Proof.
  split; [lia|].
  exact (proj1 (normalization_of_whole_degrees (-450) ltac:(lia))).
Defined.

(** X8: on a whole number of degrees [k] with [|k| <= 3600], [cos] is 1, 0,
    -1, 0.5 or -0.5 exactly, without the host, when [k] modulo 360 is 0, 90
    or 270, 180, 60 or 300, 120 or 240, and the host's cosine of the
    normalized angle otherwise; [tan] throws the UNDEFINED error when [k]
    modulo 180 is 90, is 0, 1 or -1 exactly when it is 0, 45 or 135, and
    the host's square root of 3, or its opposite, when it is 60 or 120. *)
Theorem trigonometry_of_whole_degrees (M : HostMath) (k : Z) :
  (-3600 <= k <= 3600)%Z ->
  mathContext.cos M (Num.of_Z k)
  = Normal
      match cos_exact (k mod 360) with
      | Some y => y
      | None => Math_cos M (mathContext.radians (Num.of_Z (k mod 360)))
      end
  /\ (k mod 180 = 90 ->
      mathContext.tan M (Num.of_Z k) = throw_error UNDEFINED)%Z
  /\ (k mod 180 = 0 -> mathContext.tan M (Num.of_Z k) = Normal (Num.of_Z 0))%Z
  /\ (k mod 180 = 45 -> mathContext.tan M (Num.of_Z k) = Normal (Num.of_Z 1))%Z
  /\ (k mod 180 = 135 ->
      mathContext.tan M (Num.of_Z k) = Normal (Num.of_Z (-1)))%Z
  /\ (k mod 180 = 60 ->
      mathContext.tan M (Num.of_Z k) = Normal (Math_sqrt M (Num.of_Z 3)))%Z
  /\ (k mod 180 = 120 ->
      mathContext.tan M (Num.of_Z k)
      = Normal (Num.neg (Math_sqrt M (Num.of_Z 3))))%Z.
Proof.
  intros Hk.
  assert (Hj : (0 <= k mod 360 < 360)%Z) by (apply Z.mod_pos_bound; lia).
  destruct (angle_tests_whole (k mod 360) Hj) as (Hat & H90 & H270).
  assert (Hmod : ((k mod 360) mod 180 = k mod 180)%Z).
  { apply Z.mod_mod_divide. exists 2%Z. lia. }
  unfold mathContext.cos, mathContext.tan, throw_error, cos_exact,
    mathContext.lit.
  rewrite (normalize_whole k Hk), H90, H270.
  rewrite !Hat by (cbn; tauto).
  set (j := (k mod 360)%Z) in *.
  assert (Hcases : (j mod 180 = j \/ j mod 180 = j - 180)%Z).
  { destruct (Z_lt_ge_dec j 180) as [Hlt|Hge].
    - left. apply Z.mod_small. lia.
    - right. rewrite <- (Z.mod_small (j - 180) 180) by lia.
      rewrite <- (Z_mod_plus_full (j - 180) 1 180). f_equal. lia. }
  repeat split;
    try (intros Hr; rewrite <- Hmod in Hr);
    repeat match goal with
           | |- context [(j =? ?z)%Z] => destruct (Z.eqb_spec j z)
           end;
    cbn [orb]; try reflexivity; lia.
Qed.

Lemma trigonometry_of_whole_degrees_witness :
  (-3600 <= -300 <= 3600)%Z
  /\ mathContext.cos sample_math (Num.of_Z (-300))
     = Normal (Num.of_decimal 5 (-1))
  /\ ((-630) mod 180 = 90)%Z
  /\ mathContext.tan sample_math (Num.of_Z (-630)) = throw_error UNDEFINED.
Proof.
  split; [lia|].
  split; [exact (proj1 (trigonometry_of_whole_degrees sample_math (-300)
                          ltac:(lia)))|].
  split; [reflexivity|].
  exact (proj1 (proj2 (trigonometry_of_whole_degrees sample_math (-630)
                         ltac:(lia))) eq_refl).
Defined.

(** ** The formatter at its edges *)

(** X9: [formatNumber] answers for every number.  For one that is not
    finite the text is that of [toString], ["NaN"], ["Infinity"] or
    ["-Infinity"], whatever the locale; zero, of either sign, is not taken
    for a small number and goes to the locale as an integer. *)
Theorem formatNumber_of_special_numbers
  (toLocaleString : number -> string) :
  (forall n,
      Num.isFinite n = false ->
      formatNumber toLocaleString n = HostNumber.toString n
      /\ In (formatNumber toLocaleString n) ["NaN"; "Infinity"; "-Infinity"])
  /\ (forall s,
         formatNumber toLocaleString (S754_zero s)
         = toLocaleString (S754_zero s)).
Proof.
  split.
  - intros [s|s| |s m e] Hn; try discriminate.
    + destruct s; (split; [vm_compute; reflexivity | cbn; tauto]).
    + split; [vm_compute; reflexivity | cbn; tauto].
  - intros s. destruct s; reflexivity.
Qed.

Lemma formatNumber_of_special_numbers_witness :
  Num.isFinite (Num.div (Num.of_Z (-1)) (Num.of_Z 0)) = false
  /\ formatNumber en_US.toLocaleString (Num.div (Num.of_Z (-1)) (Num.of_Z 0))
     = "-Infinity"%string.
Proof.
  split; [reflexivity|].
  exact (proj1 (proj1 (formatNumber_of_special_numbers en_US.toLocaleString)
                  (Num.div (Num.of_Z (-1)) (Num.of_Z 0)) eq_refl)).
Defined.

(** ** The removal of trailing zeros *)

Lemma drop_zeros_other (c : ascii) (l : list ascii) :
  c <> "0"%char -> drop_zeros (c :: l) = c :: l.
Proof.
  intros Hc. destruct c as [[] [] [] [] [] [] [] []]; try reflexivity.
  contradiction Hc. reflexivity.
Qed.

Lemma drop_zeros_spec (l : list ascii) :
  exists n, l = repeat "0"%char n ++ drop_zeros l
            /\ hd_error (drop_zeros l) <> Some "0"%char.
Proof.
  induction l as [|c r IH].
  - exists 0%nat. split; [reflexivity | discriminate].
  - destruct (Ascii.eqb_spec c "0") as [->|Hc].
    + destruct IH as (n & Hr & Hhd). exists (S n). cbn [drop_zeros repeat app].
      split; [now f_equal | exact Hhd].
    + exists 0%nat. rewrite (drop_zeros_other c r Hc).
      split; [reflexivity|]. cbn. congruence.
Qed.

Lemma strip_reversed_other (c : ascii) (l : list ascii) :
  c <> "0"%char -> strip_reversed (c :: l) = c :: l.
Proof.
  intros Hc. destruct c as [[] [] [] [] [] [] [] []]; try reflexivity.
  contradiction Hc. reflexivity.
Qed.

Lemma point_match (d : ascii) (r : list ascii) :
  match d :: r with
  | "."%char :: r' => r'
  | r' => r'
  end = if Ascii.eqb d "." then r else d :: r.
Proof.
  destruct d as [[] [] [] [] [] [] [] []]; reflexivity.
Qed.

(** The reversed text: the zeros in front go, and a point after them. *)
Lemma strip_reversed_zero (l : list ascii) :
  exists n r,
    (1 <= n)%nat
    /\ ("0"%char :: l = repeat "0"%char n ++ r
        /\ strip_reversed ("0"%char :: l) = r
        /\ hd_error r <> Some "0"%char
        \/ "0"%char :: l = repeat "0"%char n ++ "."%char :: r
           /\ strip_reversed ("0"%char :: l) = r).
Proof.
  destruct (drop_zeros_spec ("0"%char :: l)) as (n & Hl & Hhd).
  assert (Hn : (1 <= n)%nat).
  { destruct n; [|lia]. cbn [repeat app] in Hl.
    rewrite <- Hl in Hhd. cbn in Hhd. congruence. }
  change (strip_reversed ("0"%char :: l))
    with (match drop_zeros ("0"%char :: l) with
          | "."%char :: r => r
          | r => r
          end).
  destruct (drop_zeros ("0"%char :: l)) as [|d r].
  - exists n, []. split; [exact Hn|]. left. auto.
  - rewrite point_match. destruct (Ascii.eqb_spec d ".") as [->|Hd].
    + exists n, r. split; [exact Hn|]. right. auto.
    + exists n, (d :: r). split; [exact Hn|]. left. auto.
Qed.

Lemma string_of_list_app (a b : list ascii) :
  string_of_list_ascii (a ++ b)
  = (string_of_list_ascii a ++ string_of_list_ascii b)%string.
Proof.
  induction a as [|c a IH]; cbn; [reflexivity|]. now rewrite IH.
Qed.

Lemma string_of_zeros (n : nat) :
  string_of_list_ascii (repeat "0"%char n) = Text.zeros n.
Proof.
  induction n as [|n IH]; cbn; [reflexivity|]. now rewrite IH.
Qed.

Lemma rev_repeat (c : ascii) (n : nat) : rev (repeat c n) = repeat c n.
Proof.
  induction n as [|n IH]; [reflexivity|].
  cbn [repeat rev]. rewrite IH. clear IH.
  induction n as [|n IH]; [reflexivity|]. cbn. now rewrite IH.
Qed.

(** A text from its characters in reverse. *)
Lemma string_of_reversed (s : string) :
  s = string_of_list_ascii (rev (rev (list_ascii_of_string s))).
Proof.
  now rewrite rev_involutive, string_of_list_ascii_of_string.
Qed.

Lemma ends_with_zero_of_reversed (r : list ascii) :
  ends_with_zero (string_of_list_ascii (rev r))
  = match r with
    | "0"%char :: _ => true
    | _ => false
    end.
Proof.
  unfold ends_with_zero.
  now rewrite list_ascii_of_string_of_list_ascii, rev_involutive.
Qed.

Lemma head_not_zero (r : list ascii) :
  hd_error r <> Some "0"%char ->
  match r with
  | "0"%char :: _ => true
  | _ => false
  end = false.
Proof.
  destruct r as [|d r]; [reflexivity|]. cbn. intros Hd.
  destruct d as [[] [] [] [] [] [] [] []]; try reflexivity.
  contradiction Hd. reflexivity.
Qed.

Lemma strip_zeros_cases (s : string) :
  (ends_with_zero s = false -> strip_zeros s = s)
  /\ (ends_with_zero s = true ->
      exists n,
        (1 <= n)%nat
        /\ (s = (strip_zeros s ++ Text.zeros n)%string
            /\ ends_with_zero (strip_zeros s) = false
            \/ s = (strip_zeros s ++ "." ++ Text.zeros n)%string)).
Proof.
  unfold ends_with_zero at 1 2, strip_zeros.
  pose proof (string_of_reversed s) as Hs.
  destruct (rev (list_ascii_of_string s)) as [|c l].
  - split; [intros _; now rewrite Hs | discriminate].
  - destruct (Ascii.eqb_spec c "0") as [->|Hc].
    + split; [discriminate|]. intros _.
      destruct (strip_reversed_zero l)
        as (n & r & Hn & [(Hl & -> & Hhd)|(Hl & ->)]);
        exists n; (split; [exact Hn|]);
        rewrite Hs, Hl, rev_app_distr, rev_repeat, string_of_list_app,
          string_of_zeros.
      * left. split; [reflexivity|].
        rewrite ends_with_zero_of_reversed. now apply head_not_zero.
      * right. cbn [rev]. rewrite string_of_list_app.
        now rewrite string_app_assoc.
    + rewrite (strip_reversed_other c l Hc). split; [now rewrite <- Hs|].
      intros H. exfalso.
      destruct c as [[] [] [] [] [] [] [] []]; try discriminate H.
      contradiction Hc. reflexivity.
Qed.

Lemma drop_zeros_repeat (n : nat) (l : list ascii) :
  drop_zeros (repeat "0"%char n ++ l) = drop_zeros l.
Proof.
  induction n as [|n IH]; [reflexivity | exact IH].
Qed.

Lemma list_of_string_app (a b : string) :
  list_ascii_of_string (a ++ b)
  = list_ascii_of_string a ++ list_ascii_of_string b.
Proof.
  induction a as [|c a IH]; cbn; [reflexivity|]. now rewrite IH.
Qed.

Lemma list_of_zeros (n : nat) :
  list_ascii_of_string (Text.zeros n) = repeat "0"%char n.
Proof.
  induction n as [|n IH]; cbn; [reflexivity|]. now rewrite IH.
Qed.

(** The reversed text, from its zeros in front. *)
Lemma strip_reversed_point (n : nat) (r : list ascii) :
  (1 <= n)%nat ->
  strip_reversed (repeat "0"%char n ++ "."%char :: r) = r.
Proof.
  intros Hn. destruct n as [|n]; [lia|].
  change (strip_reversed (repeat "0"%char (S n) ++ "."%char :: r))
    with (match drop_zeros (repeat "0"%char (S n) ++ "."%char :: r) with
          | "."%char :: r' => r'
          | r' => r'
          end).
  now rewrite drop_zeros_repeat.
Qed.

Lemma strip_reversed_plain (n : nat) (r : list ascii) :
  (1 <= n)%nat ->
  hd_error r <> Some "0"%char -> hd_error r <> Some "."%char ->
  strip_reversed (repeat "0"%char n ++ r) = r.
Proof.
  intros Hn H0 Hp. destruct n as [|n]; [lia|].
  change (strip_reversed (repeat "0"%char (S n) ++ r))
    with (match drop_zeros (repeat "0"%char (S n) ++ r) with
          | "."%char :: r' => r'
          | r' => r'
          end).
  rewrite drop_zeros_repeat. destruct r as [|d r]; [reflexivity|].
  rewrite drop_zeros_other by (cbn in H0; congruence).
  rewrite point_match. destruct (Ascii.eqb_spec d ".") as [->|_];
    [now contradiction Hp | reflexivity].
Qed.

Lemma ends_with_head (c : ascii) (s : string) :
  match rev (list_ascii_of_string s) with
  | d :: _ => Ascii.eqb d c
  | [] => false
  end = false ->
  hd_error (rev (list_ascii_of_string s)) <> Some c.
Proof.
  destruct (rev (list_ascii_of_string s)) as [|d r]; [discriminate|].
  cbn. intros Hd [= ->]. now rewrite Ascii.eqb_refl in Hd.
Qed.

Lemma ends_with_zero_head (s : string) :
  ends_with_zero s = false ->
  hd_error (rev (list_ascii_of_string s)) <> Some "0"%char.
Proof.
  unfold ends_with_zero. intros H. apply ends_with_head.
  destruct (rev (list_ascii_of_string s)) as [|d r]; [reflexivity|].
  destruct d as [[] [] [] [] [] [] [] []]; try reflexivity; discriminate H.
Qed.

Lemma ends_with_point_head (s : string) :
  ends_with_point s = false ->
  hd_error (rev (list_ascii_of_string s)) <> Some "."%char.
Proof.
  unfold ends_with_point. intros H. apply ends_with_head.
  destruct (rev (list_ascii_of_string s)) as [|d r]; [reflexivity|].
  destruct d as [[] [] [] [] [] [] [] []]; try reflexivity; discriminate H.
Qed.

(** X10: what [.replace(/\.?0+$/, '')] takes away.  Text that does not end
    with [0] is left as it is.  From text that ends with a point and zeros,
    the point and the zeros go; from text that ends with zeros after
    something that is neither a zero nor a point, the zeros go, also when
    they belong to an integer or to an exponent.  Every text that ends with
    [0] is of one of the two forms, and comes out shorter. *)
Theorem strip_zeros_removes_the_last_zeros (s : string) (n : nat) :
  (ends_with_zero s = false -> strip_zeros s = s)
  /\ ((1 <= n)%nat -> strip_zeros (s ++ "." ++ Text.zeros n) = s)
  /\ ((1 <= n)%nat ->
      ends_with_zero s = false -> ends_with_point s = false ->
      strip_zeros (s ++ Text.zeros n) = s)
  /\ (ends_with_zero s = true ->
      exists k,
        (1 <= k)%nat
        /\ (s = (strip_zeros s ++ Text.zeros k)%string
            /\ ends_with_zero (strip_zeros s) = false
            \/ s = (strip_zeros s ++ "." ++ Text.zeros k)%string))
  /\ (ends_with_zero s = true ->
      (String.length (strip_zeros s) < String.length s)%nat).
Proof.
  destruct (strip_zeros_cases s) as [Hkeep Hcut].
  split; [exact Hkeep|]. split; [|split; [|split; [exact Hcut|]]].
  - intros Hn. unfold strip_zeros.
    rewrite !list_of_string_app, list_of_zeros, rev_app_distr.
    cbn [list_ascii_of_string app rev]. rewrite rev_repeat, <- app_assoc.
    cbn [app].
    rewrite (strip_reversed_point n _ Hn), rev_involutive.
    apply string_of_list_ascii_of_string.
  - intros Hn Hz Hp. unfold strip_zeros.
    rewrite list_of_string_app, list_of_zeros, rev_app_distr, rev_repeat.
    rewrite (strip_reversed_plain n _ Hn (ends_with_zero_head s Hz)
               (ends_with_point_head s Hp)), rev_involutive.
    apply string_of_list_ascii_of_string.
  - intros Hz. destruct (Hcut Hz) as (k & Hk & [[Hs _]|Hs]);
      rewrite Hs at 2; rewrite !string_length_app;
      destruct k; cbn; lia.
Qed.

Lemma strip_zeros_removes_the_last_zeros_witness :
  ends_with_zero "1200" = true
  /\ strip_zeros "1200" = "12"%string
  /\ strip_zeros "1.00" = "1"%string
  /\ strip_zeros "1e-10" = "1e-1"%string
  /\ (String.length (strip_zeros "1200") < String.length "1200")%nat.
Proof.
  pose proof (strip_zeros_removes_the_last_zeros "12" 2)
    as (_ & _ & Hplain & _).
  pose proof (strip_zeros_removes_the_last_zeros "1" 2)
    as (_ & Hpoint & _).
  pose proof (strip_zeros_removes_the_last_zeros "1e-1" 1)
    as (_ & _ & Hexp & _).
  split; [reflexivity|].
  split; [exact (Hplain ltac:(lia) eq_refl eq_refl)|].
  split; [exact (Hpoint ltac:(lia))|].
  split; [exact (Hexp ltac:(lia) eq_refl eq_refl)|].
  exact (proj2 (proj2 (proj2 (proj2
           (strip_zeros_removes_the_last_zeros "1200" 0)))) eq_refl).
Defined.

(** ** The component: the display under the keys *)

Lemma includes_point (d : string) :
  Text.includes d "." = true <-> (1 <= Text.count_char "." d)%nat.
Proof.
  induction d as [|c r IH]; cbn [Text.includes Text.count_char String.prefix].
  - split; [discriminate | lia].
  - destruct (ascii_dec "." c) as [<-|Hne].
    + cbn. split; [lia|]. intros _. now destruct r.
    + destruct (Ascii.eqb_spec "." c) as [Heq|_]; [contradiction|].
      cbn [Nat.add]. exact IH.
Qed.

Lemma length_take (n : nat) :
  forall s, String.length (Text.take n s) = Nat.min n (String.length s).
Proof.
  induction n as [|n IH]; intros [|c r]; cbn; try reflexivity.
  now rewrite IH.
Qed.

Lemma count_take (c : ascii) (n : nat) :
  forall s, (Text.count_char c (Text.take n s) <= Text.count_char c s)%nat.
Proof.
  induction n as [|n IH]; intros [|d r]; cbn; try lia.
  specialize (IH r). lia.
Qed.

Lemma take_all (a : string) (c : ascii) :
  Text.take (String.length a) (a ++ String c "")%string = a.
Proof.
  induction a as [|d a IH]; cbn; [reflexivity|]. now rewrite IH.
Qed.

Lemma pad_key_cases (num : string) :
  App.pad_key num = true ->
  exists c, num = String c ""
            /\ (c = "."%char \/ HostNumber.is_digit c = true).
Proof.
  destruct num as [|c [|d r]]; try discriminate. cbn. intros H.
  exists c. split; [reflexivity|].
  apply orb_prop in H. destruct H as [H|H]; [now right|].
  left. now apply Ascii.eqb_eq.
Qed.

Lemma key_is_point (c : ascii) :
  String.eqb (String c "") "." = Ascii.eqb c ".".
Proof.
  cbn. now destruct (Ascii.eqb c ".").
Qed.

Lemma count_point_key (c : ascii) :
  Text.count_char "." (String c "") = if Ascii.eqb c "." then 1%nat else 0%nat.
Proof.
  cbn. rewrite Ascii.eqb_sym. now destruct (Ascii.eqb c ".").
Qed.

Lemma handleNumber_entry (st : App.state) (num : string) :
  App.pad_key num = true ->
  App.entry (App.display st) ->
  App.entry (App.display (App.handleNumber st num)).
Proof.
  intros Hkey [Hlen Hpt]. destruct (pad_key_cases num Hkey) as (c & -> & Hc).
  unfold App.handleNumber.
  destruct (Nat.leb_spec 16 (String.length (App.display st))) as [H16|H16];
    [now split|].
  rewrite key_is_point.
  destruct (Ascii.eqb c "." && Text.includes (App.display st) ".") eqn:Hdup;
    [now split|].
  destruct (String.eqb (App.display st) "0" && negb (Ascii.eqb c "."))
    eqn:Hzero; cbn [App.display].
  - split; [cbn; lia|]. rewrite count_point_key.
    destruct (Ascii.eqb c "."); lia.
  - split; [rewrite string_length_app; cbn; lia|].
    rewrite count_char_app, count_point_key.
    destruct (Ascii.eqb c "."); [|lia].
    cbn [andb] in Hdup.
    destruct (Text.includes (App.display st) ".") eqn:Hinc; [discriminate|].
    assert (~ (1 <= Text.count_char "." (App.display st))%nat); [|lia].
    intros H. apply includes_point in H. congruence.
Qed.

Lemma handleBackspace_entry (st : App.state) :
  App.entry (App.display st) ->
  App.entry (App.display (App.handleBackspace st)).
Proof.
  intros [Hlen Hpt]. unfold App.handleBackspace.
  destruct (String.eqb (App.display st) "Error");
    [split; cbn; lia|].
  destruct (Nat.eqb_spec (String.length (App.display st)) 1) as [H1|H1];
    cbn [App.display]; [split; cbn; lia|].
  unfold App.drop_last. split.
  - rewrite length_take. lia.
  - pose proof (count_take "." (String.length (App.display st) - 1)
                  (App.display st)). lia.
Qed.

(** X11: the keys keep the display in shape.  From a display of 1 to 16
    characters with one point at most, as the initial ["0"] is, every run of
    digit and point keys, backspaces and clears leaves such a display: it is
    never empty, never longer than 16 characters, and never gets a second
    point. *)
Theorem display_stays_an_entry (st : App.state) (events : list edit) :
  App.entry (App.display st) ->
  forallb well_keyed events = true ->
  App.entry (App.display (fold_left handle events st))
  /\ App.entry (App.display (fold_left handle events App.initial)).
Proof.
  intros Hst Hev.
  assert (H : forall s, App.entry (App.display s) ->
                        App.entry (App.display (fold_left handle events s))).
  { clear Hst st. induction events as [|ev evs IH]; intros s Hs;
      cbn [fold_left]; [exact Hs|].
    cbn [forallb] in Hev. apply andb_prop in Hev. destruct Hev as [Hk Hevs].
    apply (IH Hevs). destruct ev as [num| |]; cbn [handle well_keyed] in *.
    - now apply handleNumber_entry.
    - now apply handleBackspace_entry.
    - split; cbn; lia. }
  split; [now apply H|]. apply H. split; cbn; lia.
Qed.

Lemma display_stays_an_entry_witness :
  App.entry (App.display App.initial)
  /\ forallb well_keyed
       [Key "1"; Key "."; Key "."; Key "5"; Backspace; Key "7"] = true
  /\ fold_left handle
       [Key "1"; Key "."; Key "."; Key "5"; Backspace; Key "7"] App.initial
     = {| App.display := "1.7"; App.equation := "" |}
  /\ App.entry "1.7".
Proof.
  assert (H0 : App.entry (App.display App.initial)) by (split; cbn; lia).
  split; [exact H0|]. split; [reflexivity|]. split; [reflexivity|].
  exact (proj1 (display_stays_an_entry App.initial
                  [Key "1"; Key "."; Key "."; Key "5"; Backspace; Key "7"]
                  H0 eq_refl)).
Defined.

Lemma not_error_with_key (d : string) (c : ascii) :
  c = "."%char \/ HostNumber.is_digit c = true ->
  String.eqb (d ++ String c "") "Error" = false.
Proof.
  intros Hc. apply String.eqb_neq. intros H.
  assert (Hr : c = "r"%char).
  { destruct d as [|a1 [|a2 [|a3 [|a4 [|a5 [|a6 r]]]]]]; cbn in H;
      try discriminate H; congruence. }
  subst c. destruct Hc as [Hc|Hc]; discriminate Hc.
Qed.

(** X12: the backspace takes back a key.  When [handleNumber] accepts a digit
    or the point (the display has fewer than 16 characters and is not empty,
    and the key is not a second point), [handleBackspace] right after it
    gives the state before the key, also from the display ["0"] that the key
    replaced. *)
Theorem backspace_undoes_a_key (st : App.state) (num : string) :
  App.pad_key num = true ->
  (1 <= String.length (App.display st) < 16)%nat ->
  String.eqb num "." && Text.includes (App.display st) "." = false ->
  App.handleBackspace (App.handleNumber st num) = st.
Proof.
  intros Hkey Hlen Hdup. destruct (pad_key_cases num Hkey) as (c & -> & Hc).
  destruct st as [d eq]. cbn [App.display] in *.
  unfold App.handleNumber. cbn [App.display App.equation].
  destruct (Nat.leb_spec 16 (String.length d)) as [H16|_]; [lia|].
  rewrite Hdup.
  destruct (String.eqb_spec d "0") as [->|Hd0]; cbn [andb].
  - destruct (String.eqb (String c "") ".") eqn:Hp; cbn [negb].
    + rewrite key_is_point in Hp. apply Ascii.eqb_eq in Hp. subst c.
      reflexivity.
    + unfold App.handleBackspace. cbn [App.display App.equation].
      assert (Hne : String.eqb (String c "") "Error" = false)
        by (cbn; now destruct (Ascii.eqb c "E")).
      now rewrite Hne.
  - unfold App.handleBackspace. cbn [App.display App.equation].
    rewrite (not_error_with_key d c Hc), string_length_app.
    cbn [String.length].
    destruct (Nat.eqb_spec (String.length d + 1) 1) as [H1|_]; [lia|].
    unfold App.drop_last. rewrite string_length_app. cbn [String.length].
    replace (String.length d + 1 - 1)%nat with (String.length d) by lia.
    now rewrite take_all.
Qed.

Lemma backspace_undoes_a_key_witness :
  App.pad_key "." = true
  /\ (1 <= String.length "12" < 16)%nat
  /\ String.eqb "." "." && Text.includes "12" "." = false
  /\ App.handleNumber {| App.display := "12"; App.equation := "3 + " |} "."
     = {| App.display := "12."; App.equation := "3 + " |}
  /\ App.handleBackspace
       (App.handleNumber {| App.display := "12"; App.equation := "3 + " |} ".")
     = {| App.display := "12"; App.equation := "3 + " |}.
Proof.
  split; [reflexivity|]. split; [cbn; lia|]. split; [reflexivity|].
  split; [reflexivity|].
  exact (backspace_undoes_a_key
           {| App.display := "12"; App.equation := "3 + " |} "."
           eq_refl ltac:(cbn; lia) eq_refl).
Defined.

(** ** The component: its copy of the evaluator, [calculate] and the
       operators *)

Lemma rethrown_of_reclassify (t : thrown) :
  App.answer_of true (Fails (reclassify t)) = App.Raised (App.rethrown t).
Proof.
  destruct t as [msg|]; [|reflexivity]. cbn.
  destruct (Text.includes msg "Domain"); [reflexivity|].
  destruct (Text.includes msg "Undefined"); [reflexivity|].
  destruct (Text.includes msg "Overflow"); [reflexivity|].
  destruct (Text.includes msg "Invalid"); reflexivity.
Qed.

Section Copies.
Context {realm : Type}.
Variable run : realm -> string -> completion value * realm.

(** The two copies side by side. *)
Lemma copies_agree (s : realm * Cache.t) (e : string) :
  App.safeEvaluate run s e
  = (App.answer_of (well_formed (sanitize e)) (fst (safeEvaluate run s e)),
     snd (safeEvaluate run s e)).
Proof.
  destruct s as [h c]. unfold App.safeEvaluate, safeEvaluate.
  destruct (Cache.get e (evict c)) as [v|]; [reflexivity|].
  destruct (well_formed (sanitize e)); cbn [negb]; [|reflexivity].
  destruct (openCount (sanitize e) =? closeCount (sanitize e))%nat;
    cbn [negb]; [|reflexivity].
  destruct (attempt run h (evict c) e (sanitize e)) as [[[r c']|t] h'];
    [reflexivity|].
  cbn [fst snd]. now rewrite rethrown_of_reclassify.
Qed.

Lemma raised_message (s s' : realm * Cache.t) (e msg : string) :
  App.safeEvaluate run s e = (App.Raised msg, s') -> In msg App.messages.
Proof.
  rewrite copies_agree. intros [= H _]. revert H.
  destruct (fst (safeEvaluate run s e)) as [v|k]; [discriminate|].
  destruct k, (well_formed (sanitize e)); cbn; intros [= <-]; tauto.
Qed.

(** A number that the copy returns is finite. *)
Lemma result_finite (s s' : realm * Cache.t) (e : string) (v : number) :
  reachable run s ->
  App.safeEvaluate run s e = (App.Result v, s') ->
  Num.isFinite v = true.
Proof.
  intros Hr H. rewrite copies_agree in H. injection H as H _.
  destruct s as [h c]. apply reachable_ok in Hr. cbn [snd] in Hr.
  destruct (fst (safeEvaluate run (h, c) e)) as [w|k] eqn:Hfst.
  - cbn in H. injection H as ->.
    destruct (Cache.get e (evict c)) as [w|] eqn:Hget.
    + rewrite (safeEvaluate_hit run h c e w Hget) in Hfst.
      injection Hfst as ->.
      destruct (evict_ok run c Hr) as (_ & _ & Hin).
      now destruct (ok_entries run c Hr e v
                      (Hin _ (get_some_in e v _ Hget)))
        as (_ & _ & _ & Hfin).
    + rewrite (safeEvaluate_miss run h c e Hget) in Hfst. cbn [fst] in Hfst.
      apply fresh_returns in Hfst. now destruct Hfst as (_ & _ & _ & Hfin).
  - destruct k, (well_formed (sanitize e)); discriminate.
Qed.

End Copies.

(** X13: the copy of [safeEvaluate] in [App.tsx] and the one of the module
    do the same to the realm and to the cache and return the same numbers;
    where the module fails with a kind the copy throws the message of that
    kind, but for INVALID found after the character check (a result that is
    not a finite number), where the copy throws ['Math Error']. *)
Theorem the_two_copies_agree
  (realm : Type) (run : realm -> string -> completion value * realm)
  (s : realm * Cache.t) (e : string) :
  snd (App.safeEvaluate run s e) = snd (safeEvaluate run s e)
  /\ (forall v, fst (App.safeEvaluate run s e) = App.Result v
                <-> fst (safeEvaluate run s e) = Returns v)
  /\ (forall k, fst (safeEvaluate run s e) = Fails k ->
                fst (App.safeEvaluate run s e)
                = App.Raised
                    (if well_formed (sanitize e)
                     then match k with
                          | INVALID => "Math Error"
                          | _ => message k
                          end
                     else message k)).
Proof.
  rewrite copies_agree. cbn [fst snd]. split; [reflexivity|]. split.
  - intros v. destruct (fst (safeEvaluate run s e)) as [w|k].
    + cbn. split; intros [= ->]; reflexivity.
    + split; [|discriminate]. destruct k; discriminate.
  - intros k ->. destruct k, (well_formed (sanitize e)); reflexivity.
Qed.

Lemma the_two_copies_agree_witness :
  fst (safeEvaluate (Engine.run sample_host) (loaded, []) "1/0")
  = Fails INVALID
  /\ fst (App.safeEvaluate (Engine.run sample_host) (loaded, []) "1/0")
     = App.Raised "Math Error"
  /\ fst (safeEvaluate (Engine.run sample_host) (loaded, []) "1;0")
     = Fails INVALID
  /\ fst (App.safeEvaluate (Engine.run sample_host) (loaded, []) "1;0")
     = App.Raised "Invalid expression".
Proof.
  split; [reflexivity|].
  split; [exact (proj2 (proj2 (the_two_copies_agree
                                 _ (Engine.run sample_host) (loaded, [])
                                 "1/0"))
                   INVALID eq_refl)|].
  split; [reflexivity|].
  exact (proj2 (proj2 (the_two_copies_agree
                         _ (Engine.run sample_host) (loaded, []) "1;0"))
           INVALID eq_refl).
Defined.

(** X14: [calculate] with a pending equation evaluates the equation followed
    by the display, clears the equation and shows the formatted result, or
    the message of the error.  On a state that calls have reached the
    result is finite, so the ['Math Error'] of the non-finite check is never
    shown for a result that was returned.  Whatever the state, the equation
    is empty afterwards. *)
Theorem calculate_shows_the_result
  (realm : Type) (run : realm -> string -> completion value * realm)
  (toLocaleString : number -> string)
  (s : realm * Cache.t) (st : App.state) :
  reachable run s ->
  (App.equation st <> "" -> App.display st <> "Error" ->
   App.calculate run toLocaleString s st
   = (snd (App.safeEvaluate run s (App.equation st ++ App.display st)),
      {| App.display :=
           shown toLocaleString
             (fst (App.safeEvaluate run s
                     (App.equation st ++ App.display st)));
         App.equation := "" |}))
  /\ App.equation (snd (App.calculate run toLocaleString s st)) = ""
  /\ reachable run (fst (App.calculate run toLocaleString s st)).
Proof.
  intros Hr.
  assert (Hcache : forall e, reachable run (snd (App.safeEvaluate run s e))).
  { intros e. rewrite copies_agree. cbn [snd]. now constructor. }
  unfold App.calculate. split; [|split].
  - intros Heq Hd.
    apply String.eqb_neq in Heq. apply String.eqb_neq in Hd.
    rewrite Heq, Hd. cbn [orb].
    destruct (App.safeEvaluate run s (App.equation st ++ App.display st))
      as [[v|msg] s'] eqn:Hcall; cbn [fst snd shown]; [|reflexivity].
    now rewrite (result_finite run s s' _ v Hr Hcall).
  - destruct (String.eqb (App.equation st) ""
              || String.eqb (App.display st) "Error"); [reflexivity|].
    destruct (App.safeEvaluate run s (App.equation st ++ App.display st))
      as [[v|msg] s']; [|reflexivity].
    destruct (Num.isFinite v); reflexivity.
  - destruct (String.eqb (App.equation st) ""
              || String.eqb (App.display st) "Error"); [exact Hr|].
    specialize (Hcache (App.equation st ++ App.display st)%string).
    destruct (App.safeEvaluate run s (App.equation st ++ App.display st))
      as [[v|msg] s']; cbn [snd] in Hcache; [|exact Hcache].
    destruct (Num.isFinite v); exact Hcache.
Qed.

Lemma calculate_shows_the_result_witness :
  reachable (Engine.run sample_host) (loaded, [])
  /\ App.equation {| App.display := "250"; App.equation := "1000 - " |} <> ""
  /\ App.display {| App.display := "250"; App.equation := "1000 - " |}
     <> "Error"
  /\ App.calculate (Engine.run sample_host) en_US.toLocaleString (loaded, [])
       {| App.display := "250"; App.equation := "1000 - " |}
     = ((loaded, [("1000 - 250", Num.of_Z 750)]),
        {| App.display := "750"; App.equation := "" |}).
Proof.
  split; [constructor|]. split; [discriminate|]. split; [discriminate|].
  exact (proj1 (calculate_shows_the_result _ (Engine.run sample_host)
                  en_US.toLocaleString (loaded, [])
                  {| App.display := "250"; App.equation := "1000 - " |}
                  (reachable_empty _ loaded))
           ltac:(discriminate) ltac:(discriminate)).
Defined.

(** X15: an error never shows as ["Error"].  The message that a failed
    evaluation leaves on the display is one of seven texts, none of them the
    ["Error"] that [handleBackspace], [handleOperator] and [calculate] test
    for: after a failed [calculate] the backspace does not reset the
    calculator but takes the last character off the message. *)
Theorem error_message_is_not_the_error_display
  (realm : Type) (run : realm -> string -> completion value * realm)
  (toLocaleString : number -> string)
  (s s' : realm * Cache.t) (st : App.state) (msg : string) :
  App.equation st <> "" ->
  App.display st <> "Error" ->
  App.safeEvaluate run s (App.equation st ++ App.display st)
  = (App.Raised msg, s') ->
  App.calculate run toLocaleString s st
  = (s', {| App.display := msg; App.equation := "" |})
  /\ In msg App.messages
  /\ msg <> "Error"
  /\ App.handleBackspace {| App.display := msg; App.equation := "" |}
     = {| App.display := App.drop_last msg; App.equation := "" |}
  /\ App.drop_last msg <> "0".
Proof.
  intros Heq Hd Hcall.
  pose proof (raised_message run s s' _ msg Hcall) as Hin.
  split; [|split; [exact Hin|]].
  - unfold App.calculate.
    apply String.eqb_neq in Heq. apply String.eqb_neq in Hd.
    now rewrite Heq, Hd, Hcall.
  - cbn in Hin.
    repeat (destruct Hin as [<-|Hin];
            [repeat split; (discriminate || reflexivity)|]).
    contradiction.
Qed.

Lemma error_message_is_not_the_error_display_witness :
  App.equation {| App.display := "2"; App.equation := "(1 + " |} <> ""
  /\ App.display {| App.display := "2"; App.equation := "(1 + " |} <> "Error"
  /\ App.calculate (Engine.run sample_host) en_US.toLocaleString (loaded, [])
       {| App.display := "2"; App.equation := "(1 + " |}
     = ((loaded, []),
        {| App.display := "Syntax error"; App.equation := "" |})
  /\ App.handleBackspace
       {| App.display := "Syntax error"; App.equation := "" |}
     = {| App.display := "Syntax erro"; App.equation := "" |}.
Proof.
  pose proof (error_message_is_not_the_error_display
                _ (Engine.run sample_host) en_US.toLocaleString
                (loaded, []) (loaded, [])
                {| App.display := "2"; App.equation := "(1 + " |}
                "Syntax error" ltac:(discriminate) ltac:(discriminate)
                eq_refl) as (Hcalc & _ & _ & Hback & _).
  split; [discriminate|]. split; [discriminate|].
  split; [exact Hcalc | exact Hback].
Defined.

(** X16: the parenthesis keys keep the equation from closing more than it
    opens.  On [(] or [)] the display, unless it is ["0"], moves into the
    equation before the parenthesis; the realm and the cache are not
    touched.  A [)] that would leave more closing than opening parentheses
    is refused: the equation stays as it was and the display reads
    ['Syntax Error'].  So an equation with no more [)] than [(], under a
    display without [)], stays so. *)
Theorem parentheses_never_close_too_many
  (realm : Type) (run : realm -> string -> completion value * realm)
  (toLocaleString : number -> string)
  (M : HostMath) (s : realm * Cache.t) (st : App.state) (op : string) :
  op = "(" \/ op = ")" ->
  App.display st <> "Error" ->
  let text :=
    ((if String.eqb (App.display st) "0" then App.equation st
      else App.equation st ++ App.display st) ++ op)%string in
  let refused :=
    String.eqb op ")"
    && (Text.count_char "(" text <? Text.count_char ")" text)%nat in
  App.handleOperator run toLocaleString M s st op
  = (s, if refused
        then {| App.display := "Syntax Error";
                App.equation := App.equation st |}
        else {| App.display := "0"; App.equation := text |})
  /\ ((Text.count_char ")" (App.equation st)
       <= Text.count_char "(" (App.equation st))%nat ->
      Text.count_char ")" (App.display st) = 0%nat ->
      (Text.count_char ")"
         (App.equation
            (snd (App.handleOperator run toLocaleString M s st op)))
       <= Text.count_char "("
            (App.equation
               (snd (App.handleOperator run toLocaleString M s st op))))%nat).
Proof.
  intros Hop Hd. cbv zeta.
  assert (Hcall :
    App.handleOperator run toLocaleString M s st op
    = (s, if String.eqb op ")"
             && (Text.count_char "("
                   ((if String.eqb (App.display st) "0" then App.equation st
                     else App.equation st ++ App.display st) ++ op)
                 <? Text.count_char ")"
                      ((if String.eqb (App.display st) "0"
                        then App.equation st
                        else App.equation st ++ App.display st) ++ op))%nat
          then {| App.display := "Syntax Error";
                  App.equation := App.equation st |}
          else {| App.display := "0";
                  App.equation :=
                    ((if String.eqb (App.display st) "0" then App.equation st
                      else App.equation st ++ App.display st) ++ op)%string
               |})).
  { unfold App.handleOperator.
    apply String.eqb_neq in Hd. rewrite Hd. cbn [negb andb].
    rewrite andb_true_r.
    assert (Hconst : String.eqb op "Math.PI" || String.eqb op "Math.E"
                     = false) by (destruct Hop as [-> | ->]; reflexivity).
    assert (Hfun : String.prefix "Math." op = false)
      by (destruct Hop as [-> | ->]; reflexivity).
    assert (Hpar : String.eqb op "(" || String.eqb op ")" = true)
      by (destruct Hop as [-> | ->]; reflexivity).
    rewrite Hconst, Hfun, Hpar.
    destruct (String.eqb (App.display st) "0"); cbn [negb];
      match goal with
      | |- (if ?b then _ else _) = _ => destruct b; reflexivity
      end. }
  split; [exact Hcall|]. intros Hbal Hdisp. rewrite Hcall. cbn [snd].
  destruct (String.eqb op ")"
            && (Text.count_char "("
                  ((if String.eqb (App.display st) "0" then App.equation st
                    else App.equation st ++ App.display st) ++ op)
                <? Text.count_char ")"
                     ((if String.eqb (App.display st) "0" then App.equation st
                       else App.equation st ++ App.display st) ++ op))%nat)
    eqn:Href; cbn [App.equation]; [exact Hbal|].
  destruct Hop as [-> | ->].
  - destruct (String.eqb (App.display st) "0");
      rewrite !count_char_app, ?Hdisp; cbn; lia.
  - cbn [String.eqb Ascii.eqb Bool.eqb andb] in Href.
    apply Nat.ltb_ge in Href. exact Href.
Qed.

Lemma parentheses_never_close_too_many_witness :
  App.display {| App.display := "5"; App.equation := "(2+" |} <> "Error"
  /\ App.handleOperator (Engine.run sample_host) en_US.toLocaleString
       sample_math (loaded, [])
       {| App.display := "5"; App.equation := "(2+" |} ")"
     = ((loaded, []), {| App.display := "0"; App.equation := "(2+5)" |})
  /\ App.handleOperator (Engine.run sample_host) en_US.toLocaleString
       sample_math (loaded, [])
       {| App.display := "0"; App.equation := "(2+5)" |} ")"
     = ((loaded, []),
        {| App.display := "Syntax Error"; App.equation := "(2+5)" |}).
Proof.
  split; [discriminate|]. split.
  - exact (proj1 (parentheses_never_close_too_many
                    _ (Engine.run sample_host) en_US.toLocaleString
                    sample_math (loaded, [])
                    {| App.display := "5"; App.equation := "(2+" |} ")"
                    (or_intror eq_refl) ltac:(discriminate))).
  - exact (proj1 (parentheses_never_close_too_many
                    _ (Engine.run sample_host) en_US.toLocaleString
                    sample_math (loaded, [])
                    {| App.display := "0"; App.equation := "(2+5)" |} ")"
                    (or_intror eq_refl) ltac:(discriminate))).
Defined.
